(** * Interview sessions and adaptive difficulty of selfeval

    A shallow embedding of the interview part of [services/storage.js]
    (the in-memory session registry, the difficulty tracker, the session
    metrics and the hand-over to [interviews.json]) and of the three
    lifecycle handlers of [routes/interview.js] ([/start], [/respond],
    [/end]), followed by the properties of the specification that concern
    them.

    Conventions of the embedding.
    - JavaScript values that the code only stores, or inspects through
      truthiness and property reads, are values of [jsval]; objects keep
      their own properties in insertion order.  Where the code reads or
      writes an object under a key it does not choose ([levelMap],
      [skipsPerTopic]), the members the object inherits from
      [Object.prototype] are part of the embedding; where it converts a
      value it does not choose to a string, so is the error of a failed
      conversion.
    - [activeSessions] (a [Map] from session id to session object) is a
      [gmap string Session].  The JavaScript code mutates the session object
      it finds in the map; here every mutation writes the new session back
      under the same id, so that a later lookup sees it.
    - A reading of the clock ([new Date()]) is an integer number of
      milliseconds; it is an argument of the function that reads it.
    - An awaited external call (the language model, the course file, the
      interview file) is an argument that says how the call ended. *)

From Stdlib Require Import ZArith Lia.
From stdpp Require Import gmap strings list fin_maps pretty.

Local Open Scope Z_scope.

(** ** JavaScript values *)

#[local] Set Warnings "-register-all".

Inductive jsval : Type :=
| JUndefined
| JNull
| JBool (b : bool)
| JNum (n : Z)
| JStr (s : string)
| JArr (items : list jsval)
| JObj (fields : list (string * jsval)).

(** An object: its own enumerable properties, in insertion order. *)
Definition jsobj : Type := list (string * jsval).

(** [ToBoolean]. *)
Definition truthy (v : jsval) : bool :=
  match v with
  | JUndefined | JNull => false
  | JBool b => b
  | JNum n => negb (n =? 0)
  | JStr s => negb (String.eqb s "")
  | JArr _ | JObj _ => true
  end.

(** [a || b]. *)
Definition js_or (a b : jsval) : jsval := if truthy a then a else b.

(** [o[k]] on the own properties of an object. *)
Fixpoint obj_get (o : jsobj) (k : string) : jsval :=
  match o with
  | [] => JUndefined
  | (k', v) :: o' => if String.eqb k' k then v else obj_get o' k
  end.

(** [v?.k] for the property names the handlers read ([metadata],
    [currentTopic], [id], [name], ...): [undefined] and [null] short-circuit
    to [undefined], and no primitive or array has such a property. *)
Definition opt_get (v : jsval) (k : string) : jsval :=
  match v with
  | JObj o => obj_get o k
  | _ => JUndefined
  end.

(** [o[k] = v]: an existing property keeps its place. *)
Fixpoint obj_set (o : jsobj) (k : string) (v : jsval) : jsobj :=
  match o with
  | [] => [(k, v)]
  | (k', v') :: o' =>
      if String.eqb k' k then (k, v) :: o' else (k', v') :: obj_set o' k v
  end.

(** [{ ...o, ...src }]: the properties of [src] are copied one by one. *)
Definition obj_spread (o src : jsobj) : jsobj :=
  fold_left (fun acc kv => obj_set acc (fst kv) (snd kv)) src o.

(** [k in o] for the own properties. *)
Definition has_own (o : jsobj) (k : string) : bool :=
  existsb (fun kv => String.eqb (fst kv) k) o.

(** ** Numbers as text *)

(** A JavaScript number is a double.  [JNum n] is a number whose value is
    an integer; every integer up to 2^53 in magnitude is a double, and a
    larger one stands for the double nearest to it, ties to the even
    mantissa, as a literal does. *)
Definition round_to_double (n : Z) : Z :=
  let bits := Z.log2 n + 1 in
  if bits <=? 53 then n
  else
    let shift := bits - 53 in
    let q := Z.shiftr n shift in
    let r := n - Z.shiftl q shift in
    let half := Z.shiftl 1 (shift - 1) in
    let q' := if (half <? r) || ((r =? half) && Z.odd q) then q + 1 else q in
    Z.shiftl q' shift.

Definition decimal_digits (v : Z) : Z := Z.of_nat (String.length (pretty v)).

(** [Number::toString] picks the decimal with the fewest significant digits
    that reads back as the same double, and among those the closest one.
    [shortest_decimal] tries [k] significant digits, then [k + 1], up to the
    17 that always suffice. *)
Fixpoint shortest_decimal (fuel : nat) (k : Z) (x digits : Z) : Z :=
  match fuel with
  | O => x
  | S fuel' =>
      let e := digits - k in
      if e <=? 0 then x
      else
        let unit := 10 ^ e in
        let lo := x / unit * unit in
        let hi := lo + unit in
        let ok_lo := round_to_double lo =? x in
        let ok_hi := round_to_double hi =? x in
        if ok_lo && ok_hi then
          if x - lo <? hi - x then lo
          else if hi - x <? x - lo then hi
          else if Z.even (lo / unit) then lo else hi
        else if ok_lo then lo
        else if ok_hi then hi
        else shortest_decimal fuel' (k + 1) x digits
  end.

Fixpoint strip_zeros (fuel : nat) (v : Z) : Z :=
  match fuel with
  | O => v
  | S fuel' =>
      if (0 <? v) && (v mod 10 =? 0) then strip_zeros fuel' (v / 10) else v
  end.

(** The form with an exponent, for 10^21 and above: [d.ddde+n]. *)
Definition exponent_form (v : Z) : string :=
  let n := decimal_digits v in
  let e := "e+" +:+ pretty (n - 1) in
  match pretty (strip_zeros (Z.to_nat n) v) with
  | String d "" => String d e
  | String d rest => String d ("." +:+ rest +:+ e)
  | "" => e
  end.

Definition number_to_string (n : Z) : string :=
  let x := round_to_double (Z.abs n) in
  let sign := if n <? 0 then "-" else "" in
  if 2 ^ 1024 <=? x then sign +:+ "Infinity"
  else
    let v := shortest_decimal 17 1 x (decimal_digits x) in
    if v <? 10 ^ 21 then sign +:+ pretty v else sign +:+ exponent_form v.

(** [ToString], as a template literal and a property key apply it; [None]
    is the [TypeError] it throws.  An object of parsed JSON has no callable
    property: with a [toString] of its own it cannot be converted, without
    one it inherits the conversion to "[object Object]".  An array joins the
    conversions of its elements. *)
Fixpoint js_to_string (v : jsval) : option string :=
  match v with
  | JUndefined => Some "undefined"
  | JNull => Some "null"
  | JBool true => Some "true"
  | JBool false => Some "false"
  | JNum n => Some (number_to_string n)
  | JStr s => Some s
  | JArr items =>
      (fix join (l : list jsval) : option string :=
         match l with
         | [] => Some ""
         | x :: l' =>
             match (match x with
                    | JUndefined | JNull => Some ""
                    | _ => js_to_string x
                    end) with
             | None => None
             | Some sx =>
                 match l' with
                 | [] => Some sx
                 | _ =>
                     match join l' with
                     | None => None
                     | Some rest => Some (sx +:+ "," +:+ rest)
                     end
                 end
             end
         end) items
  | JObj o => if has_own o "toString" then None else Some "[object Object]"
  end.

(** ** Data of a session *)

(** The members a plain object inherits from [Object.prototype]: what a
    read of one of these keys finds when the object has no property of that
    name. *)
Definition object_prototype_members : list string :=
  ["constructor"; "__defineGetter__"; "__defineSetter__"; "hasOwnProperty";
   "__lookupGetter__"; "__lookupSetter__"; "isPrototypeOf";
   "propertyIsEnumerable"; "toString"; "valueOf"; "__proto__";
   "toLocaleString"].

(** The value of [currentLevel].  It is a number, except in a session
    created for a role whose [baseLevel] names a member of
    [Object.prototype]: [levelMap[role.baseLevel]] then finds that member, a
    function (or, for [__proto__], the prototype itself), and the tracker
    starts from it. *)
Inductive Level :=
| Numeric (n : Z)
| Inherited (member : string).

Coercion Numeric : Z >-> Level.

(** One entry of [adjustmentHistory].  An adjustment happens only at a
    level that is a number. *)
Record Adjustment := {
  timestamp : Z;
  fromLevel : Z;
  toLevel : Z;
  reason : string
}.

Record DifficultyTracker := {
  currentLevel : Level;
  recentAssessments : list string;
  adjustmentHistory : list Adjustment
}.

Record Duration := {
  minutes : Z;
  seconds : Z
}.

(** A value of [skipsPerTopic]: a count, or the text that [+ 1] makes of a
    member inherited from [Object.prototype], which no comparison reads as
    a number. *)
Inductive SkipCount :=
| Counted (n : Z)
| NotANumber.

(** [session.metrics].  [skipsPerTopic] is created on the first skip;
    [duration] is only there once [endInterviewSession] has replaced the
    metrics by those of the summary. *)
Record Metrics := {
  questionCount : Z;
  skippedCount : Z;
  skipsPerTopic : option (list (string * SkipCount));
  duration : option Duration
}.

(** What [getSessionMetrics] returns (the [formatted] text of the duration
    is left out). *)
Record SessionMetrics := {
  sm_questionCount : Z;
  sm_skippedCount : Z;
  sm_duration : Duration
}.

Record PersonaSnapshot := {
  p_id : jsval;
  p_name : jsval;
  p_style : jsval;
  p_focusAreas : jsval;
  p_evaluationWeight : jsval
}.

(** A role of [roles.json].  [level] is a number or is missing, [baseLevel]
    is a string or is missing. *)
Record Role := {
  role_id : jsval;
  role_name : jsval;
  role_level : option Z;
  role_baseLevel : option string;
  role_type : jsval;
  role_expectations : jsval;
  role_focusTopics : jsval
}.

Record TargetRole := {
  tr_id : jsval;
  tr_name : jsval;
  tr_level : Level;
  tr_type : jsval;
  tr_expectations : jsval;
  tr_focusTopics : jsval
}.

(** The summary handed to [endInterviewSession]: the object returned by the
    language model with the fields [/end] adds to it.  A summary is a value
    here: what the object holds when [/end] hands it over, sends it and
    stores it.  In the source its [difficultyTracker] is the tracker object
    of the session and, once attached, its [metrics] is the metrics object
    of the session, so for a session that stays in the registry after a
    failed write, later turns show through the summary read from that
    session; the [summary] field of a session does not follow them. *)
Record Summary := {
  s_fields : jsobj;
  s_persona : option PersonaSnapshot;
  s_targetRole : option TargetRole;
  s_difficultyTracker : option DifficultyTracker;
  s_metrics : option SessionMetrics
}.

(** A session object.  [createInterviewSession] gives every session its
    [difficultyTracker] and its [metrics] and nothing removes them from a
    session of the registry, so both are plain fields, and the guards of the
    storage functions for a missing tracker or missing metrics have no
    counterpart here. *)
Record Session := {
  id : string;
  courseId : jsval;
  courseName : jsval;
  selectedTopics : jsval;
  topics : jsval;
  persona : option PersonaSnapshot;
  targetRole : option TargetRole;
  difficultyTracker : DifficultyTracker;
  metrics : Metrics;
  startTime : Z;
  endTime : option Z;
  messages : list jsobj;
  summary : option Summary
}.

(** Field updates ([session.f = v]). *)
Definition set_messages (s : Session) (m : list jsobj) : Session :=
  {| id := id s; courseId := courseId s; courseName := courseName s;
     selectedTopics := selectedTopics s; topics := topics s;
     persona := persona s; targetRole := targetRole s;
     difficultyTracker := difficultyTracker s; metrics := metrics s;
     startTime := startTime s; endTime := endTime s;
     messages := m; summary := summary s |}.

Definition set_difficultyTracker (s : Session) (t : DifficultyTracker) : Session :=
  {| id := id s; courseId := courseId s; courseName := courseName s;
     selectedTopics := selectedTopics s; topics := topics s;
     persona := persona s; targetRole := targetRole s;
     difficultyTracker := t; metrics := metrics s;
     startTime := startTime s; endTime := endTime s;
     messages := messages s; summary := summary s |}.

Definition set_metrics (s : Session) (m : Metrics) : Session :=
  {| id := id s; courseId := courseId s; courseName := courseName s;
     selectedTopics := selectedTopics s; topics := topics s;
     persona := persona s; targetRole := targetRole s;
     difficultyTracker := difficultyTracker s; metrics := m;
     startTime := startTime s; endTime := endTime s;
     messages := messages s; summary := summary s |}.

Definition set_ended (s : Session) (t : Z) (sm : Summary) : Session :=
  {| id := id s; courseId := courseId s; courseName := courseName s;
     selectedTopics := selectedTopics s; topics := topics s;
     persona := persona s; targetRole := targetRole s;
     difficultyTracker := difficultyTracker s; metrics := metrics s;
     startTime := startTime s; endTime := Some t;
     messages := messages s; summary := Some sm |}.

(** How a call ended: it returned a value, or it threw. *)
Inductive Outcome (A : Type) :=
| Returned (a : A)
| Thrown.
Arguments Returned {A} a.
Arguments Thrown {A}.

(** ** services/storage.js: the registry and the difficulty tracker *)

(** [createInterviewSession]: the level the tracker starts from.
    [levelMap[baseLevel]] finds one of the four keys of the object literal,
    or a member the literal inherits, or nothing ([None], [undefined] in the
    source). *)
Definition levelMap (baseLevel : string) : option Level :=
  if String.eqb baseLevel "junior" then Some (Numeric 1)
  else if String.eqb baseLevel "mid" then Some (Numeric 2)
  else if String.eqb baseLevel "senior" then Some (Numeric 3)
  else if String.eqb baseLevel "lead" then Some (Numeric 4)
  else if bool_decide (baseLevel ∈ object_prototype_members)
  then Some (Inherited baseLevel)
  else None.

(** [if (role.level)] and [if (role.baseLevel)] test truthiness: a level of
    0 and an empty string count as missing. *)
Definition level_given (l : option Z) : option Z :=
  match l with
  | Some n => if n =? 0 then None else Some n
  | None => None
  end.

Definition baseLevel_given (b : option string) : option string :=
  match b with
  | Some s => if String.eqb s "" then None else Some s
  | None => None
  end.

(** [levelMap[role.baseLevel] || 2]: the four numbers and the inherited
    members are all truthy. *)
Definition initialLevel (role : option Role) : Level :=
  match role with
  | None => Numeric 2
  | Some r =>
      match level_given (role_level r) with
      | Some n => Numeric n
      | None =>
          match baseLevel_given (role_baseLevel r) with
          | Some b => default (Numeric 2) (levelMap b)
          | None => Numeric 2
          end
      end
  end.

Definition snapshot_persona (persona : jsval) : option PersonaSnapshot :=
  if truthy persona then
    Some {| p_id := opt_get persona "id";
            p_name := opt_get persona "name";
            p_style := opt_get persona "style";
            p_focusAreas := opt_get persona "focusAreas";
            p_evaluationWeight := opt_get persona "evaluationWeight" |}
  else None.

Definition snapshot_role (role : option Role) : option TargetRole :=
  match role with
  | None => None
  | Some r =>
      Some {| tr_id := role_id r;
              tr_name := role_name r;
              tr_level :=
                match level_given (role_level r) with
                | Some n => Numeric n
                | None => initialLevel role
                end;
              tr_type := js_or (role_type r) (JStr "generic");
              tr_expectations := role_expectations r;
              tr_focusTopics := role_focusTopics r |}
  end.

(** [createInterviewSession].  The fresh id (built from the clock and a
    random suffix in the source) is the argument [sessionId]. *)
Definition createInterviewSession (reg : gmap string Session)
    (sessionId : string) (now : Z)
    (courseId courseName selectedTopics topics persona : jsval)
    (role : option Role) : gmap string Session * Session :=
  let session :=
    {| id := sessionId;
       courseId := courseId;
       courseName := courseName;
       selectedTopics := selectedTopics;
       topics := topics;
       persona := snapshot_persona persona;
       targetRole := snapshot_role role;
       difficultyTracker :=
         {| currentLevel := initialLevel role;
            recentAssessments := [];
            adjustmentHistory := [] |};
       metrics := {| questionCount := 0; skippedCount := 0;
                     skipsPerTopic := None; duration := None |};
       startTime := now;
       endTime := None;
       messages := [];
       summary := None |} in
  (<[sessionId := session]> reg, session).

Definition getActiveSession (reg : gmap string Session) (sessionId : string)
  : option Session := reg !! sessionId.

(** The object pushed by [addMessageToSession]: the metadata is spread into
    the message itself. *)
Definition make_message (role : string) (content : jsval) (now : Z)
    (metadata : jsobj) : jsobj :=
  obj_spread [("role", JStr role); ("content", content); ("timestamp", JNum now)]
             metadata.

Definition addMessageToSession (reg : gmap string Session) (sessionId : string)
    (role : string) (content : jsval) (now : Z) (metadata : jsobj)
  : gmap string Session * option Session :=
  match reg !! sessionId with
  | None => (reg, None)
  | Some session =>
      let session' :=
        set_messages session
          (messages session ++ [make_message role content now metadata]) in
      (<[sessionId := session']> reg, Some session')
  end.

(** The result of [checkDifficultyAdjustment]: [{ shouldAdjust: false }] or
    [{ shouldAdjust: true, direction, reason }]. *)
Inductive AdjustmentResult :=
| NoAdjust
| Adjust (direction : Z) (why : string).

Definition shouldAdjust (r : AdjustmentResult) : bool :=
  match r with
  | NoAdjust => false
  | Adjust _ _ => true
  end.

(** [recent.filter(a => a === label).length]. *)
Definition count_label (label : string) (recent : list string) : nat :=
  length (filter (fun a => a = label) recent).

Definition reason_increase : string :=
  "Candidate showing strong performance - increasing difficulty".

Definition reason_decrease : string :=
  "Candidate may need support - decreasing difficulty".

(** [level < k] and [level > k]: a level that is not a number converts to
    [NaN], for which both are false. *)
Definition level_below (level : Level) (k : Z) : bool :=
  match level with
  | Numeric n => n <? k
  | Inherited _ => false
  end.

Definition level_above (level : Level) (k : Z) : bool :=
  match level with
  | Numeric n => k <? n
  | Inherited _ => false
  end.

(** [checkDifficultyAdjustment].  The source nests [if (level < 4)] inside
    [if (excellentCount >= 2)] and falls through to the decrease test when
    either fails, which is the conjunction below; it also counts the good
    answers, a count it never reads. *)
Definition checkDifficultyAdjustment (tracker : DifficultyTracker) : AdjustmentResult :=
  let recent := recentAssessments tracker in
  if (length recent <? 2)%nat then NoAdjust
  else
    let excellentCount := count_label "excellent" recent in
    let partialCount := count_label "partial" recent in
    let briefCount := count_label "brief" recent in
    if (2 <=? excellentCount)%nat && level_below (currentLevel tracker) 4 then
      Adjust 1 reason_increase
    else if ((2 <=? briefCount)%nat || (2 <=? briefCount + partialCount)%nat)
            && level_above (currentLevel tracker) 1 then
      Adjust (-1) reason_decrease
    else NoAdjust.

Definition validAssessments : list string :=
  ["excellent"; "good"; "partial"; "brief"].

(** [validAssessments.includes(assessment)]: only a string can be equal to
    one of the four. *)
Definition valid_assessment (assessment : jsval) : option string :=
  match assessment with
  | JStr a => if bool_decide (a ∈ validAssessments) then Some a else None
  | _ => None
  end.

(** [recentAssessments.push(a)], then one [shift()] when more than three
    are held. *)
Definition push_assessment (recent : list string) (a : string) : list string :=
  let recent' := recent ++ [a] in
  if (3 <? length recent')%nat then tail recent' else recent'.

(** The body of [updateDifficultyAssessment] once the label is known to be
    valid.  [checkDifficultyAdjustment] asks for an adjustment only after a
    comparison of the level with a number has held, so the arithmetic of the
    adjustment is on a number. *)
Definition record_assessment (tracker : DifficultyTracker) (a : string) (now : Z)
  : DifficultyTracker :=
  let pushed :=
    {| currentLevel := currentLevel tracker;
       recentAssessments := push_assessment (recentAssessments tracker) a;
       adjustmentHistory := adjustmentHistory tracker |} in
  match checkDifficultyAdjustment pushed, currentLevel pushed with
  | Adjust direction why, Numeric previousLevel =>
      let newLevel := Z.max 1 (Z.min 4 (previousLevel + direction)) in
      {| currentLevel := Numeric newLevel;
         recentAssessments := [];
         adjustmentHistory :=
           adjustmentHistory pushed ++
             [ {| timestamp := now; fromLevel := previousLevel;
                  toLevel := newLevel; reason := why |} ] |}
  | _, _ => pushed
  end.

(** [updateDifficultyAssessment]: [null] for an unknown session, the
    session untouched for an invalid label.  The warning for an invalid
    label is a template literal, which converts the label to a string: the
    call throws when that conversion does. *)
Definition updateDifficultyAssessment (reg : gmap string Session)
    (sessionId : string) (assessment : jsval) (now : Z)
  : gmap string Session * Outcome (option Session) :=
  match reg !! sessionId with
  | None => (reg, Returned None)
  | Some session =>
      match valid_assessment assessment with
      | None =>
          match js_to_string assessment with
          | Some _ => (reg, Returned (Some session))
          | None => (reg, Thrown)
          end
      | Some a =>
          let session' :=
            set_difficultyTracker session
              (record_assessment (difficultyTracker session) a now) in
          (<[sessionId := session']> reg, Returned (Some session'))
      end
  end.

(** [getDifficultyContext], for a session of the registry. *)
Record DifficultyContext := {
  dc_currentLevel : Level;
  dc_levelName : string;
  dc_recentAssessments : list string
}.

(** [levelNames[level] || 'Mid-Level']: the level is converted to a key,
    which is one of "1" to "4" for these four numbers only. *)
Definition levelNames (level : Level) : string :=
  match level with
  | Numeric n =>
      if n =? 1 then "Junior"
      else if n =? 2 then "Mid-Level"
      else if n =? 3 then "Senior"
      else if n =? 4 then "Lead"
      else "Mid-Level"
  | Inherited _ => "Mid-Level"
  end.

Definition getDifficultyContext (reg : gmap string Session) (sessionId : string)
  : DifficultyContext :=
  match reg !! sessionId with
  | None =>
      {| dc_currentLevel := Numeric 2; dc_levelName := "Mid-Level";
         dc_recentAssessments := [] |}
  | Some session =>
      let tracker := difficultyTracker session in
      {| dc_currentLevel := currentLevel tracker;
         dc_levelName := levelNames (currentLevel tracker);
         dc_recentAssessments := recentAssessments tracker |}
  end.

(** ** services/storage.js: the session metrics *)

Definition incrementQuestionCount (reg : gmap string Session) (sessionId : string)
  : gmap string Session * option Session :=
  match reg !! sessionId with
  | None => (reg, None)
  | Some session =>
      let m := metrics session in
      let session' :=
        set_metrics session
          {| questionCount := questionCount m + 1;
             skippedCount := skippedCount m;
             skipsPerTopic := skipsPerTopic m;
             duration := duration m |} in
      (<[sessionId := session']> reg, Some session')
  end.

(** [skipsPerTopic] is a plain object: besides its own properties, listed
    here in the order of [Object.entries], a read finds the members of
    [Object.prototype]. *)
Fixpoint own_count (skips : list (string * SkipCount)) (k : string)
  : option SkipCount :=
  match skips with
  | [] => None
  | (k', c) :: rest => if String.eqb k' k then Some c else own_count rest k
  end.

(** A key that is an array index (the decimal text of an integer from 0 to
    2^32 - 2) is listed before the other keys, in numeric order; the other
    keys follow in the order of their creation. *)
Definition digit_of (c : Ascii.ascii) : option Z :=
  let n := Z.of_nat (Ascii.nat_of_ascii c) in
  if (48 <=? n) && (n <=? 57) then Some (n - 48) else None.

Fixpoint read_digits (acc : Z) (s : string) : option Z :=
  match s with
  | EmptyString => Some acc
  | String c rest =>
      match digit_of c with
      | Some d => read_digits (10 * acc + d) rest
      | None => None
      end
  end.

Definition array_index (k : string) : option Z :=
  match k with
  | EmptyString => None
  | String c rest =>
      if String.eqb k "0" then Some 0
      else if Ascii.eqb c (Ascii.ascii_of_nat 48) then None
      else
        match read_digits 0 k with
        | Some n => if n <? 4294967295 then Some n else None
        | None => None
        end
  end.

(** [skips[k] = c] for a key that is not yet a property of [skips]. *)
Fixpoint create_entry (skips : list (string * SkipCount)) (k : string)
    (c : SkipCount) : list (string * SkipCount) :=
  match skips with
  | [] => [(k, c)]
  | (k', c') :: rest =>
      match array_index k, array_index k' with
      | Some n, Some n' =>
          if n <? n' then (k, c) :: skips else (k', c') :: create_entry rest k c
      | Some _, None => (k, c) :: skips
      | None, _ => (k', c') :: create_entry rest k c
      end
  end.

(** [skips[k] = c] for a key that is a property of [skips]: it keeps its
    place. *)
Fixpoint replace_entry (skips : list (string * SkipCount)) (k : string)
    (c : SkipCount) : list (string * SkipCount) :=
  match skips with
  | [] => []
  | (k', c') :: rest =>
      if String.eqb k' k then (k, c) :: rest
      else (k', c') :: replace_entry rest k c
  end.

(** [skips[k] = (skips[k] || 0) + 1].  A count goes up by one and a missing
    key gets the count 1, unless the key names a member of
    [Object.prototype]: the read then finds that member, [+ 1] makes a text
    of it, and the text is stored, except under [__proto__], whose inherited
    setter ignores it. *)
Definition bump_topic (skips : list (string * SkipCount)) (k : string)
  : list (string * SkipCount) :=
  if String.eqb k "__proto__" then skips
  else
    match own_count skips k with
    | Some (Counted c) => replace_entry skips k (Counted ((if c =? 0 then 0 else c) + 1))
    | Some NotANumber => replace_entry skips k NotANumber
    | None =>
        if bool_decide (k ∈ object_prototype_members)
        then create_entry skips k NotANumber
        else create_entry skips k (Counted (0 + 1))
    end.

(** [incrementSkippedCount(sessionId, topicId)]: the per-topic counter moves
    only for a truthy [topicId], which then serves as a property key.  When
    the conversion to a key throws, [skipsPerTopic] has been created and
    [skippedCount] incremented already. *)
Definition incrementSkippedCount (reg : gmap string Session) (sessionId : string)
    (topicId : jsval) : gmap string Session * Outcome (option Session) :=
  match reg !! sessionId with
  | None => (reg, Returned None)
  | Some session =>
      let m := metrics session in
      let skips := default [] (skipsPerTopic m) in
      let counted skips' :=
        set_metrics session
          {| questionCount := questionCount m;
             skippedCount := skippedCount m + 1;
             skipsPerTopic := Some skips';
             duration := duration m |} in
      if truthy topicId then
        match js_to_string topicId with
        | Some key =>
            (<[sessionId := counted (bump_topic skips key)]> reg,
             Returned (Some (counted (bump_topic skips key))))
        | None => (<[sessionId := counted skips]> reg, Thrown)
        end
      else (<[sessionId := counted skips]> reg, Returned (Some (counted skips)))
  end.

Record TopicSkipInfo := {
  maxSkips : Z;
  topicId : option string
}.

(** [count > maxSkips]: false for a value that is not a number. *)
Definition exceeds (c : SkipCount) (maxSkips : Z) : bool :=
  match c with
  | Counted n => maxSkips <? n
  | NotANumber => false
  end.

Definition count_value (c : SkipCount) : Z :=
  match c with
  | Counted n => n
  | NotANumber => 0
  end.

(** The loop of [getMaxTopicSkips] over [Object.entries(skipsPerTopic)]. *)
Definition max_topic_skips (skips : list (string * SkipCount)) : TopicSkipInfo :=
  fold_left
    (fun acc entry =>
       if exceeds (snd entry) (maxSkips acc)
       then {| maxSkips := count_value (snd entry); topicId := Some (fst entry) |}
       else acc)
    skips {| maxSkips := 0; topicId := None |}.

Definition getMaxTopicSkips (reg : gmap string Session) (sessionId : string)
  : TopicSkipInfo :=
  match reg !! sessionId with
  | None => {| maxSkips := 0; topicId := None |}
  | Some session =>
      match skipsPerTopic (metrics session) with
      | None => {| maxSkips := 0; topicId := None |}
      | Some skips => max_topic_skips skips
      end
  end.

(** [getSessionMetrics]: [Math.floor] of a quotient is [Z.div], the
    JavaScript remainder [%] is [Z.rem]. *)
Definition getSessionMetrics (reg : gmap string Session) (sessionId : string)
    (now : Z) : option SessionMetrics :=
  match reg !! sessionId with
  | None => None
  | Some session =>
      let durationMs := now - startTime session in
      Some {| sm_questionCount := questionCount (metrics session);
              sm_skippedCount := skippedCount (metrics session);
              sm_duration :=
                {| minutes := durationMs / 60000;
                   seconds := Z.rem durationMs 60000 / 1000 |} |}
  end.

(** ** services/storage.js: the end of a session *)

(** [interviews.json] holds the list [sessions]; [None] is a file that is
    missing or does not parse, which [getInterviews] reads as no session at
    all. *)
Definition getInterviews (file : option (list Session)) : list Session :=
  default [] file.

Definition metrics_of_summary (m : SessionMetrics) : Metrics :=
  {| questionCount := sm_questionCount m;
     skippedCount := sm_skippedCount m;
     skipsPerTopic := None;
     duration := Some (sm_duration m) |}.

(** [endInterviewSession].  [write_ok] says whether [fs.writeFile]
    succeeded; when it throws, the session object has already been given its
    [endTime] and [summary] and is still in the registry. *)
Definition endInterviewSession (reg : gmap string Session)
    (file : option (list Session)) (sessionId : string) (sm : Summary)
    (now : Z) (write_ok : bool)
  : gmap string Session * option (list Session) * Outcome (option Session) :=
  match reg !! sessionId with
  | None => (reg, file, Returned None)
  | Some session =>
      let ended := set_ended session now sm in
      let ended :=
        match s_metrics sm with
        | Some m => set_metrics ended (metrics_of_summary m)
        | None => ended
        end in
      let sessions := take 50 (ended :: getInterviews file) in
      if write_ok
      then (delete sessionId reg, Some sessions, Returned (Some ended))
      else (<[sessionId := ended]> reg, file, Thrown)
  end.

(** ** routes/interview.js: the three lifecycle handlers *)

Definition MAX_SKIPS_BEFORE_END : Z := 3.

(** What a handler sends back. *)
Inductive Response :=
| Rejected (status : Z)
| BadRequest
| NotFound
| ServerError
| StartOk (sessionId : string) (message currentTopic : jsval)
    (persona : option PersonaSnapshot) (targetRole : option TargetRole)
    (difficultyLevel : Level)
| AutoEnd (why : string) (topicName : jsval) (skippedCount : option Z)
    (topicId : option string)
| RespondOk (message currentTopic assessment : jsval) (difficultyLevel : Level)
    (difficultyName : string) (metrics : option SessionMetrics)
| EndOk (sm : Summary).

(** The checks of [/start] that come before the session is created (course
    lookup, daily limit, eligibility, topic selection, persona and role
    lookup) read other stores; their result is an input here. *)
Inductive StartGate :=
| GateClosed (status : Z)
| GateOpen (courseId courseName selectedTopics topics persona : jsval)
    (role : option Role).

(** [/start].  [gen] is the result of [groq.startInterview]: the parsed
    object, or [None] when the call throws. *)
Definition start (reg : gmap string Session) (gate : StartGate)
    (sessionId : string) (t0 t1 : Z) (gen : option jsobj)
  : gmap string Session * Response :=
  match gate with
  | GateClosed status => (reg, Rejected status)
  | GateOpen course name selected topicList personaFound roleFound =>
      let '(reg1, session) :=
        createInterviewSession reg sessionId t0 course name
          selected topicList personaFound roleFound in
      let difficultyContext := getDifficultyContext reg1 (id session) in
      match gen with
      | None => (reg1, ServerError)
      | Some response =>
          let reg2 :=
            fst (addMessageToSession reg1 (id session) "interviewer"
                   (obj_get response "message") t1
                   [("currentTopic", obj_get response "currentTopic")]) in
          let reg3 := fst (incrementQuestionCount reg2 (id session)) in
          (reg3,
           StartOk (id session) (obj_get response "message")
             (obj_get response "currentTopic")
             (persona session) (targetRole session)
             (dc_currentLevel difficultyContext))
      end
  end.

(** [[...session.messages].reverse().find(m => m.role === 'interviewer')]. *)
Definition is_interviewer (m : jsobj) : bool :=
  match obj_get m "role" with
  | JStr r => String.eqb r "interviewer"
  | _ => false
  end.

Definition lastInterviewerMsg (msgs : list jsobj) : jsval :=
  match List.find is_interviewer (rev msgs) with
  | Some m => JObj m
  | None => JUndefined
  end.

(** [lastInterviewerMsg?.metadata?.currentTopic?.id || null]. *)
Definition currentTopicId (msgs : list jsobj) : jsval :=
  js_or (opt_get (opt_get (opt_get (lastInterviewerMsg msgs) "metadata")
                    "currentTopic") "id")
        JNull.

(** [lastInterviewerMsg?.metadata?.currentTopic?.name || 'this topic']. *)
Definition currentTopicName (msgs : list jsobj) : jsval :=
  js_or (opt_get (opt_get (opt_get (lastInterviewerMsg msgs) "metadata")
                    "currentTopic") "name")
        (JStr "this topic").

(** The [if (skipped)] block of [/respond]: the counters are moved, and the
    block may end the request on its own, with the auto-end signal or, when
    [incrementSkippedCount] throws, with the answer of the [catch]. *)
Definition track_skip (reg : gmap string Session) (sid : string)
    (session : Session) (t0 : Z) : gmap string Session * option Response :=
  match incrementSkippedCount reg sid (currentTopicId (messages session)) with
  | (reg1, Thrown) => (reg1, Some ServerError)
  | (reg1, Returned _) =>
      let topicSkipInfo := getMaxTopicSkips reg1 sid in
      let metrics := getSessionMetrics reg1 sid t0 in
      if MAX_SKIPS_BEFORE_END <=? maxSkips topicSkipInfo then
        (reg1,
         Some (AutoEnd "topic_skip_limit" (currentTopicName (messages session))
                 (sm_skippedCount <$> metrics) (topicId topicSkipInfo)))
      else (reg1, None)
  end.

(** What follows the user message in [/respond], once [gen] is known.
    [gen] is the result of the course lookup followed by
    [groq.continueInterview]: the parsed object, or [None] when one of the
    two throws.  When [updateDifficultyAssessment] throws, the [catch]
    answers and the rest of the turn is not run. *)
Definition continue_turn (reg : gmap string Session) (sid : string)
    (skipped : jsval) (t1 : Z) (gen : option jsobj)
  : gmap string Session * Response :=
  match gen with
  | None => (reg, ServerError)
  | Some response =>
      let assessment := obj_get response "assessmentOfLastAnswer" in
      match
        (if truthy assessment && negb (truthy skipped)
         then updateDifficultyAssessment reg sid assessment t1
         else (reg, Returned None))
      with
      | (reg1, Thrown) => (reg1, ServerError)
      | (reg1, Returned _) =>
      let updatedDifficulty := getDifficultyContext reg1 sid in
      let reg2 :=
        if negb (truthy (obj_get response "isProbing"))
        then fst (incrementQuestionCount reg1 sid)
        else reg1 in
      let reg3 :=
        fst (addMessageToSession reg2 sid "interviewer"
               (obj_get response "message") t1
               [("currentTopic", obj_get response "currentTopic");
                ("assessmentOfLastAnswer", assessment);
                ("isProbing", obj_get response "isProbing")]) in
      (reg3,
       RespondOk (obj_get response "message")
         (obj_get response "currentTopic") assessment
         (dc_currentLevel updatedDifficulty) (dc_levelName updatedDifficulty)
         (getSessionMetrics reg3 sid t1))
      end
  end.

(** [/respond].  [t0] is the clock before the awaited calls, [t1] after. *)
Definition respond (reg : gmap string Session)
    (sessionId message skipped : jsval) (t0 t1 : Z) (gen : option jsobj)
  : gmap string Session * Response :=
  if negb (truthy sessionId) || negb (truthy message) then (reg, BadRequest)
  else
    match sessionId with
    | JStr sid =>
        match getActiveSession reg sid with
        | None => (reg, NotFound)
        | Some session =>
            let '(reg1, signal) :=
              if truthy skipped then track_skip reg sid session t0
              else (reg, None) in
            match signal with
            | Some autoEnd => (reg1, autoEnd)
            | None =>
                let reg2 :=
                  fst (addMessageToSession reg1 sid "user" message t0
                         [("skipped", JBool (truthy skipped))]) in
                continue_turn reg2 sid skipped t1 gen
            end
        end
    | _ => (reg, NotFound)
    end.

(** [/end].  [gen] is the result of the course lookup followed by
    [groq.endInterview]; [file] and [write_ok] are the state of
    [interviews.json] and the fate of the write. *)
Definition end_interview (reg : gmap string Session)
    (file : option (list Session)) (sessionId : jsval) (t0 t1 : Z)
    (gen : option jsobj) (write_ok : bool)
  : gmap string Session * option (list Session) * Response :=
  if negb (truthy sessionId) then (reg, file, BadRequest)
  else
    match sessionId with
    | JStr sid =>
        match getActiveSession reg sid with
        | None => (reg, file, NotFound)
        | Some session =>
            let metrics := getSessionMetrics reg sid t0 in
            match gen with
            | None => (reg, file, ServerError)
            | Some fields =>
                let sm :=
                  {| s_fields := fields;
                     s_persona := persona session;
                     s_targetRole := targetRole session;
                     s_difficultyTracker := Some (difficultyTracker session);
                     s_metrics := metrics |} in
                match endInterviewSession reg file sid sm t1 write_ok with
                | (reg', file', Returned _) => (reg', file', EndOk sm)
                | (reg', file', Thrown) => (reg', file', ServerError)
                end
            end
        end
    | _ => (reg, file, NotFound)
    end.

(** ** Vocabulary of the properties *)

(** The data invariant of a tracker: its level is one of the numbers 1 to
    4. *)
Definition in_range (level : Level) : Prop :=
  match level with
  | Numeric n => 1 ≤ n ≤ 4
  | Inherited _ => False
  end.

Definition level_in_range (t : DifficultyTracker) : Prop :=
  in_range (currentLevel t).

Definition window_bounded (t : DifficultyTracker) : Prop :=
  (length (recentAssessments t) ≤ 3)%nat.

(** A sequence of [updateDifficultyAssessment] calls on one session; each
    call comes with its label and the clock it reads. *)
Definition consume_all (reg : gmap string Session) (sid : string)
    (calls : list (string * Z)) : gmap string Session :=
  fold_left
    (fun r call => fst (updateDifficultyAssessment r sid (JStr (fst call)) (snd call)))
    calls reg.

(** The two conditions of the adjustment rule, on a window. *)
Definition increase_condition (w : list string) : Prop :=
  (2 ≤ count_label "excellent" w)%nat.

Definition decrease_condition (w : list string) : Prop :=
  (2 ≤ count_label "brief" w)%nat
  ∨ (2 ≤ count_label "brief" w + count_label "partial" w)%nat.

(** The reference rule, written after section 4.3 of the specification
    (steps 2 to 8) rather than after the code: a window of capacity 3 with
    first-in first-out eviction, no adjustment under two labels, increase
    before decrease, the new level clamped to 1..4, one history record and
    an emptied window on adjustment.  The level of the specification is an
    integer: [level] is the number the tracker [t] holds. *)
Definition fifo3 (recent : list string) (a : string) : list string :=
  let w := recent ++ [a] in drop (length w - 3) w.

Definition clamp (lo hi x : Z) : Z := Z.max lo (Z.min hi x).

Definition reference_adjusted (level : Z) (t : DifficultyTracker) (dir : Z)
    (why : string) (now : Z) : DifficultyTracker :=
  {| currentLevel := Numeric (clamp 1 4 (level + dir));
     recentAssessments := [];
     adjustmentHistory :=
       adjustmentHistory t ++
         [ {| timestamp := now; fromLevel := level;
              toLevel := clamp 1 4 (level + dir); reason := why |} ] |}.

Definition reference_rule (level : Z) (t : DifficultyTracker) (a : string)
    (now : Z) : DifficultyTracker :=
  let w := fifo3 (recentAssessments t) a in
  if bool_decide (length w < 2)%nat then
    {| currentLevel := Numeric level; recentAssessments := w;
       adjustmentHistory := adjustmentHistory t |}
  else if bool_decide (increase_condition w ∧ level < 4) then
    reference_adjusted level t 1 reason_increase now
  else if bool_decide (decrease_condition w ∧ 1 < level) then
    reference_adjusted level t (-1) reason_decrease now
  else
    {| currentLevel := Numeric level; recentAssessments := w;
       adjustmentHistory := adjustmentHistory t |}.

(** The initial level as the specification words it: the numeric level of
    the role, else the mapping of its [baseLevel] (2 when the string is not
    one of the four), else 2. *)
Definition reference_levelMap (b : string) : Z :=
  if bool_decide (b = "junior") then 1
  else if bool_decide (b = "mid") then 2
  else if bool_decide (b = "senior") then 3
  else if bool_decide (b = "lead") then 4
  else 2.

Definition reference_initialLevel (role : option Role) : Z :=
  match role with
  | None => 2
  | Some r =>
      match role_level r with
      | Some n => n
      | None =>
          match role_baseLevel r with
          | Some b => reference_levelMap b
          | None => 2
          end
      end
  end.

(** The per-topic skip count of a topic ([0] when it has none). *)
Definition topic_skips (skips : list (string * SkipCount)) (k : string) : Z :=
  match own_count skips k with
  | Some c => count_value c
  | None => 0
  end.

Definition session_topic_skips (s : Session) (k : string) : Z :=
  topic_skips (default [] (skipsPerTopic (metrics s))) k.

(** The user message that [/respond] pushes. *)
Definition user_message (message skipped : jsval) (t0 : Z) : jsobj :=
  make_message "user" message t0 [("skipped", JBool (truthy skipped))].

Definition is_autoEnd (r : Response) : bool :=
  match r with
  | AutoEnd _ _ _ _ => true
  | _ => false
  end.

(** Concrete sessions for the examples: a role that only declares a level,
    and the session [createInterviewSession] makes for it in an empty
    registry at time 0. *)
Definition role_of_level (n : Z) : Role :=
  {| role_id := JStr "r1"; role_name := JStr "Engineer";
     role_level := Some n; role_baseLevel := None;
     role_type := JUndefined; role_expectations := JUndefined;
     role_focusTopics := JUndefined |}.

(** A role that only declares a [baseLevel]. *)
Definition role_of_baseLevel (b : string) : Role :=
  {| role_id := JStr "r1"; role_name := JStr "Engineer";
     role_level := None; role_baseLevel := Some b;
     role_type := JUndefined; role_expectations := JUndefined;
     role_focusTopics := JUndefined |}.

Definition fresh_session (sid : string) (level : Z) : Session :=
  snd (createInterviewSession ∅ sid 0 (JStr "c1") (JStr "Course")
         (JStr "random") (JArr []) JUndefined (Some (role_of_level level))).

(** A registry as [/start] leaves it: one session "s1" for a level-2 role,
    holding the opening question of the interviewer. *)
Definition opening : jsobj :=
  [("message", JStr "Tell me about closures.");
   ("currentTopic", JObj [("id", JStr "closures"); ("name", JStr "Closures")])].

Definition started_registry : gmap string Session :=
  fst (start ∅
         (GateOpen (JStr "c1") (JStr "Course") (JStr "random") (JArr [])
            JUndefined (Some (role_of_level 2)))
         "s1" 0 1 (Some opening)).

(** Metadata that carries the topic under a [metadata] property of the
    message, where [/respond] looks for it. *)
Definition topic_metadata (tid name : string) : jsobj :=
  [("metadata",
    JObj [("currentTopic", JObj [("id", JStr tid); ("name", JStr name)])])].

(** Session "s1" asked about topic "A", with two skips recorded on it. *)
Definition two_skips_registry : gmap string Session :=
  let reg0 := fst (createInterviewSession ∅ "s1" 0 (JStr "c1") (JStr "Course")
                     (JStr "random") (JArr []) JUndefined
                     (Some (role_of_level 2))) in
  let reg1 := fst (addMessageToSession reg0 "s1" "interviewer"
                     (JStr "What about A?") 1 (topic_metadata "A" "Topic A")) in
  let reg2 := fst (incrementSkippedCount reg1 "s1" (JStr "A")) in
  fst (incrementSkippedCount reg2 "s1" (JStr "A")).

Definition skip_request : jsval :=
  JStr "I'd like to skip this question and move to the next one.".

Definition next_question : jsobj :=
  [("message", JStr "Fine. What is a promise?");
   ("currentTopic", JObj [("id", JStr "promises"); ("name", JStr "Promises")]);
   ("isProbing", JBool false)].

(** A reply of the language model that stays on the topic of the opening
    question. *)
Definition same_topic_question : jsobj :=
  [("message", JStr "Then what does a closure capture?");
   ("currentTopic", JObj [("id", JStr "closures"); ("name", JStr "Closures")]);
   ("isProbing", JBool false)].

(** A label the language model may return: an object with a [toString]
    property of its own, which parsed JSON never makes callable. *)
Definition unprintable_label : jsval := JObj [("toString", JNum 1)].

(** ** services/storage.js: the remaining readers of sessions *)

Definition getDifficultyLevel (reg : gmap string Session) (sessionId : string)
  : Level :=
  match reg !! sessionId with
  | None => 2
  | Some session => currentLevel (difficultyTracker session)
  end.

(** [v === s] for a string [s]. *)
Definition is_string (v : jsval) (s : string) : bool :=
  match v with
  | JStr a => String.eqb a s
  | _ => false
  end.

(** [getInterviewsByCourse]: [sessions.filter(s => s.courseId === courseId)]. *)
Definition getInterviewsByCourse (file : option (list Session)) (course : string)
  : list Session :=
  List.filter (fun s => is_string (courseId s) course) (getInterviews file).


(** [clearInterviewsByCourse]: the sessions of the other courses are written
    back, in their order; a missing file is written as an empty list. *)
Definition clearInterviewsByCourse (file : option (list Session)) (course : string)
    (write_ok : bool) : option (list Session) * Outcome unit :=
  let kept :=
    List.filter (fun s => negb (is_string (courseId s) course)) (getInterviews file) in
  if write_ok then (Some kept, Returned tt) else (file, Thrown).

(** ** prompts/templates.js: what the summary prompt reads off the tracker *)

(** [adjustmentHistory?.[0]?.fromLevel || currentLevel], the level the
    summary prompt announces as the starting one. *)
Definition startedAtLevel (t : DifficultyTracker) : Level :=
  match adjustmentHistory t with
  | [] => currentLevel t
  | first :: _ =>
      if fromLevel first =? 0 then currentLevel t else Numeric (fromLevel first)
  end.

(** ** The handlers as one machine *)

(** A request to one of the three handlers, with the clock readings and the
    fate of the awaited calls of that request. *)
Inductive Request :=
| ReqStart (gate : StartGate) (sessionId : string) (t0 t1 : Z) (gen : option jsobj)
| ReqRespond (sessionId message skipped : jsval) (t0 t1 : Z) (gen : option jsobj)
| ReqEnd (sessionId : jsval) (t0 t1 : Z) (gen : option jsobj) (write_ok : bool).

(** The state the handlers share: the registry and [interviews.json]. *)
Definition ServerState : Type := gmap string Session * option (list Session).

Definition handle (st : ServerState) (req : Request) : ServerState * Response :=
  match req with
  | ReqStart gate sessionId t0 t1 gen =>
      let out := start (fst st) gate sessionId t0 t1 gen in
      ((fst out, snd st), snd out)
  | ReqRespond sessionId message skipped t0 t1 gen =>
      let out := respond (fst st) sessionId message skipped t0 t1 gen in
      ((fst out, snd st), snd out)
  | ReqEnd sessionId t0 t1 gen write_ok =>
      let out := end_interview (fst st) (snd st) sessionId t0 t1 gen write_ok in
      (fst out, snd out)
  end.

(** The states a sequence of requests goes through, and the answers. *)
Fixpoint serve (st : ServerState) (reqs : list Request)
  : ServerState * list Response :=
  match reqs with
  | [] => (st, [])
  | req :: reqs' =>
      let '(st1, r) := handle st req in
      let '(st2, rs) := serve st1 reqs' in
      (st2, r :: rs)
  end.

(** ** Vocabulary of the further properties *)

(** The history as a path: it starts at [from], every record moves one level
    up or down from where the previous one arrived, and it arrives at [to]. *)
Fixpoint history_path (from : Z) (h : list Adjustment) (to : Z) : Prop :=
  match h with
  | [] => from = to
  | r :: h' =>
      fromLevel r = from
      ∧ (toLevel r = from + 1 ∨ toLevel r = from - 1)
      ∧ history_path (toLevel r) h' to
  end.

(** A session as the handlers build it: no message has a [metadata]
    property, and no skip has been counted against a topic. *)
Definition built_by_handlers (s : Session) : Prop :=
  Forall (fun m => obj_get m "metadata" = JUndefined) (messages s)
  ∧ (skipsPerTopic (metrics s) = None ∨ skipsPerTopic (metrics s) = Some []).

(** A session that is still running. *)
Definition running (s : Session) : Prop :=
  endTime s = None ∧ summary s = None.

(** The tracker after a sequence of [updateDifficultyAssessment] calls: a
    valid label goes through the body of the function, any other is
    skipped. *)
Definition track (t : DifficultyTracker) (calls : list (string * Z))
  : DifficultyTracker :=
  fold_left
    (fun t call =>
       match valid_assessment (JStr (fst call)) with
       | Some a => record_assessment t a (snd call)
       | None => t
       end)
    calls t.

(** One [/respond] turn seen from the session it finds: the session it
    leaves in the registry and the answer it gives.  [respond_turn] proves
    that [respond] does exactly this to the registry. *)
Definition skip_tracked (s : Session) : Session :=
  let topic := currentTopicId (messages s) in
  let skips := default [] (skipsPerTopic (metrics s)) in
  set_metrics s
    {| questionCount := questionCount (metrics s);
       skippedCount := skippedCount (metrics s) + 1;
       skipsPerTopic :=
         Some (if truthy topic then
                 match js_to_string topic with
                 | Some key => bump_topic skips key
                 | None => skips
                 end
               else skips);
       duration := duration (metrics s) |}.

(** The topic found for the skip cannot be made a property key. *)
Definition skip_throws (s : Session) : bool :=
  let topic := currentTopicId (messages s) in
  truthy topic && negb (bool_decide (is_Some (js_to_string topic))).

Definition limit_reached (s : Session) : bool :=
  MAX_SKIPS_BEFORE_END
  <=? maxSkips (max_topic_skips (default [] (skipsPerTopic (metrics s)))).

(** The label of the answer reaches [updateDifficultyAssessment], is not one
    of the four, and cannot be made a string for the warning. *)
Definition label_throws (skipped : jsval) (response : jsobj) : bool :=
  let assessment := obj_get response "assessmentOfLastAnswer" in
  truthy assessment && negb (truthy skipped)
  && negb (bool_decide (is_Some (valid_assessment assessment)))
  && negb (bool_decide (is_Some (js_to_string assessment))).

Definition assessed (s : Session) (skipped : jsval) (t1 : Z) (response : jsobj)
  : Session :=
  let assessment := obj_get response "assessmentOfLastAnswer" in
  if truthy assessment && negb (truthy skipped) then
    match valid_assessment assessment with
    | Some a =>
        set_difficultyTracker s (record_assessment (difficultyTracker s) a t1)
    | None => s
    end
  else s.

Definition counted (s : Session) (response : jsobj) : Session :=
  if negb (truthy (obj_get response "isProbing")) then
    set_metrics s
      {| questionCount := questionCount (metrics s) + 1;
         skippedCount := skippedCount (metrics s);
         skipsPerTopic := skipsPerTopic (metrics s);
         duration := duration (metrics s) |}
  else s.

Definition interviewer_message (response : jsobj) (t1 : Z) : jsobj :=
  make_message "interviewer" (obj_get response "message") t1
    [("currentTopic", obj_get response "currentTopic");
     ("assessmentOfLastAnswer", obj_get response "assessmentOfLastAnswer");
     ("isProbing", obj_get response "isProbing")].

Definition turn_session (s : Session) (message skipped : jsval) (t0 t1 : Z)
    (gen : option jsobj) : Session :=
  let s1 := if truthy skipped then skip_tracked s else s in
  if truthy skipped && (skip_throws s || limit_reached s1) then s1
  else
    let s2 := set_messages s1 (messages s1 ++ [user_message message skipped t0]) in
    match gen with
    | None => s2
    | Some response =>
        if label_throws skipped response then s2
        else
          let s4 := counted (assessed s2 skipped t1 response) response in
          set_messages s4 (messages s4 ++ [interviewer_message response t1])
    end.

Definition metrics_at (s : Session) (now : Z) : SessionMetrics :=
  {| sm_questionCount := questionCount (metrics s);
     sm_skippedCount := skippedCount (metrics s);
     sm_duration :=
       {| minutes := (now - startTime s) / 60000;
          seconds := Z.rem (now - startTime s) 60000 / 1000 |} |}.

Definition turn_response (s : Session) (message skipped : jsval) (t0 t1 : Z)
    (gen : option jsobj) : Response :=
  let s1 := if truthy skipped then skip_tracked s else s in
  if truthy skipped && skip_throws s then ServerError
  else if truthy skipped && limit_reached s1 then
    AutoEnd "topic_skip_limit" (currentTopicName (messages s))
      (Some (skippedCount (metrics s1)))
      (topicId (max_topic_skips (default [] (skipsPerTopic (metrics s1)))))
  else
    match gen with
    | None => ServerError
    | Some response =>
        if label_throws skipped response then ServerError else
        let s3 :=
          assessed (set_messages s1 (messages s1 ++ [user_message message skipped t0]))
            skipped t1 response in
        RespondOk (obj_get response "message") (obj_get response "currentTopic")
          (obj_get response "assessmentOfLastAnswer")
          (currentLevel (difficultyTracker s3))
          (levelNames (currentLevel (difficultyTracker s3)))
          (Some (metrics_at (turn_session s message skipped t0 t1 gen) t1))
    end.

(** [m.role === 'interviewer' && !m.isProbing], [m.role === 'user' &&
    m.skipped]: the messages the two counters of the metrics stand for. *)
Definition is_user (m : jsobj) : bool :=
  match obj_get m "role" with
  | JStr r => String.eqb r "user"
  | _ => false
  end.

Definition asks_a_question (m : jsobj) : bool :=
  is_interviewer m && negb (truthy (obj_get m "isProbing")).

Definition is_a_skip (m : jsobj) : bool :=
  is_user m && truthy (obj_get m "skipped").

Definition count_messages (p : jsobj → bool) (msgs : list jsobj) : Z :=
  Z.of_nat (length (List.filter p msgs)).

(** The session [/start] leaves in the registry, and the one [/end] ends. *)
Definition started_session (created : Session) (t1 : Z) (gen : option jsobj)
  : Session :=
  match gen with
  | None => created
  | Some response =>
      let s1 :=
        set_messages created
          (messages created ++
             [make_message "interviewer" (obj_get response "message") t1
                [("currentTopic", obj_get response "currentTopic")]]) in
      set_metrics s1
        {| questionCount := questionCount (metrics s1) + 1;
           skippedCount := skippedCount (metrics s1);
           skipsPerTopic := skipsPerTopic (metrics s1);
           duration := duration (metrics s1) |}
  end.

Definition end_summary (s : Session) (fields : jsobj) (t0 : Z) : Summary :=
  {| s_fields := fields;
     s_persona := persona s;
     s_targetRole := targetRole s;
     s_difficultyTracker := Some (difficultyTracker s);
     s_metrics := Some (metrics_at s t0) |}.

Definition ended_session (s : Session) (sm : Summary) (t1 : Z) : Session :=
  let ended := set_ended s t1 sm in
  match s_metrics sm with
  | Some m => set_metrics ended (metrics_of_summary m)
  | None => ended
  end.

(** A session that has been ended and stored. *)
Definition terminated (s : Session) : Prop :=
  is_Some (endTime s) ∧ is_Some (summary s).

(** Requests that start sessions only for roles whose level is a level of
    the data model, and requests whose write of [interviews.json] does not
    fail. *)
Definition starts_in_range (req : Request) : Prop :=
  match req with
  | ReqStart (GateOpen _ _ _ _ _ role) _ _ _ _ => in_range (initialLevel role)
  | _ => True
  end.

Definition write_succeeds (req : Request) : Prop :=
  match req with
  | ReqEnd _ _ _ _ write_ok => write_ok = true
  | _ => True
  end.

(** The invariant of the sessions the handlers build: nothing to resolve a
    topic from, no per-topic count, and two counters that mirror the
    transcript. *)
Definition mirrors_transcript (s : Session) : Prop :=
  built_by_handlers s
  ∧ questionCount (metrics s) = count_messages asks_a_question (messages s)
  ∧ skippedCount (metrics s) = count_messages is_a_skip (messages s).


(** The tracker of a session satisfies the data invariant. *)
Definition tracker_in_range (s : Session) : Prop :=
  level_in_range (difficultyTracker s) ∧ window_bounded (difficultyTracker s).

(** An answer that reports a difficulty level reports one of the four, with
    its name. *)
Definition reports_a_level (r : Response) : Prop :=
  match r with
  | StartOk _ _ _ _ _ level => in_range level
  | RespondOk _ _ _ level name _ =>
      (level = 1 ∧ name = "Junior") ∨ (level = 2 ∧ name = "Mid-Level")
      ∨ (level = 3 ∧ name = "Senior") ∨ (level = 4 ∧ name = "Lead")
  | _ => True
  end.

(** The session id a request names, when it names one. *)
Definition request_id (req : Request) : option string :=
  match req with
  | ReqStart (GateOpen _ _ _ _ _ _) sessionId _ _ _ => Some sessionId
  | ReqRespond (JStr sid) _ _ _ _ _ => Some sid
  | ReqEnd (JStr sid) _ _ _ _ => Some sid
  | _ => None
  end.

Definition is_refusal (r : Response) : bool :=
  match r with
  | Rejected _ | BadRequest | NotFound => true
  | _ => false
  end.

(** ** routes/interview.js: eligibility and the gate of [/start] *)

(** A topic of a course of [courses.json]: its id, a string, and its other
    properties. *)
Record Topic := {
  topic_id : string;
  topic_name : jsval;
  topic_more : jsobj
}.

(** The topic object itself, as it is handed to the session. *)
Definition topic_value (t : Topic) : jsval :=
  JObj (("id", JStr (topic_id t)) :: ("name", topic_name t) :: topic_more t).

Record Course := {
  course_name : jsval;
  course_topics : list Topic
}.

(** A row of [user_performance]: [topic_id TEXT], [score INTEGER]. *)
Record PerformanceRow := {
  row_topic : string;
  row_score : Z
}.

(** [parseInt(setting) || fallback]: [parsed] is the result of [parseInt],
    [None] for [NaN]. *)
Definition setting_or (parsed : option Z) (fallback : Z) : Z :=
  match parsed with
  | Some n => if n =? 0 then fallback else n
  | None => fallback
  end.

Record Settings := {
  interview_min_questions : option Z;
  interview_min_score : option Z;
  interview_daily_question_limit : option Z
}.

(** [Math.round(total / n)] for integers and [n > 0]: the quotient rounded
    to the nearest integer, halves upwards. *)
Definition round_div (total n : Z) : Z := (2 * total + n) / (2 * n).

(** [performance.reduce((sum, p) => sum + p.score, 0)]. *)
Definition total_score (performance : list PerformanceRow) : Z :=
  fold_left (fun sum p => sum + row_score p) performance 0.

(** The average both handlers compute: 0 without any row. *)
Definition average_score (performance : list PerformanceRow) : Z :=
  if (0 <? length performance)%nat
  then round_div (total_score performance) (Z.of_nat (length performance))
  else 0.

(** [topicCounts[t.id]] once every row has been counted: the rows of that
    topic id.  (Ids naming members of [Object.prototype] aside.) *)
Definition topic_count (performance : list PerformanceRow) (tid : string) : Z :=
  Z.of_nat (length (List.filter (fun p => String.eqb (row_topic p) tid) performance)).

Definition topic_admitted (minQuestionsPerTopic : Z)
    (performance : list PerformanceRow) (t : Topic) : bool :=
  (minQuestionsPerTopic =? 0)
  || (minQuestionsPerTopic <=? topic_count performance (topic_id t)).

(** [array.includes(id)] for a string id against JSON values, and against
    strings. *)
Definition includes_id (items : list jsval) (tid : string) : bool :=
  existsb (fun v => is_string v tid) items.

Definition includes_string (ids : list string) (v : jsval) : bool :=
  existsb (fun tid => is_string v tid) ids.

(** The part of [/start] that comes before the session is created.
    [course] is what [storage.getCourse] found, [today] what
    [getTodayQuestionCount] returned, [personaLookup] and [roleLookup] what
    [getPersona] and [getRole] return for the ids of the request.  A
    [selectedTopics] that is neither falsy, nor 'random', nor an array makes
    the handler throw, which it answers with 500. *)
Definition start_gate (courseId selectedTopics personaId roleId : jsval)
    (course : option Course) (settings : Settings) (today : Z)
    (performance : list PerformanceRow) (personaLookup : jsval)
    (roleLookup : option Role) : StartGate :=
  if negb (truthy courseId) then GateClosed 400
  else
    match course with
    | None => GateClosed 404
    | Some c =>
        let minQuestionsPerTopic := setting_or (interview_min_questions settings) 0 in
        let minScore := setting_or (interview_min_score settings) 0 in
        let dailyLimit := setting_or (interview_daily_question_limit settings) 50 in
        if dailyLimit <=? today then GateClosed 403
        else
          let eligibleTopicIds :=
            map topic_id
              (List.filter (topic_admitted minQuestionsPerTopic performance)
                 (course_topics c)) in
          if (length eligibleTopicIds =? 0)%nat then GateClosed 403
          else if (0 <? minScore) && (average_score performance <? minScore)
          then GateClosed 403
          else
            let open topics :=
              GateOpen courseId (course_name c) selectedTopics
                (JArr (map topic_value topics))
                (if truthy personaId then personaLookup else JNull)
                (if truthy roleId then roleLookup else None) in
            if is_string selectedTopics "random" || negb (truthy selectedTopics)
            then
              open (List.filter
                      (fun t => existsb (String.eqb (topic_id t)) eligibleTopicIds)
                      (course_topics c))
            else
              match selectedTopics with
              | JArr selected =>
                  let topics :=
                    List.filter
                      (fun t => includes_id selected (topic_id t)
                                && existsb (String.eqb (topic_id t)) eligibleTopicIds)
                      (course_topics c) in
                  let ineligibleSelected :=
                    List.filter
                      (fun v => negb (includes_string eligibleTopicIds v))
                      selected in
                  if (0 <? length ineligibleSelected)%nat
                     && (length topics =? 0)%nat
                  then GateClosed 403
                  else if (length topics =? 0)%nat then GateClosed 400
                  else open topics
              | _ => GateClosed 500
              end
    end.

(** [/eligibility/:courseId].  [topicProgress] is an object keyed by topic
    id: a topic whose id has been seen keeps the place of the first and
    takes the name of the last.  The entries are listed in insertion order
    (JavaScript lists keys that look like array indices first; nothing below
    depends on the order). *)
Fixpoint progress_set (entries : list (string * jsval)) (tid : string)
    (name : jsval) : list (string * jsval) :=
  match entries with
  | [] => [(tid, name)]
  | (k, v) :: rest =>
      if String.eqb k tid then (tid, name) :: rest
      else (k, v) :: progress_set rest tid name
  end.

Definition progress_keys (topics : list Topic) : list (string * jsval) :=
  fold_left (fun acc t => progress_set acc (topic_id t) (topic_name t)) topics [].

Record TopicProgress := {
  tp_id : string;
  tp_name : jsval;
  questionsAnswered : Z;
  totalScore : Z;
  tp_avgScore : Z;
  meetsRequirement : bool
}.

Definition topic_total (performance : list PerformanceRow) (tid : string) : Z :=
  total_score (List.filter (fun p => String.eqb (row_topic p) tid) performance).

Definition topic_progress (minQuestionsPerTopic : Z)
    (performance : list PerformanceRow) (entry : string * jsval) : TopicProgress :=
  let answered := topic_count performance (fst entry) in
  {| tp_id := fst entry;
     tp_name := snd entry;
     questionsAnswered := answered;
     totalScore := topic_total performance (fst entry);
     tp_avgScore :=
       if 0 <? answered
       then round_div (topic_total performance (fst entry)) answered
       else 0;
     meetsRequirement :=
       (minQuestionsPerTopic =? 0) || (minQuestionsPerTopic <=? answered) |}.

Record Eligibility := {
  eligible : bool;
  req_minQuestionsPerTopic : Z;
  req_minScore : Z;
  req_dailyLimit : Z;
  totalQuestions : Z;
  avgScore : Z;
  todayQuestionCount : Z;
  topicProgress : list TopicProgress;
  topicsEligible : list TopicProgress;
  topicsNotMeeting : list TopicProgress;
  meetsQuestionRequirement : bool;
  meetsScoreRequirement : bool;
  withinDailyLimit : bool;
  dailyLimitRemaining : Z
}.

(** [None] is the 404 for a course that is not found. *)
Definition eligibility (course : option Course) (settings : Settings)
    (today : Z) (performance : list PerformanceRow) : option Eligibility :=
  match course with
  | None => None
  | Some c =>
      let minQuestionsPerTopic := setting_or (interview_min_questions settings) 0 in
      let minScore := setting_or (interview_min_score settings) 0 in
      let dailyLimit := setting_or (interview_daily_question_limit settings) 50 in
      let progress :=
        map (topic_progress minQuestionsPerTopic performance)
          (progress_keys (course_topics c)) in
      let eligibleTopics := List.filter meetsRequirement progress in
      let notMeeting := List.filter (fun p => negb (meetsRequirement p)) progress in
      let hasEligibleTopics :=
        (minQuestionsPerTopic =? 0) || (0 <? length eligibleTopics)%nat in
      let overallAvgScore := average_score performance in
      let meetsScore := (minScore =? 0) || (minScore <=? overallAvgScore) in
      let within := today <? dailyLimit in
      Some {| eligible := hasEligibleTopics && meetsScore && within;
              req_minQuestionsPerTopic := minQuestionsPerTopic;
              req_minScore := minScore;
              req_dailyLimit := dailyLimit;
              totalQuestions := Z.of_nat (length performance);
              avgScore := overallAvgScore;
              todayQuestionCount := today;
              topicProgress := progress;
              topicsEligible := eligibleTopics;
              topicsNotMeeting := notMeeting;
              meetsQuestionRequirement := hasEligibleTopics;
              meetsScoreRequirement := meetsScore;
              withinDailyLimit := within;
              dailyLimitRemaining := Z.max 0 (dailyLimit - today) |}
  end.

(** ** services/storage.js: the courses *)

(** [a === b] on values that come from different parses or requests: the
    primitives compare by value, two objects or two arrays are never the
    same one. *)
Definition strict_equal (a b : jsval) : bool :=
  match a, b with
  | JUndefined, JUndefined => true
  | JNull, JNull => true
  | JBool x, JBool y => Bool.eqb x y
  | JNum x, JNum y => x =? y
  | JStr x, JStr y => String.eqb x y
  | _, _ => false
  end.

(** [delete o[k]]. *)
Fixpoint obj_delete (o : jsobj) (k : string) : jsobj :=
  match o with
  | [] => []
  | (k', v) :: o' =>
      if String.eqb k' k then obj_delete o' k else (k', v) :: obj_delete o' k
  end.

(** [name.toLowerCase().replace(/[^a-z0-9]+/g, '-')] on the bytes of the
    name: upper-case ASCII letters are lowered, and every maximal run of
    other characters becomes one dash.  (The two letters outside ASCII whose
    lower case is an ASCII letter, the Kelvin sign and the dotted capital I,
    are not treated apart.) *)
Definition lower_ascii (c : Ascii.ascii) : Ascii.ascii :=
  let n := Ascii.nat_of_ascii c in
  if (65 <=? n)%nat && (n <=? 90)%nat then Ascii.ascii_of_nat (n + 32) else c.

Definition is_slug_char (c : Ascii.ascii) : bool :=
  let n := Ascii.nat_of_ascii c in
  ((97 <=? n)%nat && (n <=? 122)%nat) || ((48 <=? n)%nat && (n <=? 57)%nat).

Definition dash : Ascii.ascii := Ascii.ascii_of_nat 45.

Fixpoint slug_from (in_run : bool) (s : string) : string :=
  match s with
  | EmptyString => EmptyString
  | String c rest =>
      let c' := lower_ascii c in
      if is_slug_char c' then String c' (slug_from false rest)
      else if in_run then slug_from true rest
      else String dash (slug_from true rest)
  end.

Definition slugify (name : string) : string := slug_from false name.

(** [courses.json]: the list [courses], or [None] when the file cannot be
    read, which makes every function below throw. *)
Definition has_id (courseId : jsval) (c : jsobj) : bool :=
  strict_equal (obj_get c "id") courseId.

Definition getCourse (file : option (list jsobj)) (courseId : jsval)
  : Outcome (option jsobj) :=
  match file with
  | None => Thrown
  | Some courses => Returned (List.find (has_id courseId) courses)
  end.

(** [courses.findIndex(c => c.id === courseId)], [None] for -1. *)
Fixpoint find_index (courseId : jsval) (courses : list jsobj) : option nat :=
  match courses with
  | [] => None
  | c :: rest =>
      if has_id courseId c then Some 0%nat
      else S <$> find_index courseId rest
  end.

(** [createCourse]: an id is generated from the name when none is given
    (which throws for a name that is not a string), a course with that id
    must not exist, and [topics] defaults to an empty array. *)
Definition createCourse (file : option (list jsobj)) (course : jsobj)
    (write_ok : bool) : option (list jsobj) * Outcome jsobj :=
  match file with
  | None => (file, Thrown)
  | Some courses =>
      let identified :=
        if truthy (obj_get course "id") then Some course
        else
          match obj_get course "name" with
          | JStr name => Some (obj_set course "id" (JStr (slugify name)))
          | _ => None
          end in
      match identified with
      | None => (file, Thrown)
      | Some course1 =>
          if existsb (has_id (obj_get course1 "id")) courses then (file, Thrown)
          else
            let course2 :=
              if truthy (obj_get course1 "topics") then course1
              else obj_set course1 "topics" (JArr []) in
            if write_ok then (Some (courses ++ [course2]), Returned course2)
            else (file, Thrown)
      end
  end.

(** [updateCourse]: the updates are spread over the course, their [id]
    removed first. *)
Definition updateCourse (file : option (list jsobj)) (courseId : jsval)
    (updates : jsobj) (write_ok : bool) : option (list jsobj) * Outcome jsobj :=
  match file with
  | None => (file, Thrown)
  | Some courses =>
      match find_index courseId courses with
      | None => (file, Thrown)
      | Some index =>
          let old := default ([] : jsobj) (courses !! index) in
          let updated := obj_spread old (obj_delete updates "id") in
          if write_ok then (Some (<[index := updated]> courses), Returned updated)
          else (file, Thrown)
      end
  end.

(** [deleteCourse]: [courses.splice(index, 1)]. *)
Definition deleteCourse (file : option (list jsobj)) (courseId : jsval)
    (write_ok : bool) : option (list jsobj) * Outcome jsobj :=
  match file with
  | None => (file, Thrown)
  | Some courses =>
      match find_index courseId courses with
      | None => (file, Thrown)
      | Some index =>
          let deleted := default ([] : jsobj) (courses !! index) in
          if write_ok then (Some (delete index courses), Returned deleted)
          else (file, Thrown)
      end
  end.

(** No two courses of the file have the same id. *)
Definition unique_ids (courses : list jsobj) : Prop :=
  ∀ (i j : nat) (ci cj : jsobj),
    i ≠ j → courses !! i = Some ci → courses !! j = Some cj →
    strict_equal (obj_get ci "id") (obj_get cj "id") = false.

Definition courses_of (file : option (list jsobj)) : list jsobj := default [] file.

(** The characters of a slug, and the absence of two dashes in a row. *)
Fixpoint all_chars (p : Ascii.ascii → bool) (s : string) : bool :=
  match s with
  | EmptyString => true
  | String c rest => p c && all_chars p rest
  end.

Fixpoint no_double_dash (s : string) : bool :=
  match s with
  | EmptyString => true
  | String c rest =>
      match rest with
      | String c' _ => negb (Ascii.eqb c dash && Ascii.eqb c' dash)
      | EmptyString => true
      end
      && no_double_dash rest
  end.
(** * Properties *)

(** ** Reading a session back after a write *)

Lemma lookup_written (reg : gmap string Session) (sid : string) (s : Session) :
  (<[sid := s]> reg) !! sid = Some s.
Proof. apply lookup_insert_eq. Qed.

Lemma difficultyTracker_set (s : Session) (t : DifficultyTracker) :
  difficultyTracker (set_difficultyTracker s t) = t.
Proof. reflexivity. Qed.

(** ** The window of recent assessments *)

Lemma push_assessment_length (recent : list string) (a : string) :
  (length recent ≤ 3)%nat → (length (push_assessment recent a) ≤ 3)%nat.
Proof.
  intros Hlen. unfold push_assessment.
  destruct recent as [|x1 [|x2 [|x3 [|x4 rest]]]]; simpl in *; lia.
Qed.

(** With at most three labels held, push-then-shift keeps the last three
    labels of the extended window. *)
Lemma push_assessment_fifo (recent : list string) (a : string) :
  (length recent ≤ 3)%nat →
  push_assessment recent a =
    drop (length (recent ++ [a]) - 3) (recent ++ [a]).
Proof.
  intros Hlen. unfold push_assessment.
  destruct recent as [|x1 [|x2 [|x3 [|x4 rest]]]]; simpl in *;
    try reflexivity; lia.
Qed.

(** The three counted labels are distinct, so their counts share the window. *)
Lemma counts_share_window (recent : list string) :
  (count_label "excellent" recent + count_label "brief" recent
   + count_label "partial" recent ≤ length recent)%nat.
Proof.
  unfold count_label.
  induction recent as [|a recent IH]; simpl; [lia|].
  rewrite !filter_cons.
  repeat case_decide; subst; simpl; try discriminate; lia.
Qed.

Lemma count_label_le_length (label : string) (recent : list string) :
  (count_label label recent ≤ length recent)%nat.
Proof. unfold count_label. apply length_filter. Qed.

(** ** One assessment *)

(** A level that is not a number is never adjusted: both comparisons
    fail. *)
Lemma checkDifficultyAdjustment_inherited (t : DifficultyTracker) (member : string) :
  currentLevel t = Inherited member → checkDifficultyAdjustment t = NoAdjust.
Proof.
  intros Hlevel. unfold checkDifficultyAdjustment. rewrite Hlevel. simpl.
  destruct (_ <? _)%nat; [reflexivity|].
  rewrite !andb_false_r. reflexivity.
Qed.

(** The code's nested tests, read as the two conditions of the rule, at a
    level that is a number. *)
Lemma checkDifficultyAdjustment_rule (t : DifficultyTracker) (level : Z) :
  currentLevel t = Numeric level →
  checkDifficultyAdjustment t =
    if bool_decide (increase_condition (recentAssessments t) ∧ level < 4)
    then Adjust 1 reason_increase
    else if bool_decide (decrease_condition (recentAssessments t) ∧ 1 < level)
    then Adjust (-1) reason_decrease
    else NoAdjust.
Proof.
  intros Hlevel.
  unfold checkDifficultyAdjustment, increase_condition, decrease_condition.
  rewrite Hlevel. unfold level_below, level_above.
  pose proof (counts_share_window (recentAssessments t)) as Hshare.
  destruct (Nat.ltb_spec (length (recentAssessments t)) 2);
    destruct (Nat.leb_spec 2 (count_label "excellent" (recentAssessments t)));
    destruct (Nat.leb_spec 2 (count_label "brief" (recentAssessments t)));
    destruct (Nat.leb_spec 2 (count_label "brief" (recentAssessments t)
                              + count_label "partial" (recentAssessments t)));
    destruct (Z.ltb_spec level 4);
    destruct (Z.ltb_spec 1 level);
    simpl; repeat case_bool_decide; first [reflexivity | exfalso; lia].
Qed.

Lemma checkDifficultyAdjustment_cases (t : DifficultyTracker) :
  checkDifficultyAdjustment t = NoAdjust
  ∨ (checkDifficultyAdjustment t = Adjust 1 reason_increase
     ∧ ∃ level, currentLevel t = Numeric level ∧ level < 4)
  ∨ (checkDifficultyAdjustment t = Adjust (-1) reason_decrease
     ∧ ∃ level, currentLevel t = Numeric level ∧ 1 < level).
Proof.
  destruct (currentLevel t) as [level|member] eqn:Hlevel;
    [|left; by apply (checkDifficultyAdjustment_inherited t member)].
  rewrite (checkDifficultyAdjustment_rule t level Hlevel).
  case_bool_decide as Hup.
  { right; left. split; [done|]. exists level. split; [done|]. apply Hup. }
  case_bool_decide as Hdown; [|by left].
  right; right. split; [done|]. exists level. split; [done|]. apply Hdown.
Qed.

(** The tracker after a valid label, by the level it had: a level that is
    not a number stays, with the label pushed. *)
Lemma record_assessment_inherited (t : DifficultyTracker) (a : string) (now : Z)
    (member : string) :
  currentLevel t = Inherited member →
  record_assessment t a now
  = {| currentLevel := Inherited member;
       recentAssessments := push_assessment (recentAssessments t) a;
       adjustmentHistory := adjustmentHistory t |}.
Proof.
  intros Hlevel. unfold record_assessment. cbn [currentLevel]. rewrite Hlevel.
  by destruct (checkDifficultyAdjustment _).
Qed.

Lemma record_assessment_numeric (t : DifficultyTracker) (a : string) (now : Z)
    (level : Z) :
  currentLevel t = Numeric level →
  record_assessment t a now
  = let pushed :=
      {| currentLevel := Numeric level;
         recentAssessments := push_assessment (recentAssessments t) a;
         adjustmentHistory := adjustmentHistory t |} in
    match checkDifficultyAdjustment pushed with
    | NoAdjust => pushed
    | Adjust direction why =>
        {| currentLevel := Numeric (Z.max 1 (Z.min 4 (level + direction)));
           recentAssessments := [];
           adjustmentHistory :=
             adjustmentHistory t ++
               [ {| timestamp := now; fromLevel := level;
                    toLevel := Z.max 1 (Z.min 4 (level + direction));
                    reason := why |} ] |}
    end.
Proof.
  intros Hlevel. unfold record_assessment. cbn [currentLevel]. rewrite Hlevel.
  reflexivity.
Qed.

Lemma record_assessment_preserves (t : DifficultyTracker) (a : string) (now : Z) :
  level_in_range t → window_bounded t →
  level_in_range (record_assessment t a now)
  ∧ window_bounded (record_assessment t a now).
Proof.
  unfold level_in_range, window_bounded. intros Hlvl Hwin.
  destruct (currentLevel t) as [level|member] eqn:Hlevel; [|done].
  rewrite (record_assessment_numeric t a now level Hlevel). cbv zeta.
  set (pushed := {| currentLevel := Numeric level;
                    recentAssessments := push_assessment (recentAssessments t) a;
                    adjustmentHistory := adjustmentHistory t |}).
  simpl in Hlvl.
  destruct (checkDifficultyAdjustment_cases pushed) as [-> | [[-> Hc] | [-> Hc]]];
    simpl in *.
  - split; [lia|]. by apply push_assessment_length.
  - split; lia.
  - split; lia.
Qed.

(** Whenever the history has changed, the window has been emptied. *)
Lemma record_assessment_clears (t : DifficultyTracker) (a : string) (now : Z) :
  adjustmentHistory (record_assessment t a now) ≠ adjustmentHistory t →
  recentAssessments (record_assessment t a now) = [].
Proof.
  unfold record_assessment.
  destruct (checkDifficultyAdjustment _); simpl; [done|].
  destruct (currentLevel t); simpl; done.
Qed.


(** ** Sequences of assessments *)

Lemma updateDifficultyAssessment_valid (reg : gmap string Session) (sid : string)
    (s : Session) (a : string) (now : Z) :
  reg !! sid = Some s → a ∈ validAssessments →
  updateDifficultyAssessment reg sid (JStr a) now =
    (<[sid := set_difficultyTracker s (record_assessment (difficultyTracker s) a now)]> reg,
     Returned
       (Some (set_difficultyTracker s (record_assessment (difficultyTracker s) a now)))).
Proof.
  intros Hs Ha. unfold updateDifficultyAssessment, valid_assessment.
  rewrite Hs. by rewrite bool_decide_eq_true_2.
Qed.

Lemma updateDifficultyAssessment_registry (reg : gmap string Session)
    (sid : string) (s : Session) (assessment : jsval) (now : Z) :
  reg !! sid = Some s →
  fst (updateDifficultyAssessment reg sid assessment now)
  = match valid_assessment assessment with
    | Some a =>
        <[sid := set_difficultyTracker s
                   (record_assessment (difficultyTracker s) a now)]> reg
    | None => reg
    end.
Proof.
  intros Hs. unfold updateDifficultyAssessment. rewrite Hs.
  destruct (valid_assessment assessment); [reflexivity|].
  by destruct (js_to_string assessment).
Qed.

Lemma consume_all_snoc (reg : gmap string Session) (sid : string)
    (calls : list (string * Z)) (a : string) (now : Z) :
  consume_all reg sid (calls ++ [(a, now)]) =
    fst (updateDifficultyAssessment (consume_all reg sid calls) sid (JStr a) now).
Proof. unfold consume_all. by rewrite fold_left_app. Qed.

Lemma consume_all_invariant (calls : list (string * Z)) :
  ∀ (reg : gmap string Session) (sid : string) (s : Session),
    reg !! sid = Some s →
    level_in_range (difficultyTracker s) →
    window_bounded (difficultyTracker s) →
    ∃ s', consume_all reg sid calls !! sid = Some s'
          ∧ level_in_range (difficultyTracker s')
          ∧ window_bounded (difficultyTracker s').
Proof.
  induction calls as [|[a now] calls IH]; intros reg sid s Hs Hlvl Hwin.
  - exists s. by simpl.
  - change (consume_all reg sid ((a, now) :: calls))
      with (consume_all (fst (updateDifficultyAssessment reg sid (JStr a) now))
              sid calls).
    unfold updateDifficultyAssessment. rewrite Hs.
    destruct (valid_assessment (JStr a)) as [a'|]; simpl.
    + destruct (record_assessment_preserves (difficultyTracker s) a' now Hlvl Hwin)
        as [Hlvl' Hwin'].
      eapply IH; [apply lookup_insert_eq | exact Hlvl' | exact Hwin'].
    + by eapply IH.
Qed.

(** C1. Difficulty-tracker invariant: for a session whose tracker starts
    with a level in 1..4 and an empty window, after any number [n] of the
    calls of any sequence of [updateDifficultyAssessment] calls with valid
    labels, the level is in 1..4 and the window holds at most 3 labels; and
    when the next call of the sequence performs an adjustment (it changes
    the adjustment history), the window is empty right after it. *)
Theorem difficulty_tracker_invariant (reg : gmap string Session) (sid : string)
    (s : Session) (calls : list (string * Z)) :
  reg !! sid = Some s →
  in_range (currentLevel (difficultyTracker s)) →
  recentAssessments (difficultyTracker s) = [] →
  Forall (fun call => fst call ∈ validAssessments) calls →
  ∀ n : nat,
    ∃ sn, consume_all reg sid (take n calls) !! sid = Some sn
      ∧ in_range (currentLevel (difficultyTracker sn))
      ∧ (length (recentAssessments (difficultyTracker sn)) ≤ 3)%nat
      ∧ ∀ a now, calls !! n = Some (a, now) →
          ∃ sn', consume_all reg sid (take (S n) calls) !! sid = Some sn'
            ∧ (adjustmentHistory (difficultyTracker sn')
                 ≠ adjustmentHistory (difficultyTracker sn) →
               recentAssessments (difficultyTracker sn') = []).
Proof.
  intros Hs Hlvl Hempty Hvalid n.
  assert (window_bounded (difficultyTracker s)) as Hwin.
  { unfold window_bounded. rewrite Hempty. simpl. lia. }
  destruct (consume_all_invariant (take n calls) reg sid s Hs Hlvl Hwin)
    as (sn & Hsn & Hlvln & Hwinn).
  exists sn. repeat split; try apply Hlvln; try exact Hsn; try exact Hwinn.
  intros a now Hcall.
  rewrite (take_S_r _ _ _ Hcall), consume_all_snoc.
  assert (a ∈ validAssessments) as Ha.
  { rewrite Forall_lookup in Hvalid. exact (Hvalid n (a, now) Hcall). }
  rewrite (updateDifficultyAssessment_valid _ _ sn a now Hsn Ha). simpl.
  eexists. split; [apply lookup_insert_eq|].
  simpl. apply record_assessment_clears.
Qed.

Lemma difficulty_tracker_invariant_witness :
  let reg : gmap string Session := {[ "s1" := fresh_session "s1" 3 ]} in
  let calls := [("excellent", 10); ("excellent", 20); ("brief", 30)] in
  ∃ sn, consume_all reg "s1" (take 1 calls) !! "s1" = Some sn
    ∧ in_range (currentLevel (difficultyTracker sn))
    ∧ (length (recentAssessments (difficultyTracker sn)) ≤ 3)%nat
    ∧ ∀ a now, calls !! 1%nat = Some (a, now) →
        ∃ sn', consume_all reg "s1" (take 2 calls) !! "s1" = Some sn'
          ∧ (adjustmentHistory (difficultyTracker sn')
               ≠ adjustmentHistory (difficultyTracker sn) →
             recentAssessments (difficultyTracker sn') = []).
Proof.
  intros reg calls.
  apply (difficulty_tracker_invariant reg "s1" (fresh_session "s1" 3) calls).
  - reflexivity.
  - simpl. lia.
  - reflexivity.
  - repeat constructor; simpl; apply (bool_decide_unpack _); exact I.
Defined.

(** ** A label that is not one of the four *)

(** A label outside the four never reaches the tracker: the registry is the
    one before the call.  The call returns the session as it was when the
    label can be converted to a string for the warning, and throws when it
    cannot. *)
Lemma invalid_label_outcome (reg : gmap string Session) (sid : string)
    (s : Session) (assessment : jsval) (now : Z) :
  reg !! sid = Some s →
  valid_assessment assessment = None →
  updateDifficultyAssessment reg sid assessment now
  = (reg, match js_to_string assessment with
          | Some _ => Returned (Some s)
          | None => Thrown
          end).
Proof.
  intros Hs Hout. unfold updateDifficultyAssessment. rewrite Hs, Hout.
  by destruct (js_to_string assessment).
Qed.

Lemma invalid_label_keeps_the_registry (reg : gmap string Session) (sid : string)
    (assessment : jsval) (now : Z) :
  valid_assessment assessment = None →
  fst (updateDifficultyAssessment reg sid assessment now) = reg.
Proof.
  intros Hout. unfold updateDifficultyAssessment.
  destruct (reg !! sid); [|reflexivity]. rewrite Hout.
  by destruct (js_to_string assessment).
Qed.

(** C6. Invalid-label leniency, where the code departs from it.  The label
    [{"toString": 1}] is none of the four, and for it
    [updateDifficultyAssessment] throws instead of returning: the registry
    and with it level, window and history are untouched, but the error
    reaches [/respond], which answers with the generic failure and drops the
    interviewer's question it had received, the user's message being already
    in the transcript.  A label that can be converted, such as "outstanding"
    or the number 7, is ignored as the claim says. *)
Theorem unprintable_label_throws :
  let reg : gmap string Session := {[ "s1" := fresh_session "s1" 2 ]} in
  let reply := [("message", JStr "Next question."); ("isProbing", JBool false);
                ("assessmentOfLastAnswer", unprintable_label)] in
  valid_assessment unprintable_label = None
  ∧ updateDifficultyAssessment reg "s1" unprintable_label 5 = (reg, Thrown)
  ∧ updateDifficultyAssessment reg "s1" (JStr "outstanding") 5
    = (reg, Returned (reg !! "s1"))
  ∧ updateDifficultyAssessment reg "s1" (JNum 7) 5 = (reg, Returned (reg !! "s1"))
  ∧ snd (respond started_registry (JStr "s1") (JStr "A closure captures variables.")
           (JBool false) 10 20 (Some reply)) = ServerError
  ∧ messages <$>
      fst (respond started_registry (JStr "s1")
             (JStr "A closure captures variables.") (JBool false) 10 20 (Some reply))
        !! "s1"
    = Some [make_message "interviewer" (JStr "Tell me about closures.") 1
              [("currentTopic",
                JObj [("id", JStr "closures"); ("name", JStr "Closures")])];
            user_message (JStr "A closure captures variables.") (JBool false) 10].
Proof. repeat split; vm_compute; reflexivity. Qed.

(** ** The adjustment rule *)

Lemma record_assessment_reference (t : DifficultyTracker) (a : string) (now : Z)
    (level : Z) :
  currentLevel t = Numeric level →
  window_bounded t →
  record_assessment t a now = reference_rule level t a now.
Proof.
  intros Hlevel Hwin.
  rewrite (record_assessment_numeric t a now level Hlevel).
  unfold reference_rule, fifo3. cbv zeta.
  erewrite checkDifficultyAdjustment_rule by reflexivity.
  rewrite <- (push_assessment_fifo _ a Hwin). simpl.
  set (w := push_assessment (recentAssessments t) a).
  pose proof (counts_share_window w) as Hshare.
  unfold reference_adjusted, clamp.
  repeat case_bool_decide; try reflexivity;
    exfalso; unfold increase_condition, decrease_condition in *; lia.
Qed.

(** C2. The adjustment algorithm is the reference rule.  For a session of
    the registry whose tracker satisfies the data invariant (level in 1..4,
    at most 3 labels held) and a valid label: the call writes back a tracker
    that is the one of the reference rule of the specification; its window
    is computed from the old window extended by the label, cut to its last 3
    entries; under 2 labels nothing is adjusted; the level goes up by 1
    exactly when that window has 2 or more excellent and the level was under
    4; it goes down by 1 exactly when (brief >= 2 or brief + partial >= 2),
    the level was above 1 and the increase did not fire; a changed level
    comes with exactly one new history record (timestamp, fromLevel, toLevel,
    reason) and an emptied window; an unchanged level comes with the window
    retained and the history unchanged. *)
Theorem adjustment_is_reference_rule (reg : gmap string Session) (sid : string)
    (s : Session) (a : string) (now : Z) (level : Z) :
  reg !! sid = Some s →
  a ∈ validAssessments →
  currentLevel (difficultyTracker s) = Numeric level →
  1 ≤ level ≤ 4 →
  (length (recentAssessments (difficultyTracker s)) ≤ 3)%nat →
  let t := difficultyTracker s in
  let w := fifo3 (recentAssessments t) a in
  ∃ s' level',
    updateDifficultyAssessment reg sid (JStr a) now
      = (<[sid := s']> reg, Returned (Some s'))
    ∧ s' = set_difficultyTracker s (difficultyTracker s')
    ∧ let t' := difficultyTracker s' in
      t' = reference_rule level t a now
      ∧ currentLevel t' = Numeric level'
      ∧ ((length w < 2)%nat →
           level' = level
           ∧ adjustmentHistory t' = adjustmentHistory t)
      ∧ (level' = level + 1 ↔
           increase_condition w ∧ level < 4)
      ∧ (level' = level - 1 ↔
           decrease_condition w ∧ 1 < level
           ∧ ¬ (increase_condition w ∧ level < 4))
      ∧ (level' ≠ level →
           (∃ why,
              adjustmentHistory t' =
                adjustmentHistory t ++
                  [ {| timestamp := now; fromLevel := level;
                       toLevel := level'; reason := why |} ])
           ∧ recentAssessments t' = [])
      ∧ (level' = level →
           recentAssessments t' = w
           ∧ adjustmentHistory t' = adjustmentHistory t).
Proof.
  intros Hs Ha Hlevel Hlvl Hwin t w. fold t in Hlevel, Hwin.
  assert (∃ level', currentLevel (reference_rule level t a now) = Numeric level')
    as [level' Hlevel'].
  { unfold reference_rule, reference_adjusted.
    repeat case_bool_decide; simpl; eexists; reflexivity. }
  exists (set_difficultyTracker s (record_assessment t a now)), level'.
  split; [by apply updateDifficultyAssessment_valid|].
  split; [reflexivity|].
  rewrite difficultyTracker_set. cbv zeta.
  rewrite (record_assessment_reference t a now level Hlevel Hwin).
  split; [reflexivity|].
  split; [exact Hlevel'|].
  revert Hlevel'. unfold reference_rule. fold w.
  pose proof (counts_share_window w) as Hshare.
  unfold reference_adjusted, clamp, increase_condition, decrease_condition in *.
  repeat case_bool_decide; simpl; intros [= <-];
    repeat split; intros; try reflexivity; try lia; try (exfalso; lia);
    try (eexists; reflexivity).
Qed.

Lemma adjustment_is_reference_rule_witness :
  let s := set_difficultyTracker (fresh_session "s1" 1)
             {| currentLevel := 1; recentAssessments := ["excellent"];
                adjustmentHistory := [] |} in
  let reg : gmap string Session := {[ "s1" := s ]} in
  ∃ s',
    updateDifficultyAssessment reg "s1" (JStr "excellent") 7
      = (<["s1" := s']> reg, Returned (Some s'))
    ∧ currentLevel (difficultyTracker s') = 2
    ∧ recentAssessments (difficultyTracker s') = []
    ∧ length (adjustmentHistory (difficultyTracker s')) = 1%nat.
Proof.
  intros s reg.
  destruct (adjustment_is_reference_rule reg "s1" s "excellent" 7 1)
    as (s' & level' & Hcall & _ & Href & _).
  - reflexivity.
  - apply (bool_decide_unpack _); exact I.
  - reflexivity.
  - lia.
  - simpl. lia.
  - exists s'. split; [exact Hcall|]. rewrite Href. by vm_compute.
Defined.

(** ** Increase before decrease *)

(** C9, as stated, fails: a window of at most 3 labels cannot hold 2
    excellent together with 2 labels among brief and partial, so no window
    the tracker can hold meets the increase and the decrease condition at
    once. *)
Lemma no_tie_in_a_window_of_three :
  ¬ ∃ w : list string,
      (length w ≤ 3)%nat ∧ increase_condition w ∧ decrease_condition w.
Proof.
  intros (w & Hlen & Hinc & Hdec).
  pose proof (counts_share_window w) as Hshare.
  unfold increase_condition, decrease_condition in *. lia.
Qed.

(** C9, amended. No window of at most 3 labels meets both conditions, so
    the tie cannot arise for a tracker; the order of the tests in
    [checkDifficultyAdjustment] is nevertheless increase first: for any
    window, of any length, in which both conditions hold with a level
    under 4, the result is the increase. *)
Theorem increase_is_tested_first :
  (∀ w : list string,
     (length w ≤ 3)%nat → ¬ (increase_condition w ∧ decrease_condition w))
  ∧ (∀ (t : DifficultyTracker) (level : Z),
       currentLevel t = Numeric level →
       increase_condition (recentAssessments t) →
       decrease_condition (recentAssessments t) →
       level < 4 →
       checkDifficultyAdjustment t = Adjust 1 reason_increase).
Proof.
  split.
  - intros w Hlen [Hinc Hdec].
    pose proof (counts_share_window w) as Hshare.
    unfold increase_condition, decrease_condition in *. lia.
  - intros t level Hlevel Hinc _ Hlvl.
    rewrite (checkDifficultyAdjustment_rule t level Hlevel).
    by rewrite bool_decide_eq_true_2.
Qed.

Lemma increase_is_tested_first_witness :
  let t := {| currentLevel := 2;
              recentAssessments := ["excellent"; "brief"; "excellent"; "brief"];
              adjustmentHistory := [] |} in
  increase_condition (recentAssessments t)
  ∧ decrease_condition (recentAssessments t)
  ∧ checkDifficultyAdjustment t = Adjust 1 reason_increase.
Proof.
  intros t.
  assert (increase_condition (recentAssessments t)) as Hinc.
  { unfold increase_condition. vm_compute. lia. }
  assert (decrease_condition (recentAssessments t)) as Hdec.
  { left. vm_compute. lia. }
  split; [exact Hinc|]. split; [exact Hdec|].
  apply (proj2 increase_is_tested_first t 2 eq_refl Hinc Hdec). lia.
Defined.

(** ** The initial level *)

Lemma levelMap_reference (b : string) :
  b ∉ object_prototype_members →
  default (Numeric 2) (levelMap b) = Numeric (reference_levelMap b).
Proof.
  intros Hown. unfold levelMap, reference_levelMap.
  destruct (String.eqb_spec b "junior") as [->|]; [reflexivity|].
  rewrite (bool_decide_eq_false_2 (b = "junior")) by done.
  destruct (String.eqb_spec b "mid") as [->|]; [reflexivity|].
  rewrite (bool_decide_eq_false_2 (b = "mid")) by done.
  destruct (String.eqb_spec b "senior") as [->|]; [reflexivity|].
  rewrite (bool_decide_eq_false_2 (b = "senior")) by done.
  destruct (String.eqb_spec b "lead") as [->|]; [reflexivity|].
  rewrite (bool_decide_eq_false_2 (b = "lead")) by done.
  by rewrite (bool_decide_eq_false_2 _ Hown).
Qed.

(** The derivation of the specification, for the roles it describes: a
    level that is not 0 (which the code's truthiness test reads as a missing
    level) and a [baseLevel] that names no member of [Object.prototype]. *)
Lemma initialLevel_reference (role : option Role) :
  (∀ r, role = Some r → role_level r ≠ Some 0) →
  (∀ r b, role = Some r → role_baseLevel r = Some b →
     b ∉ object_prototype_members) →
  initialLevel role = Numeric (reference_initialLevel role).
Proof.
  intros Hnonzero Hown. destruct role as [r|]; [|reflexivity].
  specialize (Hnonzero r eq_refl). specialize (Hown r).
  unfold initialLevel, reference_initialLevel, level_given, baseLevel_given.
  destruct (role_level r) as [n|].
  - destruct (Z.eqb_spec n 0) as [->|]; [done | reflexivity].
  - destruct (role_baseLevel r) as [b|]; [|reflexivity].
    destruct (String.eqb_spec b "") as [->|]; [reflexivity|].
    apply levelMap_reference. by apply Hown.
Qed.

Lemma start_reports_the_initial_level (reg : gmap string Session) (sid : string)
    (t0 t1 : Z) (course name selected topicList personaFound : jsval)
    (role : option Role) (response : jsobj) :
  let created :=
    createInterviewSession reg sid t0 course name selected topicList
      personaFound role in
  fst created !! sid = Some (snd created)
  ∧ currentLevel (difficultyTracker (snd created)) = initialLevel role
  ∧ recentAssessments (difficultyTracker (snd created)) = []
  ∧ adjustmentHistory (difficultyTracker (snd created)) = []
  ∧ ∃ message topic,
      snd (start reg (GateOpen course name selected topicList personaFound role)
             sid t0 t1 (Some response))
      = StartOk sid message topic (persona (snd created))
          (targetRole (snd created)) (initialLevel role).
Proof.
  intros created.
  split; [apply lookup_insert_eq|].
  split; [reflexivity|].
  split; [reflexivity|]. split; [reflexivity|].
  eexists _, _. unfold start. simpl.
  unfold getDifficultyContext. rewrite lookup_insert_eq. simpl.
  reflexivity.
Qed.

(** C8. Initial difficulty derivation, where the code departs from it.  For
    a role without a numeric level whose [baseLevel] is "constructor", a
    string that is none of junior, mid, senior and lead, the specification
    gives the level 2.  [levelMap[role.baseLevel]] finds the member
    [constructor] that the object literal inherits, which is truthy, so the
    tracker of the created session starts from that function and not from
    2; so does the level of the role snapshot, and the [difficultyLevel] of
    the Start response is that value.  Two excellent answers then leave it
    as it is, where a tracker at level 2 goes to 3.  For the four keys, and
    for another string such as "principal", the level is the one of the
    specification, and [difficultyLevel] reports it. *)
Theorem inherited_base_level :
  let start_with role :=
    start ∅ (GateOpen (JStr "c1") (JStr "Course") (JStr "random") (JArr [])
               JUndefined (Some role))
      "s1" 0 1 (Some opening) in
  let level_of role :=
    currentLevel <$> (difficultyTracker <$> fst (start_with role) !! "s1") in
  let reported role :=
    match snd (start_with role) with
    | StartOk _ _ _ _ _ level => Some level
    | _ => None
    end in
  let role := role_of_baseLevel "constructor" in
  reference_initialLevel (Some role) = 2
  ∧ initialLevel (Some role) = Inherited "constructor"
  ∧ level_of role = Some (Inherited "constructor")
  ∧ level_of role ≠ Some (Numeric 2)
  ∧ (tr_level <$> (fst (start_with role) !! "s1" ≫= targetRole))
    = Some (Inherited "constructor")
  ∧ reported role = Some (Inherited "constructor")
  ∧ (currentLevel <$>
       (difficultyTracker <$>
          consume_all (fst (start_with role)) "s1"
            [("excellent", 10); ("excellent", 20)] !! "s1"))
    = Some (Inherited "constructor")
  ∧ (currentLevel <$>
       (difficultyTracker <$>
          consume_all (fst (start_with (role_of_level 2))) "s1"
            [("excellent", 10); ("excellent", 20)] !! "s1"))
    = Some (Numeric 3)
  ∧ (level_of (role_of_baseLevel "junior") = Some (Numeric 1)
     ∧ level_of (role_of_baseLevel "mid") = Some (Numeric 2)
     ∧ level_of (role_of_baseLevel "senior") = Some (Numeric 3)
     ∧ level_of (role_of_baseLevel "lead") = Some (Numeric 4)
     ∧ level_of (role_of_baseLevel "principal") = Some (Numeric 2)
     ∧ level_of (role_of_level 3) = Some (Numeric 3)
     ∧ reported (role_of_level 3) = Some (Numeric 3)).
Proof. repeat split; try (vm_compute; reflexivity). intros [=]. Qed.

(** ** The end of a session *)

Lemma endInterviewSession_present (reg : gmap string Session)
    (file : option (list Session)) (sid : string) (s : Session) (sm : Summary)
    (now : Z) :
  reg !! sid = Some s →
  ∃ ended,
    endInterviewSession reg file sid sm now true
      = (delete sid reg, Some (take 50 (ended :: getInterviews file)),
         Returned (Some ended))
    ∧ id ended = id s
    ∧ endTime ended = Some now
    ∧ summary ended = Some sm
    ∧ messages ended = messages s.
Proof.
  intros Hs. unfold endInterviewSession. rewrite Hs.
  destruct (s_metrics sm); eexists; (split; [reflexivity|]); by simpl.
Qed.

Lemma end_interview_unknown (reg : gmap string Session)
    (file : option (list Session)) (sid : string) (t0 t1 : Z)
    (gen : option jsobj) (write_ok : bool) :
  reg !! sid = None → sid ≠ "" →
  end_interview reg file (JStr sid) t0 t1 gen write_ok = (reg, file, NotFound).
Proof.
  intros Hs Hsid. unfold end_interview, getActiveSession. simpl.
  destruct (String.eqb_spec sid ""); [done|]. simpl. by rewrite Hs.
Qed.

(** C7. End twice: a first End on the id of an active session, whose
    summary is generated and whose write succeeds, removes that session and
    no other from the registry, stores it with its [endTime] and [summary]
    set, and answers with the summary; whatever happens around it, a second
    End on the same id answers not-found and changes neither the registry
    nor the store; [endInterviewSession] itself then returns null. *)
Theorem end_twice_is_not_found (reg : gmap string Session)
    (file : option (list Session)) (sid : string) (s : Session) (t0 t1 : Z)
    (fields : jsobj) :
  reg !! sid = Some s → sid ≠ "" →
  ∃ sm ended file1,
    end_interview reg file (JStr sid) t0 t1 (Some fields) true
      = (delete sid reg, Some file1, EndOk sm)
    ∧ file1 = take 50 (ended :: getInterviews file)
    ∧ id ended = id s ∧ endTime ended = Some t1 ∧ summary ended = Some sm
    ∧ delete sid reg !! sid = None
    ∧ (∀ other, other ≠ sid → delete sid reg !! other = reg !! other)
    ∧ (∀ t0' t1' gen' write_ok',
         end_interview (delete sid reg) (Some file1) (JStr sid) t0' t1' gen' write_ok'
           = (delete sid reg, Some file1, NotFound))
    ∧ (∀ sm' now' write_ok',
         endInterviewSession (delete sid reg) (Some file1) sid sm' now' write_ok'
           = (delete sid reg, Some file1, Returned None)).
Proof.
  intros Hs Hsid.
  set (sm := {| s_fields := fields; s_persona := persona s;
                s_targetRole := targetRole s;
                s_difficultyTracker := Some (difficultyTracker s);
                s_metrics := getSessionMetrics reg sid t0 |}).
  destruct (endInterviewSession_present reg file sid s sm t1 Hs)
    as (ended & Hend & Hid & Htime & Hsum & _).
  exists sm, ended, (take 50 (ended :: getInterviews file)).
  split.
  { unfold end_interview, getActiveSession. simpl.
    destruct (String.eqb_spec sid ""); [done|]. simpl. rewrite Hs.
    fold sm. by rewrite Hend. }
  split; [reflexivity|].
  repeat (split; [assumption|]).
  split; [apply lookup_delete_eq|].
  split; [intros other Hne; by apply lookup_delete_ne|].
  split.
  - intros. apply end_interview_unknown; [apply lookup_delete_eq | exact Hsid].
  - intros. unfold endInterviewSession. by rewrite lookup_delete_eq.
Qed.

Lemma end_twice_is_not_found_witness :
  let reg : gmap string Session := {[ "s1" := fresh_session "s1" 2 ]} in
  ∃ sm file1,
    end_interview reg None (JStr "s1") 5 6 (Some [("score", JNum 70)]) true
      = (delete "s1" reg, Some file1, EndOk sm)
    ∧ end_interview (delete "s1" reg) (Some file1) (JStr "s1") 7 8
        (Some [("score", JNum 70)]) true
      = (delete "s1" reg, Some file1, NotFound).
Proof.
  intros reg.
  destruct (end_twice_is_not_found reg None "s1" (fresh_session "s1" 2) 5 6
              [("score", JNum 70)])
    as (sm & ended & file1 & Hfirst & _ & _ & _ & _ & _ & _ & Hsecond & _).
  - reflexivity.
  - discriminate.
  - exists sm, file1. split; [exact Hfirst | apply Hsecond].
Defined.

(** C10. Truncation of the durable store: when [endInterviewSession] ends a
    session and the write succeeds, the persisted list is the ended session
    followed by the 49 first sessions of the previous list; it has at most
    50 entries, the ended session is its head, the previous sessions keep
    their order one place further down, and those that were at place 49 or
    beyond (counting from 0) are gone. *)
Theorem persisted_store_keeps_fifty (reg : gmap string Session)
    (file : option (list Session)) (sid : string) (s : Session) (sm : Summary)
    (now : Z) :
  reg !! sid = Some s →
  ∃ ended stored,
    endInterviewSession reg file sid sm now true
      = (delete sid reg, Some stored, Returned (Some ended))
    ∧ id ended = id s ∧ endTime ended = Some now ∧ summary ended = Some sm
    ∧ stored = ended :: take 49 (getInterviews file)
    ∧ (length stored ≤ 50)%nat
    ∧ head stored = Some ended
    ∧ (∀ i : nat, (i < 49)%nat → stored !! S i = getInterviews file !! i)
    ∧ (∀ i : nat, (49 ≤ i)%nat → stored !! S i = None).
Proof.
  intros Hs.
  destruct (endInterviewSession_present reg file sid s sm now Hs)
    as (ended & Hend & Hid & Htime & Hsum & _).
  exists ended, (ended :: take 49 (getInterviews file)).
  split; [exact Hend|].
  repeat (split; [assumption|]).
  split; [reflexivity|].
  split; [simpl; rewrite length_take; lia|].
  split; [reflexivity|].
  split.
  - intros i Hi. simpl. by apply lookup_take_lt.
  - intros i Hi. simpl. by apply lookup_take_ge.
Qed.

Lemma persisted_store_keeps_fifty_witness :
  let old := replicate 50 (fresh_session "old" 2) in
  let reg : gmap string Session := {[ "s1" := fresh_session "s1" 2 ]} in
  let sm := {| s_fields := []; s_persona := None; s_targetRole := None;
               s_difficultyTracker := None; s_metrics := None |} in
  ∃ ended stored,
    endInterviewSession reg (Some old) "s1" sm 9 true
      = (delete "s1" reg, Some stored, Returned (Some ended))
    ∧ id ended = "s1"
    ∧ length stored = 50%nat
    ∧ head stored = Some ended
    ∧ stored !! 50%nat = None.
Proof.
  intros old reg sm.
  destruct (persisted_store_keeps_fifty reg (Some old) "s1"
              (fresh_session "s1" 2) sm 9)
    as (ended & stored & Hend & Hid & _ & _ & Hstored & _ & Hhead & _ & Hgone).
  - reflexivity.
  - exists ended, stored.
    split; [exact Hend|]. split; [exact Hid|].
    split; [rewrite Hstored; reflexivity|].
    split; [exact Hhead|]. apply (Hgone 49%nat). lia.
Defined.

(** ** Respond turns *)

(** One [/respond] turn on an active session, for a request that passes the
    first test of the handler. *)
Section active_turn.

Variables (reg : gmap string Session) (sid : string) (s : Session).
Variables (message skipped : jsval) (t0 t1 : Z) (gen : option jsobj).
Hypothesis Hs : reg !! sid = Some s.
Hypothesis Hsid : sid ≠ "".
Hypothesis Hmsg : truthy message = true.

Lemma respond_present :
  respond reg (JStr sid) message skipped t0 t1 gen =
    let skip := if truthy skipped then track_skip reg sid s t0 else (reg, None) in
    match snd skip with
    | Some autoEnd => (fst skip, autoEnd)
    | None =>
        continue_turn
          (fst (addMessageToSession (fst skip) sid "user" message t0
                  [("skipped", JBool (truthy skipped))]))
          sid skipped t1 gen
    end.
Proof.
  unfold respond, getActiveSession.
  rewrite Hmsg. simpl.
  destruct (String.eqb_spec sid ""); [done|]. simpl. rewrite Hs.
  destruct (truthy skipped); [|reflexivity].
  by destruct (track_skip reg sid s t0) as [reg1 [r|]].
Qed.

End active_turn.

(** ** A failed generation call *)

(** C3, as stated, fails: in the registry left by Start, a turn whose
    generation call fails answers with the generic failure, yet the
    transcript of the session has grown by the user's message; and when the
    failed turn was a skip, [skippedCount] has moved as well and the session
    has got a [skipsPerTopic] object, an empty one. *)
Lemma failed_turn_keeps_the_user_message :
  snd (respond started_registry (JStr "s1") (JStr "A closure captures variables.")
         (JBool false) 10 20 None) = ServerError
  ∧ messages <$> started_registry !! "s1"
    = Some [make_message "interviewer" (JStr "Tell me about closures.") 1
              [("currentTopic",
                JObj [("id", JStr "closures"); ("name", JStr "Closures")])]]
  ∧ messages <$>
      fst (respond started_registry (JStr "s1")
             (JStr "A closure captures variables.") (JBool false) 10 20 None)
        !! "s1"
    = Some [make_message "interviewer" (JStr "Tell me about closures.") 1
              [("currentTopic",
                JObj [("id", JStr "closures"); ("name", JStr "Closures")])];
            user_message (JStr "A closure captures variables.") (JBool false) 10]
  ∧ (skippedCount ∘ metrics) <$> started_registry !! "s1" = Some 0
  ∧ (skippedCount ∘ metrics) <$>
      fst (respond started_registry (JStr "s1") skip_request (JBool true)
             10 20 None) !! "s1"
    = Some 1
  ∧ (skipsPerTopic ∘ metrics) <$> started_registry !! "s1" = Some None
  ∧ (skipsPerTopic ∘ metrics) <$>
      fst (respond started_registry (JStr "s1") skip_request (JBool true)
             10 20 None) !! "s1"
    = Some (Some []).
Proof. repeat split; vm_compute; reflexivity. Qed.

(** ** The skip limit *)

(** The session that [/start] and [/respond] build never gives [/respond] a
    topic to count a skip on: [addMessageToSession] spreads the metadata
    into the message, so a message has no [metadata] property unless the
    metadata itself had one, and the handlers pass none. *)
Lemma obj_get_set (o : jsobj) (k k' : string) (v : jsval) :
  obj_get (obj_set o k v) k' = if String.eqb k k' then v else obj_get o k'.
Proof.
  induction o as [|[k0 v0] o IH]; simpl; [reflexivity|].
  destruct (String.eqb_spec k0 k) as [->|Hne]; simpl.
  - by destruct (String.eqb_spec k k').
  - rewrite IH. destruct (String.eqb_spec k0 k') as [->|]; [|reflexivity].
    destruct (String.eqb_spec k k'); [congruence | reflexivity].
Qed.

Lemma obj_get_spread (src o : jsobj) (k : string) :
  Forall (fun kv => fst kv ≠ k) src →
  obj_get (obj_spread o src) k = obj_get o k.
Proof.
  unfold obj_spread. revert o.
  induction src as [|[k0 v0] src IH]; intros o Hsrc; simpl; [reflexivity|].
  apply Forall_cons in Hsrc as [Hk0 Hsrc]. simpl in Hk0.
  rewrite (IH _ Hsrc), obj_get_set.
  destruct (String.eqb_spec k0 k); [done | reflexivity].
Qed.

Lemma make_message_has_no_metadata (role : string) (content : jsval) (now : Z)
    (metadata : jsobj) :
  Forall (fun kv => fst kv ≠ "metadata") metadata →
  obj_get (make_message role content now metadata) "metadata" = JUndefined.
Proof.
  intros Hmd. unfold make_message. by rewrite (obj_get_spread _ _ _ Hmd).
Qed.

Lemma currentTopicId_without_metadata (msgs : list jsobj) :
  Forall (fun m => obj_get m "metadata" = JUndefined) msgs →
  currentTopicId msgs = JNull.
Proof.
  intros Hall. unfold currentTopicId, lastInterviewerMsg.
  destruct (List.find is_interviewer (rev msgs)) as [m|] eqn:Hfind;
    [|reflexivity].
  apply List.find_some in Hfind as [Hin _].
  apply List.in_rev in Hin. apply list_elem_of_In in Hin.
  rewrite Forall_forall in Hall. simpl. by rewrite (Hall m Hin).
Qed.

(** C4. The skip limit, where the code departs from it.  After Start has
    asked about the topic "closures", three Respond turns in a row skip the
    question while the interviewer stays on that topic.  Each skip moves
    [skippedCount], but the handler looks for the topic of the last
    interviewer message under a [metadata] property the message does not
    have, finds none, and counts no skip against any topic: the count of
    "closures" is still 0 after the third skip, [getMaxTopicSkips] reports
    0, and the third skip is answered like any other turn, not with the
    auto-end signal. *)
Theorem three_skips_on_one_topic :
  let turn reg := respond reg (JStr "s1") skip_request (JBool true) 10 20
                    (Some same_topic_question) in
  let reg1 := fst (turn started_registry) in
  let reg2 := fst (turn reg1) in
  let reg3 := fst (turn reg2) in
  (opt_get (obj_get same_topic_question "currentTopic") "id" = JStr "closures"
   ∧ opt_get (obj_get opening "currentTopic") "id" = JStr "closures")
  ∧ (currentTopicId ∘ messages <$> started_registry !! "s1" = Some JNull
     ∧ currentTopicId ∘ messages <$> reg1 !! "s1" = Some JNull
     ∧ currentTopicId ∘ messages <$> reg2 !! "s1" = Some JNull)
  ∧ is_autoEnd (snd (turn reg2)) = false
  ∧ (∃ level name m,
       snd (turn reg2)
       = RespondOk (JStr "Then what does a closure capture?")
           (JObj [("id", JStr "closures"); ("name", JStr "Closures")])
           JUndefined level name m)
  ∧ metrics <$> reg3 !! "s1"
    = Some {| questionCount := 4; skippedCount := 3;
              skipsPerTopic := Some []; duration := None |}
  ∧ (fun s => session_topic_skips s "closures") <$> reg3 !! "s1" = Some 0
  ∧ getMaxTopicSkips reg3 "s1" = {| maxSkips := 0; topicId := None |}.
Proof.
  repeat split; try (vm_compute; reflexivity).
  eexists _, _, _. vm_compute. reflexivity.
Qed.

(** * Further properties *)

(** ** The pace of the adjustments *)

Lemma set_difficultyTracker_same (s : Session) :
  set_difficultyTracker s (difficultyTracker s) = s.
Proof. by destruct s. Qed.

Lemma consume_all_track (calls : list (string * Z)) :
  ∀ (reg : gmap string Session) (sid : string) (s : Session),
    reg !! sid = Some s →
    consume_all reg sid calls !! sid
    = Some (set_difficultyTracker s (track (difficultyTracker s) calls)).
Proof.
  induction calls as [|[a now] calls IH]; intros reg sid s Hs.
  - simpl. by rewrite set_difficultyTracker_same.
  - change (consume_all reg sid ((a, now) :: calls))
      with (consume_all (fst (updateDifficultyAssessment reg sid (JStr a) now))
              sid calls).
    change (track (difficultyTracker s) ((a, now) :: calls))
      with (track (match valid_assessment (JStr a) with
                   | Some a' => record_assessment (difficultyTracker s) a' now
                   | None => difficultyTracker s
                   end) calls).
    unfold updateDifficultyAssessment. rewrite Hs.
    destruct (valid_assessment (JStr a)) as [a'|]; simpl.
    + by rewrite (IH _ sid _ (lookup_insert_eq _ _ _)).
    + by apply IH.
Qed.

Lemma track_snoc (t : DifficultyTracker) (calls : list (string * Z))
    (a : string) (now : Z) :
  track t (calls ++ [(a, now)])
  = match valid_assessment (JStr a) with
    | Some a' => record_assessment (track t calls) a' now
    | None => track t calls
    end.
Proof. unfold track. by rewrite fold_left_app. Qed.

(** One call, whatever the tracker: either nothing but the window changes,
    or the window is emptied and one record is appended. *)
Lemma record_assessment_shape (t : DifficultyTracker) (a : string) (now : Z) :
  let w := push_assessment (recentAssessments t) a in
  (record_assessment t a now
   = {| currentLevel := currentLevel t; recentAssessments := w;
        adjustmentHistory := adjustmentHistory t |})
  ∨ ((2 ≤ length w)%nat
     ∧ ∃ level dir why,
         currentLevel t = Numeric level
         ∧ (dir = 1 ∧ level < 4 ∨ dir = -1 ∧ 1 < level)
         ∧ record_assessment t a now
           = {| currentLevel := Numeric (Z.max 1 (Z.min 4 (level + dir)));
                recentAssessments := [];
                adjustmentHistory :=
                  adjustmentHistory t ++
                    [ {| timestamp := now; fromLevel := level;
                         toLevel := Z.max 1 (Z.min 4 (level + dir));
                         reason := why |} ] |}).
Proof.
  intros w.
  destruct (currentLevel t) as [level|member] eqn:Hlevel.
  2:{ left. by rewrite (record_assessment_inherited t a now member Hlevel). }
  rewrite (record_assessment_numeric t a now level Hlevel). cbv zeta. fold w.
  set (pushed := {| currentLevel := Numeric level; recentAssessments := w;
                    adjustmentHistory := adjustmentHistory t |}).
  destruct (checkDifficultyAdjustment pushed) as [|dir why] eqn:Hcheck;
    [by left | right].
  assert (2 ≤ length w)%nat as Hlen.
  { unfold checkDifficultyAdjustment in Hcheck. simpl in Hcheck.
    destruct (Nat.ltb_spec (length w) 2); [discriminate | done]. }
  split; [exact Hlen|].
  exists level, dir, why. split; [reflexivity|]. split; [|reflexivity].
  destruct (checkDifficultyAdjustment_cases pushed)
    as [Hno | [[Hup (l & Hl & Hlt)] | [Hdown (l & Hl & Hgt)]]];
    rewrite Hcheck in *; simpl in *; simplify_eq; [left | right]; split; done.
Qed.

Lemma push_assessment_grows (recent : list string) (a : string) :
  (1 ≤ length (push_assessment recent a) ≤ S (length recent))%nat.
Proof.
  unfold push_assessment.
  destruct (Nat.ltb_spec 3 (length (recent ++ [a]))) as [Hfull|Hroom].
  - destruct recent; simpl in *; [lia|]. rewrite length_app. simpl. lia.
  - rewrite length_app. simpl. lia.
Qed.

(** X1. Two calls in a row never both adjust: when a call of
    [updateDifficultyAssessment] has changed the adjustment history of a
    session, the next call on that session, whatever its label, leaves the
    level and the history as they are. *)
Theorem no_two_adjustments_in_a_row (reg : gmap string Session) (sid : string)
    (s : Session) (first second : jsval) (now1 now2 : Z) :
  reg !! sid = Some s →
  let reg1 := fst (updateDifficultyAssessment reg sid first now1) in
  let reg2 := fst (updateDifficultyAssessment reg1 sid second now2) in
  ∃ s1 s2,
    reg1 !! sid = Some s1 ∧ reg2 !! sid = Some s2
    ∧ (adjustmentHistory (difficultyTracker s1)
         ≠ adjustmentHistory (difficultyTracker s) →
       adjustmentHistory (difficultyTracker s2)
         = adjustmentHistory (difficultyTracker s1)
       ∧ currentLevel (difficultyTracker s2)
         = currentLevel (difficultyTracker s1)).
Proof.
  intros Hs reg1 reg2. unfold reg2, reg1.
  rewrite (updateDifficultyAssessment_registry reg sid s first now1 Hs).
  destruct (valid_assessment first) as [a1|].
  - rewrite (updateDifficultyAssessment_registry _ sid _ second now2
               (lookup_insert_eq _ _ _)).
    destruct (valid_assessment second) as [a2|].
    + eexists _, _. split; [apply lookup_insert_eq|].
      split; [apply lookup_insert_eq|]. simpl.
      intros Hchanged.
      destruct (record_assessment_shape (difficultyTracker s) a1 now1)
        as [Hsame | (_ & level & dir & why & _ & _ & Hadj)].
      { rewrite Hsame in Hchanged. by simpl in Hchanged. }
      rewrite Hadj. unfold record_assessment, checkDifficultyAdjustment. by simpl.
    + eexists _, _. split; [apply lookup_insert_eq|].
      split; [apply lookup_insert_eq|]. done.
  - rewrite (updateDifficultyAssessment_registry reg sid s second now2 Hs).
    destruct (valid_assessment second) as [a2|].
    + eexists _, _. split; [exact Hs|]. split; [apply lookup_insert_eq|]. done.
    + eexists _, _. split; [exact Hs|]. split; [exact Hs|]. done.
Qed.

Lemma no_two_adjustments_in_a_row_witness :
  let s := set_difficultyTracker (fresh_session "s1" 2)
             {| currentLevel := 2; recentAssessments := ["excellent"];
                adjustmentHistory := [] |} in
  let reg : gmap string Session := {[ "s1" := s ]} in
  let reg1 := fst (updateDifficultyAssessment reg "s1" (JStr "excellent") 1) in
  let reg2 := fst (updateDifficultyAssessment reg1 "s1" (JStr "excellent") 2) in
  ∃ s1 s2,
    reg1 !! "s1" = Some s1 ∧ reg2 !! "s1" = Some s2
    ∧ currentLevel (difficultyTracker s1) = 3
    ∧ currentLevel (difficultyTracker s2) = 3.
Proof.
  intros s reg reg1 reg2.
  destruct (no_two_adjustments_in_a_row reg "s1" s (JStr "excellent")
              (JStr "excellent") 1 2 eq_refl)
    as (s1 & s2 & Hs1 & Hs2 & Hstay).
  exists s1, s2. split; [exact Hs1|]. split; [exact Hs2|].
  assert (Some s1 = Some (set_difficultyTracker s
                            {| currentLevel := 3; recentAssessments := [];
                               adjustmentHistory :=
                                 [ {| timestamp := 1; fromLevel := 2; toLevel := 3;
                                      reason := reason_increase |} ] |})) as Heq.
  { rewrite <- Hs1. by vm_compute. }
  injection Heq as Heq.
  assert (currentLevel (difficultyTracker s1) = 3) as Hl1 by (by rewrite Heq).
  split; [exact Hl1|].
  destruct Hstay as [_ Hl2]; [by rewrite Heq|]. by rewrite Hl2.
Defined.

(** The window and twice the history grow together by at most one per call. *)
Lemma record_assessment_potential (t : DifficultyTracker) (a : string) (now : Z) :
  (2 * length (adjustmentHistory (record_assessment t a now))
   + length (recentAssessments (record_assessment t a now))
   ≤ 2 * length (adjustmentHistory t) + length (recentAssessments t) + 1)%nat.
Proof.
  pose proof (push_assessment_grows (recentAssessments t) a) as Hgrow.
  destruct (record_assessment_shape t a now)
    as [-> | (Hlen & level & dir & why & _ & _ & ->)]; simpl.
  - lia.
  - rewrite length_app. simpl. lia.
Qed.

Lemma record_assessment_step (t : DifficultyTracker) (a : string) (now : Z)
    (level : Z) :
  currentLevel t = Numeric level → 1 ≤ level ≤ 4 →
  ∃ level',
    currentLevel (record_assessment t a now) = Numeric level'
    ∧ 1 ≤ level' ≤ 4
    ∧ Z.abs (level' - level)
      ≤ Z.of_nat (length (adjustmentHistory (record_assessment t a now)))
        - Z.of_nat (length (adjustmentHistory t)).
Proof.
  intros Hlevel Hlvl.
  destruct (record_assessment_shape t a now)
    as [-> | (Hlen & level0 & dir & why & Hlevel0 & Hdir & ->)]; simpl.
  - exists level. split; [exact Hlevel|]. lia.
  - rewrite Hlevel in Hlevel0. injection Hlevel0 as <-.
    eexists. split; [reflexivity|]. rewrite length_app. simpl. lia.
Qed.

Lemma track_pace (calls : list (string * Z)) (t : DifficultyTracker) (level : Z) :
  currentLevel t = Numeric level → 1 ≤ level ≤ 4 →
  ∃ level',
    currentLevel (track t calls) = Numeric level'
    ∧ 1 ≤ level' ≤ 4
    ∧ (2 * length (adjustmentHistory (track t calls))
       + length (recentAssessments (track t calls))
       ≤ 2 * length (adjustmentHistory t) + length (recentAssessments t)
         + length calls)%nat
    ∧ Z.abs (level' - level)
      ≤ Z.of_nat (length (adjustmentHistory (track t calls)))
        - Z.of_nat (length (adjustmentHistory t)).
Proof.
  intros Hlevel Hlvl.
  induction calls as [|[a now] calls IH] using rev_ind.
  - exists level. simpl. split; [exact Hlevel|]. split; [exact Hlvl|]. split; lia.
  - destruct IH as (level1 & Hlevel1 & Hrange & Hpot & Hdist).
    rewrite track_snoc, length_app.
    change (length [(a, now)]) with 1%nat.
    destruct (valid_assessment (JStr a)) as [a'|].
    + pose proof (record_assessment_potential (track t calls) a' now).
      destruct (record_assessment_step (track t calls) a' now level1 Hlevel1 Hrange)
        as (level' & Hlevel' & Hrange' & Hstep).
      exists level'. split; [exact Hlevel'|]. split; [exact Hrange'|]. split; lia.
    + exists level1. split; [exact Hlevel1|]. split; [exact Hrange|]. split; lia.
Qed.

(** X2. The pace of the adjustments: for a session whose level is in 1..4
    and whose window is empty, after any sequence of [n]
    [updateDifficultyAssessment] calls (labels valid or not) at most [n/2]
    records have been added to the history, and the level is at most [n/2]
    away from where it started. *)
Theorem adjustments_at_most_every_other_call (reg : gmap string Session)
    (sid : string) (s : Session) (calls : list (string * Z)) (level : Z) :
  reg !! sid = Some s →
  currentLevel (difficultyTracker s) = Numeric level →
  1 ≤ level ≤ 4 →
  recentAssessments (difficultyTracker s) = [] →
  ∃ s' level',
    consume_all reg sid calls !! sid = Some s'
    ∧ currentLevel (difficultyTracker s') = Numeric level'
    ∧ (2 * (length (adjustmentHistory (difficultyTracker s'))
            - length (adjustmentHistory (difficultyTracker s)))
       ≤ length calls)%nat
    ∧ 2 * Z.abs (level' - level) ≤ Z.of_nat (length calls).
Proof.
  intros Hs Hlevel Hlvl Hempty.
  destruct (track_pace calls (difficultyTracker s) level Hlevel Hlvl)
    as (level' & Hlevel' & _ & Hpot & Hdist).
  eexists _, level'. split; [by apply consume_all_track|]. simpl.
  split; [exact Hlevel'|].
  rewrite Hempty in Hpot. simpl in Hpot. lia.
Qed.

Lemma adjustments_at_most_every_other_call_witness :
  let reg : gmap string Session := {[ "s1" := fresh_session "s1" 1 ]} in
  let calls := [("excellent", 1); ("excellent", 2); ("excellent", 3)] in
  ∃ s' level',
    consume_all reg "s1" calls !! "s1" = Some s'
    ∧ currentLevel (difficultyTracker s') = Numeric level'
    ∧ 2 * Z.abs (level' - 1) ≤ 3.
Proof.
  intros reg calls.
  destruct (adjustments_at_most_every_other_call reg "s1" (fresh_session "s1" 1)
              calls 1) as (s' & level' & Hs' & Hlevel' & _ & Hdist).
  - reflexivity.
  - reflexivity.
  - lia.
  - reflexivity.
  - exists s', level'. split; [exact Hs'|]. split; [exact Hlevel' | exact Hdist].
Defined.

(** ** At the ceiling and at the floor *)

Lemma count_label_absent (label : string) (w : list string) :
  Forall (fun a => a ≠ label) w → count_label label w = 0%nat.
Proof.
  unfold count_label. induction 1 as [|a w Ha _ IH]; [reflexivity|].
  rewrite filter_cons. by case_decide.
Qed.

Lemma push_assessment_Forall (P : string → Prop) (w : list string) (a : string) :
  Forall P w → P a → Forall P (push_assessment w a).
Proof.
  intros Hw Ha. unfold push_assessment.
  assert (Forall P (w ++ [a])) as Hall.
  { apply Forall_app. split; [exact Hw | by constructor]. }
  destruct (3 <? length (w ++ [a]))%nat; [|exact Hall].
  destruct (w ++ [a]); [constructor|]. simpl. by apply Forall_cons in Hall as [_ ?].
Qed.

(** A tracker whose window and labels cannot feed the rule that is still
    allowed to fire at its level stays where it is. *)
Lemma track_stays (P : string → Prop) (calls : list (string * Z)) :
  ∀ t : DifficultyTracker,
    (∀ w, Forall P w →
          checkDifficultyAdjustment
            {| currentLevel := currentLevel t; recentAssessments := w;
               adjustmentHistory := adjustmentHistory t |} = NoAdjust) →
    Forall P (recentAssessments t) →
    Forall (fun call => P (fst call)) calls →
    currentLevel (track t calls) = currentLevel t
    ∧ adjustmentHistory (track t calls) = adjustmentHistory t.
Proof.
  induction calls as [|[a now] calls IH]; intros t Hquiet Hw Hcalls; [done|].
  apply Forall_cons in Hcalls as [Ha Hcalls]. simpl in Ha.
  change (track t ((a, now) :: calls))
    with (track (match valid_assessment (JStr a) with
                 | Some a' => record_assessment t a' now
                 | None => t
                 end) calls).
  destruct (valid_assessment (JStr a)) as [a'|] eqn:Hvalid; [|by apply IH].
  assert (a' = a) as ->.
  { unfold valid_assessment in Hvalid. by case_bool_decide; simplify_eq. }
  assert (record_assessment t a now
          = {| currentLevel := currentLevel t;
               recentAssessments := push_assessment (recentAssessments t) a;
               adjustmentHistory := adjustmentHistory t |}) as Hstep.
  { unfold record_assessment.
    by rewrite (Hquiet _ (push_assessment_Forall P _ _ Hw Ha)). }
  rewrite Hstep.
  destruct (IH {| currentLevel := currentLevel t;
                  recentAssessments := push_assessment (recentAssessments t) a;
                  adjustmentHistory := adjustmentHistory t |}) as [Hl Hh];
    try done.
  by apply push_assessment_Forall.
Qed.

(** X3. The bounds hold the level still.  A session at level 4 whose window
    and whose next labels are all excellent or good keeps level 4 and gets
    no history record, however many excellent answers arrive; a session at
    level 1 whose window and next labels hold no excellent keeps level 1 and
    gets no history record, however many brief or partial answers arrive. *)
Theorem bounds_hold_the_level (reg : gmap string Session) (sid : string)
    (s : Session) (calls : list (string * Z)) :
  reg !! sid = Some s →
  (currentLevel (difficultyTracker s) = 4
   ∧ Forall (fun a => a = "excellent" ∨ a = "good")
       (recentAssessments (difficultyTracker s) ++ map fst calls))
  ∨ (currentLevel (difficultyTracker s) = 1
     ∧ Forall (fun a => a ≠ "excellent")
         (recentAssessments (difficultyTracker s) ++ map fst calls)) →
  ∃ s',
    consume_all reg sid calls !! sid = Some s'
    ∧ currentLevel (difficultyTracker s') = currentLevel (difficultyTracker s)
    ∧ adjustmentHistory (difficultyTracker s')
      = adjustmentHistory (difficultyTracker s).
Proof.
  intros Hs Hbound.
  eexists. split; [by apply consume_all_track|]. simpl.
  destruct Hbound as [[Hlvl Hall] | [Hlvl Hall]];
    apply Forall_app in Hall as [Hw Hcalls]; rewrite Forall_map in Hcalls.
  - apply (track_stays (fun a => a = "excellent" ∨ a = "good")); try done.
    intros w Hgood. erewrite checkDifficultyAdjustment_rule by exact Hlvl. simpl.
    assert (count_label "brief" w = 0 ∧ count_label "partial" w = 0)%nat
      as [Hb Hp].
    { split; apply count_label_absent;
        (eapply Forall_impl; [exact Hgood|]); intros a [-> | ->]; done. }
    unfold decrease_condition. rewrite Hb, Hp.
    rewrite !bool_decide_eq_false_2; [done | lia | lia].
  - apply (track_stays (fun a => a ≠ "excellent")); try done.
    intros w Hnone. erewrite checkDifficultyAdjustment_rule by exact Hlvl. simpl.
    unfold increase_condition. rewrite (count_label_absent _ _ Hnone).
    rewrite !bool_decide_eq_false_2; [done | lia | lia].
Qed.

Lemma bounds_hold_the_level_witness :
  let reg : gmap string Session := {[ "s1" := fresh_session "s1" 4 ]} in
  let calls := [("excellent", 1); ("excellent", 2); ("good", 3); ("excellent", 4)] in
  ∃ s',
    consume_all reg "s1" calls !! "s1" = Some s'
    ∧ currentLevel (difficultyTracker s') = 4
    ∧ adjustmentHistory (difficultyTracker s') = [].
Proof.
  intros reg calls.
  apply (bounds_hold_the_level reg "s1" (fresh_session "s1" 4) calls eq_refl).
  left. split; [reflexivity|].
  repeat constructor; by (left + right).
Defined.

(** ** The history as a path *)

Lemma history_path_snoc (from mid to : Z) (h : list Adjustment) (r : Adjustment) :
  history_path from h mid →
  fromLevel r = mid → toLevel r = to → (to = mid + 1 ∨ to = mid - 1) →
  history_path from (h ++ [r]) to.
Proof.
  revert from. induction h as [|r0 h IH]; intros from Hpath Hfrom Hto Hstep; simpl in *.
  - subst. by repeat split.
  - destruct Hpath as (H1 & H2 & H3). repeat split; try done. by apply IH.
Qed.

Lemma track_history_path (init : Z) (calls : list (string * Z))
    (t : DifficultyTracker) (level : Z) :
  currentLevel t = Numeric level → 1 ≤ level ≤ 4 →
  history_path init (adjustmentHistory t) level →
  ∃ level',
    currentLevel (track t calls) = Numeric level'
    ∧ history_path init (adjustmentHistory (track t calls)) level'.
Proof.
  intros Hlevel Hlvl Hpath.
  induction calls as [|[a now] calls IH] using rev_ind;
    [exists level; by split|].
  destruct IH as (level1 & Hlevel1 & Hpath1).
  rewrite track_snoc.
  destruct (valid_assessment (JStr a)) as [a'|]; [|exists level1; by split].
  destruct (track_pace calls t level Hlevel Hlvl) as (level2 & Hlevel2 & Hrange & _).
  rewrite Hlevel1 in Hlevel2. injection Hlevel2 as <-.
  destruct (record_assessment_shape (track t calls) a' now)
    as [-> | (_ & level0 & dir & why & Hlevel0 & Hdir & ->)]; simpl.
  - exists level1. by split.
  - rewrite Hlevel1 in Hlevel0. injection Hlevel0 as <-.
    eexists. split; [reflexivity|].
    eapply history_path_snoc; [exact Hpath1 | reflexivity | reflexivity | lia].
Qed.

Lemma history_path_start (init to : Z) (t : DifficultyTracker) :
  init ≠ 0 → currentLevel t = Numeric to →
  history_path init (adjustmentHistory t) to →
  startedAtLevel t = Numeric init.
Proof.
  intros Hinit Hto Hpath. unfold startedAtLevel.
  destruct (adjustmentHistory t) as [|r h]; simpl in Hpath; [by rewrite Hto, Hpath|].
  destruct Hpath as (Hfrom & _).
  destruct (Z.eqb_spec (fromLevel r) 0); [congruence | by rewrite Hfrom].
Qed.

(** X4. The history replays the session: for a session whose level is in
    1..4 and whose history is empty, after any sequence of
    [updateDifficultyAssessment] calls the history is a path from the level
    the session started at to its current level, one level up or down per
    record, each record starting where the previous one arrived. *)
Theorem history_is_a_path (reg : gmap string Session) (sid : string)
    (s : Session) (calls : list (string * Z)) (level : Z) :
  reg !! sid = Some s →
  currentLevel (difficultyTracker s) = Numeric level →
  1 ≤ level ≤ 4 →
  adjustmentHistory (difficultyTracker s) = [] →
  ∃ s' level',
    consume_all reg sid calls !! sid = Some s'
    ∧ currentLevel (difficultyTracker s') = Numeric level'
    ∧ history_path level (adjustmentHistory (difficultyTracker s')) level'.
Proof.
  intros Hs Hlevel Hlvl Hempty.
  destruct (track_history_path level calls (difficultyTracker s) level Hlevel Hlvl)
    as (level' & Hlevel' & Hpath); [by rewrite Hempty|].
  eexists _, level'. split; [by apply consume_all_track|]. simpl.
  by split.
Qed.

Lemma history_is_a_path_witness :
  let reg : gmap string Session := {[ "s1" := fresh_session "s1" 2 ]} in
  let calls := [("excellent", 1); ("excellent", 2); ("brief", 3); ("partial", 4)] in
  ∃ s' level',
    consume_all reg "s1" calls !! "s1" = Some s'
    ∧ currentLevel (difficultyTracker s') = Numeric level'
    ∧ history_path 2 (adjustmentHistory (difficultyTracker s')) level'.
Proof.
  intros reg calls.
  apply (history_is_a_path reg "s1" (fresh_session "s1" 2) calls 2 eq_refl).
  - reflexivity.
  - lia.
  - reflexivity.
Defined.

(** X5. The starting level the summary prompt reads off the tracker
    ([adjustmentHistory[0].fromLevel], or the current level when there is no
    record) is the level the session was created with, whatever assessments
    were consumed in between, for a session created at a level in 1..4. *)
Theorem summary_prompt_starting_level (reg : gmap string Session) (sid : string)
    (s : Session) (calls : list (string * Z)) :
  reg !! sid = Some s →
  in_range (currentLevel (difficultyTracker s)) →
  adjustmentHistory (difficultyTracker s) = [] →
  ∃ s',
    consume_all reg sid calls !! sid = Some s'
    ∧ startedAtLevel (difficultyTracker s') = currentLevel (difficultyTracker s).
Proof.
  intros Hs Hlvl Hempty.
  destruct (currentLevel (difficultyTracker s)) as [level|] eqn:Hlevel; [|done].
  simpl in Hlvl.
  destruct (track_history_path level calls (difficultyTracker s) level Hlevel Hlvl)
    as (level' & Hlevel' & Hpath); [by rewrite Hempty|].
  eexists. split; [by apply consume_all_track|]. simpl.
  eapply history_path_start; [lia | exact Hlevel' | exact Hpath].
Qed.

Lemma summary_prompt_starting_level_witness :
  let reg : gmap string Session := {[ "s1" := fresh_session "s1" 3 ]} in
  let calls := [("brief", 1); ("partial", 2); ("excellent", 3)] in
  ∃ s',
    consume_all reg "s1" calls !! "s1" = Some s'
    ∧ startedAtLevel (difficultyTracker s') = 3.
Proof.
  intros reg calls.
  apply (summary_prompt_starting_level reg "s1" (fresh_session "s1" 3) calls eq_refl).
  - simpl. lia.
  - reflexivity.
Defined.

(** ** A Respond turn, from the session's side *)

(** Writes to one id collapse, and a read after a write sees the write. *)
Ltac settle_registry :=
  repeat first
    [ rewrite lookup_insert_eq
    | rewrite insert_insert_eq
    | progress cbn [fst snd] ].

Lemma respond_turn (reg : gmap string Session) (sid : string) (s : Session)
    (message skipped : jsval) (t0 t1 : Z) (gen : option jsobj) :
  reg !! sid = Some s → sid ≠ "" → truthy message = true →
  respond reg (JStr sid) message skipped t0 t1 gen
  = (<[sid := turn_session s message skipped t0 t1 gen]> reg,
     turn_response s message skipped t0 t1 gen).
Proof.
  intros Hs Hsid Hmsg.
  rewrite (respond_present reg sid s message skipped t0 t1 gen Hs Hsid Hmsg).
  unfold turn_response, turn_session, user_message, interviewer_message,
    metrics_at, label_throws.
  destruct (truthy skipped) eqn:Hskip; cbn [andb orb].
  - (* a skip *)
    unfold track_skip, incrementSkippedCount, skip_throws, skip_tracked.
    rewrite Hs.
    destruct (truthy (currentTopicId (messages s))) eqn:Htopic; cbn [andb];
      [destruct (js_to_string (currentTopicId (messages s))) as [key|] eqn:Hkey|].
    + rewrite bool_decide_eq_true_2 by eauto. cbn [negb orb fst snd].
      unfold getMaxTopicSkips, getSessionMetrics, limit_reached.
      rewrite lookup_insert_eq. cbn [metrics set_metrics skipsPerTopic default].
      destruct (MAX_SKIPS_BEFORE_END <=? _) eqn:Hlimit; cbn [fst snd].
      * reflexivity.
      * unfold addMessageToSession. settle_registry.
        unfold continue_turn. destruct gen as [response|]; [|reflexivity].
        rewrite Hskip. rewrite !andb_false_r.
        unfold assessed, counted. rewrite Hskip, andb_false_r.
        unfold incrementQuestionCount, addMessageToSession, getDifficultyContext,
          getSessionMetrics.
        destruct (negb (truthy (obj_get response "isProbing")));
          settle_registry; reflexivity.
    + rewrite bool_decide_eq_false_2 by (by intros [? [=]]). reflexivity.
    + cbn [negb orb fst snd].
      unfold getMaxTopicSkips, getSessionMetrics, limit_reached.
      rewrite lookup_insert_eq. cbn [metrics set_metrics skipsPerTopic default].
      destruct (MAX_SKIPS_BEFORE_END <=? _) eqn:Hlimit; cbn [fst snd].
      * reflexivity.
      * unfold addMessageToSession. settle_registry.
        unfold continue_turn. destruct gen as [response|]; [|reflexivity].
        rewrite Hskip. rewrite !andb_false_r.
        unfold assessed, counted. rewrite Hskip, andb_false_r.
        unfold incrementQuestionCount, addMessageToSession, getDifficultyContext,
          getSessionMetrics.
        destruct (negb (truthy (obj_get response "isProbing")));
          settle_registry; reflexivity.
  - (* an answer *)
    cbn [fst snd].
    unfold addMessageToSession. rewrite Hs. cbn [fst].
    unfold continue_turn. destruct gen as [response|]; [|reflexivity].
    unfold assessed, counted. rewrite Hskip. cbn [negb]. rewrite !andb_true_r.
    unfold updateDifficultyAssessment.
    destruct (truthy (obj_get response "assessmentOfLastAnswer")); cbn [andb].
    + settle_registry.
      destruct (valid_assessment (obj_get response "assessmentOfLastAnswer"))
        as [a|] eqn:Hvalid.
      * rewrite bool_decide_eq_true_2 by eauto. cbn [negb andb].
        unfold incrementQuestionCount, addMessageToSession, getDifficultyContext,
          getSessionMetrics.
        destruct (negb (truthy (obj_get response "isProbing")));
          settle_registry; reflexivity.
      * rewrite bool_decide_eq_false_2 by (by intros [? [=]]). cbn [negb andb].
        destruct (js_to_string (obj_get response "assessmentOfLastAnswer"))
          as [text|] eqn:Htext.
        -- rewrite bool_decide_eq_true_2 by eauto. cbn [negb].
           unfold incrementQuestionCount, addMessageToSession,
             getDifficultyContext, getSessionMetrics.
           destruct (negb (truthy (obj_get response "isProbing")));
             settle_registry; reflexivity.
        -- rewrite bool_decide_eq_false_2 by (by intros [? [=]]). reflexivity.
    + unfold incrementQuestionCount, addMessageToSession, getDifficultyContext,
        getSessionMetrics.
      destruct (negb (truthy (obj_get response "isProbing")));
        settle_registry; reflexivity.
Qed.

(** ** The three handlers, case by case *)

Lemma start_open (reg : gmap string Session) (sid : string) (t0 t1 : Z)
    (course name selected topicList personaFound : jsval) (role : option Role)
    (gen : option jsobj) :
  let created :=
    snd (createInterviewSession reg sid t0 course name selected topicList
           personaFound role) in
  start reg (GateOpen course name selected topicList personaFound role)
    sid t0 t1 gen
  = (<[sid := started_session created t1 gen]> reg,
     match gen with
     | None => ServerError
     | Some response =>
         StartOk sid (obj_get response "message")
           (obj_get response "currentTopic") (persona created)
           (targetRole created) (initialLevel role)
     end).
Proof.
  intros created. unfold start, started_session. cbn [createInterviewSession].
  destruct gen as [response|].
  - unfold addMessageToSession, incrementQuestionCount, getDifficultyContext.
    cbn [id]. settle_registry. reflexivity.
  - reflexivity.
Qed.

Lemma respond_cases (reg : gmap string Session) (sessionId message skipped : jsval)
    (t0 t1 : Z) (gen : option jsobj) :
  (fst (respond reg sessionId message skipped t0 t1 gen) = reg
   ∧ (snd (respond reg sessionId message skipped t0 t1 gen) = BadRequest
      ∨ snd (respond reg sessionId message skipped t0 t1 gen) = NotFound))
  ∨ (∃ sid s,
       sessionId = JStr sid ∧ reg !! sid = Some s
       ∧ respond reg sessionId message skipped t0 t1 gen
         = (<[sid := turn_session s message skipped t0 t1 gen]> reg,
            turn_response s message skipped t0 t1 gen)).
Proof.
  destruct (truthy sessionId) eqn:Hid;
    [|left; unfold respond; rewrite Hid; simpl; auto].
  destruct (truthy message) eqn:Hmsg;
    [|left; unfold respond; rewrite Hid, Hmsg; simpl; auto].
  destruct sessionId as [| | | |sid| |];
    try (left; unfold respond; rewrite Hid, Hmsg; simpl; by auto).
  destruct (reg !! sid) as [s|] eqn:Hs.
  - right. exists sid, s. split; [reflexivity|]. split; [exact Hs|].
    apply respond_turn; try done.
    intros ->. by simpl in Hid.
  - left. unfold respond, getActiveSession. rewrite Hid, Hmsg, Hs. simpl. auto.
Qed.

Lemma end_cases (reg : gmap string Session) (file : option (list Session))
    (sessionId : jsval) (t0 t1 : Z) (gen : option jsobj) (write_ok : bool) :
  (end_interview reg file sessionId t0 t1 gen write_ok = (reg, file, BadRequest)
   ∧ truthy sessionId = false)
  ∨ (end_interview reg file sessionId t0 t1 gen write_ok = (reg, file, NotFound)
     ∧ ∀ sid, sessionId = JStr sid → reg !! sid = None)
  ∨ (∃ sid s,
       sessionId = JStr sid ∧ reg !! sid = Some s
       ∧ end_interview reg file sessionId t0 t1 gen write_ok
         = match gen with
           | None => (reg, file, ServerError)
           | Some fields =>
               let sm := end_summary s fields t0 in
               if write_ok
               then (delete sid reg,
                     Some (take 50 (ended_session s sm t1 :: getInterviews file)),
                     EndOk sm)
               else (<[sid := ended_session s sm t1]> reg, file, ServerError)
           end).
Proof.
  destruct (truthy sessionId) eqn:Hid;
    [|left; unfold end_interview; by rewrite Hid].
  right.
  destruct sessionId as [| | | |sid| |];
    try (left; unfold end_interview; rewrite Hid; simpl; split; [done|];
         by intros ? [=]).
  destruct (reg !! sid) as [s|] eqn:Hs.
  - right. exists sid, s. split; [reflexivity|]. split; [exact Hs|].
    unfold end_interview, getActiveSession. rewrite Hid, Hs. simpl.
    destruct gen as [fields|]; [|reflexivity].
    unfold getSessionMetrics, endInterviewSession. rewrite Hs.
    fold (metrics_at s t0). fold (end_summary s fields t0).
    cbn [s_metrics end_summary]. unfold ended_session. cbn [s_metrics end_summary].
    by destruct write_ok.
  - left. unfold end_interview, getActiveSession. rewrite Hid, Hs. simpl.
    split; [done|]. by intros ? [= <-].
Qed.

(** ** Invariants of a run of requests *)

(** A property of sessions that every handler re-establishes holds of every
    session of the registry throughout a run, and so does a property of the
    answers that follows from it. *)
Section run_invariant.

Variable P : Session → Prop.
Variable Q : Response → Prop.
Variable R : Request → Prop.

Hypothesis P_start :
  ∀ reg sid t0 t1 course name selected topicList personaFound role gen,
    R (ReqStart (GateOpen course name selected topicList personaFound role)
         sid t0 t1 gen) →
    P (started_session
         (snd (createInterviewSession reg sid t0 course name selected topicList
                 personaFound role)) t1 gen).

Hypothesis P_turn :
  ∀ s message skipped t0 t1 gen,
    P s → P (turn_session s message skipped t0 t1 gen).

Hypothesis P_end :
  ∀ s sessionId fields t0 t1,
    R (ReqEnd sessionId t0 t1 (Some fields) false) →
    P s → P (ended_session s (end_summary s fields t0) t1).

Hypothesis Q_answer :
  ∀ st req,
    R req → map_Forall (fun _ => P) (fst st) → Q (snd (handle st req)).

Lemma handle_keeps (st : ServerState) (req : Request) :
  R req →
  map_Forall (fun _ => P) (fst st) →
  map_Forall (fun _ => P) (fst (fst (handle st req))).
Proof.
  intros Hreq Hall. destruct st as [reg file].
  destruct req as [gate sid t0 t1 gen
                  | sessionId message skipped t0 t1 gen
                  | sessionId t0 t1 gen write_ok]; cbn [handle fst snd].
  - destruct gate as [status | course name selected topicList personaFound role];
      [exact Hall|].
    rewrite start_open. cbn [fst].
    apply map_Forall_insert_2; [|exact Hall]. by apply P_start.
  - destruct (respond_cases reg sessionId message skipped t0 t1 gen)
      as [[-> _] | (sid & s & -> & Hs & ->)]; [exact Hall|].
    cbn [fst]. apply map_Forall_insert_2; [|exact Hall].
    apply P_turn. exact (Hall sid s Hs).
  - destruct (end_cases reg file sessionId t0 t1 gen write_ok)
      as [[-> _] | [[-> _] | (sid & s & -> & Hs & ->)]]; try exact Hall.
    destruct gen as [fields|]; [|exact Hall].
    destruct write_ok; cbn [fst].
    + by apply map_Forall_delete.
    + apply map_Forall_insert_2; [|exact Hall].
      eapply P_end; [exact Hreq | exact (Hall sid s Hs)].
Qed.

Lemma serve_keeps (reqs : list Request) :
  ∀ st : ServerState,
    Forall R reqs →
    map_Forall (fun _ => P) (fst st) →
    map_Forall (fun _ => P) (fst (fst (serve st reqs)))
    ∧ Forall Q (snd (serve st reqs)).
Proof.
  induction reqs as [|req reqs IH]; intros st Hreqs Hall.
  - split; [exact Hall | constructor].
  - apply Forall_cons in Hreqs as [Hreq Hreqs].
    pose proof (handle_keeps st req Hreq Hall) as Hnext.
    pose proof (Q_answer st req Hreq Hall) as Hanswer.
    cbn [serve].
    destruct (handle st req) as [st1 r].
    destruct (IH st1 Hreqs Hnext) as [Hfinal Hanswers].
    destruct (serve st1 reqs) as [st2 rs].
    split; [exact Hfinal | by constructor].
Qed.

End run_invariant.

(** ** What the handlers make of the skip limit *)

Lemma count_messages_snoc (p : jsobj → bool) (msgs : list jsobj) (m : jsobj) :
  count_messages p (msgs ++ [m])
  = count_messages p msgs + (if p m then 1 else 0).
Proof.
  unfold count_messages. rewrite List.filter_app, length_app. simpl.
  destruct (p m); simpl; lia.
Qed.

Lemma built_skip_tracked (s : Session) :
  built_by_handlers s →
  skipsPerTopic (metrics (skip_tracked s)) = Some []
  ∧ limit_reached (skip_tracked s) = false
  ∧ skip_throws s = false.
Proof.
  intros [Hplain Hnone].
  assert (skipsPerTopic (metrics (skip_tracked s)) = Some []) as Hskips.
  { unfold skip_tracked. cbn [metrics set_metrics skipsPerTopic].
    rewrite (currentTopicId_without_metadata _ Hplain). cbn [truthy].
    by destruct Hnone as [-> | ->]. }
  split; [exact Hskips|]. split; [unfold limit_reached; by rewrite Hskips|].
  unfold skip_throws. by rewrite (currentTopicId_without_metadata _ Hplain).
Qed.

Lemma assessed_keeps (s : Session) (skipped : jsval) (t1 : Z) (response : jsobj) :
  messages (assessed s skipped t1 response) = messages s
  ∧ metrics (assessed s skipped t1 response) = metrics s
  ∧ endTime (assessed s skipped t1 response) = endTime s
  ∧ summary (assessed s skipped t1 response) = summary s.
Proof.
  unfold assessed.
  destruct (_ && _); [destruct (valid_assessment _)|]; done.
Qed.

Lemma counted_keeps (s : Session) (response : jsobj) :
  messages (counted s response) = messages s
  ∧ difficultyTracker (counted s response) = difficultyTracker s
  ∧ skippedCount (metrics (counted s response)) = skippedCount (metrics s)
  ∧ skipsPerTopic (metrics (counted s response)) = skipsPerTopic (metrics s)
  ∧ questionCount (metrics (counted s response))
    = questionCount (metrics s)
      + (if truthy (obj_get response "isProbing") then 0 else 1)
  ∧ endTime (counted s response) = endTime s
  ∧ summary (counted s response) = summary s.
Proof.
  unfold counted.
  destruct (truthy (obj_get response "isProbing")); simpl; repeat split; lia.
Qed.

Lemma user_message_facts (message skipped : jsval) (t0 : Z) :
  obj_get (user_message message skipped t0) "metadata" = JUndefined
  ∧ asks_a_question (user_message message skipped t0) = false
  ∧ is_a_skip (user_message message skipped t0) = truthy skipped.
Proof. repeat split; reflexivity. Qed.

Lemma interviewer_message_facts (response : jsobj) (t1 : Z) :
  obj_get (interviewer_message response t1) "metadata" = JUndefined
  ∧ asks_a_question (interviewer_message response t1)
    = negb (truthy (obj_get response "isProbing"))
  ∧ is_a_skip (interviewer_message response t1) = false.
Proof. repeat split; reflexivity. Qed.

Lemma mirrors_transcript_turn (s : Session) (message skipped : jsval)
    (t0 t1 : Z) (gen : option jsobj) :
  mirrors_transcript s →
  mirrors_transcript (turn_session s message skipped t0 t1 gen)
  ∧ is_autoEnd (turn_response s message skipped t0 t1 gen) = false.
Proof.
  intros (Hbuilt & Hq & Hk).
  destruct (built_skip_tracked s Hbuilt) as (Hskips & Hlimit & Hkey).
  destruct Hbuilt as [Hplain Hnone].
  destruct (user_message_facts message skipped t0) as (Hu1 & Hu2 & Hu3).
  unfold turn_session, turn_response.
  (* the session after the skip block *)
  set (s1 := if truthy skipped then skip_tracked s else s).
  assert (truthy skipped && limit_reached s1 = false) as Hno.
  { unfold s1. destruct (truthy skipped); [exact Hlimit | reflexivity]. }
  rewrite Hkey, orb_false_l, andb_false_r, Hno.
  assert (messages s1 = messages s
          ∧ questionCount (metrics s1) = questionCount (metrics s)
          ∧ skippedCount (metrics s1)
            = skippedCount (metrics s) + (if truthy skipped then 1 else 0)
          ∧ (skipsPerTopic (metrics s1) = None
             ∨ skipsPerTopic (metrics s1) = Some []))
    as (Hm1 & Hq1 & Hk1 & Hn1).
  { unfold s1. destruct (truthy skipped).
    - repeat split; try reflexivity. by right.
    - repeat split; try done. lia. }
  clearbody s1.
  set (s2 := set_messages s1 (messages s1 ++ [user_message message skipped t0])).
  assert (mirrors_transcript s2) as (Hbuilt2 & Hq2 & Hk2).
  { unfold mirrors_transcript, built_by_handlers, s2.
    cbn [set_messages messages metrics]. rewrite Hm1, !count_messages_snoc.
    rewrite Hu2, Hu3, Hq1, Hk1, <- Hq, <- Hk.
    split; [split; [|exact Hn1]|split; lia].
    apply Forall_app. split; [exact Hplain | by repeat constructor]. }
  destruct gen as [response|]; [|by split].
  destruct (label_throws skipped response); [by split|].
  split; [|reflexivity].
  destruct (interviewer_message_facts response t1) as (Hi1 & Hi2 & Hi3).
  destruct (assessed_keeps s2 skipped t1 response) as (Ha1 & Ha2 & _).
  destruct (counted_keeps (assessed s2 skipped t1 response) response)
    as (Hc1 & _ & Hc2 & Hc3 & Hc4 & _).
  destruct Hbuilt2 as [Hplain2 Hnone2].
  unfold mirrors_transcript, built_by_handlers.
  cbn [set_messages messages metrics].
  rewrite !count_messages_snoc, Hi2, Hi3, Hc1, Hc2, Hc3, Hc4, Ha1, Ha2.
  split; [split; [|exact Hnone2]|].
  - apply Forall_app. split; [exact Hplain2 | by repeat constructor].
  - destruct (truthy (obj_get response "isProbing")); cbn [negb]; split; lia.
Qed.

Lemma mirrors_transcript_start (reg : gmap string Session) (sid : string)
    (t0 t1 : Z) (course name selected topicList personaFound : jsval)
    (role : option Role) (gen : option jsobj) :
  mirrors_transcript
    (started_session
       (snd (createInterviewSession reg sid t0 course name selected topicList
               personaFound role)) t1 gen).
Proof.
  unfold mirrors_transcript, built_by_handlers.
  destruct gen as [response|]; cbn.
  - split; [split; [by repeat constructor | by left]|].
    unfold count_messages, asks_a_question, is_a_skip. cbn. split; lia.
  - split; [split; [constructor | by left]|]. done.
Qed.

Lemma mirrors_transcript_end (s : Session) (fields : jsobj) (t0 t1 : Z) :
  mirrors_transcript s →
  mirrors_transcript (ended_session s (end_summary s fields t0) t1).
Proof.
  intros ([Hplain Hnone] & Hq & Hk).
  unfold mirrors_transcript, built_by_handlers. cbn.
  split; [split; [exact Hplain | by left]|]. by split.
Qed.

Lemma serve_mirrors_transcript (file : option (list Session)) (reqs : list Request) :
  map_Forall (fun _ => mirrors_transcript) (fst (fst (serve (∅, file) reqs)))
  ∧ Forall (fun r => is_autoEnd r = false) (snd (serve (∅, file) reqs)).
Proof.
  apply (serve_keeps mirrors_transcript (fun r => is_autoEnd r = false)
           (fun _ => True)).
  - intros. apply mirrors_transcript_start.
  - intros s message skipped t0 t1 gen Hs.
    by destruct (mirrors_transcript_turn s message skipped t0 t1 gen Hs).
  - intros s _ fields t0 t1 _ Hs. by apply mirrors_transcript_end.
  - intros [reg file'] req _ Hall.
    destruct req as [gate sid t0 t1 gen
                    | sessionId message skipped t0 t1 gen
                    | sessionId t0 t1 gen write_ok]; cbn [handle fst snd].
    + destruct gate; [reflexivity|]. rewrite start_open. by destruct gen.
    + destruct (respond_cases reg sessionId message skipped t0 t1 gen)
        as [[_ [-> | ->]] | (sid & s & -> & Hs & ->)]; try reflexivity.
      cbn [snd].
      by destruct (mirrors_transcript_turn s message skipped t0 t1 gen
                     (Hall sid s Hs)).
    + destruct (end_cases reg file' sessionId t0 t1 gen write_ok)
        as [[-> _] | [[-> _] | (sid & s & -> & Hs & ->)]]; try reflexivity.
      destruct gen; [destruct write_ok|]; reflexivity.
  - by apply Forall_true.
  - apply map_Forall_empty.
Qed.

(** One turn on a session the handlers have built: the skip block neither
    throws nor answers, and the user's message is pushed. *)
Lemma built_turn (s : Session) (message skipped : jsval) (t0 t1 : Z)
    (gen : option jsobj) :
  built_by_handlers s →
  ∃ s1,
    messages s1 = messages s
    ∧ difficultyTracker s1 = difficultyTracker s
    ∧ endTime s1 = endTime s
    ∧ questionCount (metrics s1) = questionCount (metrics s)
    ∧ skippedCount (metrics s1)
      = skippedCount (metrics s) + (if truthy skipped then 1 else 0)
    ∧ skipsPerTopic (metrics s1)
      = (if truthy skipped then Some (default [] (skipsPerTopic (metrics s)))
         else skipsPerTopic (metrics s))
    ∧ (∀ topic, session_topic_skips s1 topic = session_topic_skips s topic)
    ∧ turn_session s message skipped t0 t1 gen
      = (let s2 :=
           set_messages s1 (messages s1 ++ [user_message message skipped t0]) in
         match gen with
         | None => s2
         | Some response =>
             if label_throws skipped response then s2
             else
               let s4 := counted (assessed s2 skipped t1 response) response in
               set_messages s4 (messages s4 ++ [interviewer_message response t1])
         end)
    ∧ (gen = None → turn_response s message skipped t0 t1 gen = ServerError).
Proof.
  intros Hbuilt.
  destruct (built_skip_tracked s Hbuilt) as (Hskips & Hlimit & Hkey).
  destruct Hbuilt as [Hplain Hnone].
  exists (if truthy skipped then skip_tracked s else s).
  unfold turn_session, turn_response.
  rewrite Hkey, orb_false_l, andb_false_r.
  destruct (truthy skipped) eqn:Hskip; cbn [andb].
  - rewrite Hlimit. repeat split; try reflexivity.
    + rewrite Hskips. by destruct Hnone as [-> | ->].
    + intros topic. unfold session_topic_skips. rewrite Hskips.
      by destruct Hnone as [-> | ->].
    + by intros ->.
  - repeat split; try reflexivity; [lia | by intros ->].
Qed.

(** X6. The skip limit never fires.  In any run of Start, Respond and End
    requests from an empty registry, whatever the language model answers and
    whichever calls fail, no answer is the auto-end signal, and no session
    of the registry ever has a per-topic skip count: [/respond] looks for
    the topic under a [metadata] property that [addMessageToSession] never
    creates. *)
Theorem skip_limit_never_fires (file : option (list Session)) (reqs : list Request) :
  Forall (fun r => is_autoEnd r = false) (snd (serve (∅, file) reqs))
  ∧ ∀ sid s,
      fst (fst (serve (∅, file) reqs)) !! sid = Some s →
      getMaxTopicSkips (fst (fst (serve (∅, file) reqs))) sid
      = {| maxSkips := 0; topicId := None |}
      ∧ ∀ topic, session_topic_skips s topic = 0.
Proof.
  destruct (serve_mirrors_transcript file reqs) as [Hall Hanswers].
  split; [exact Hanswers|].
  intros sid s Hs.
  destruct (Hall sid s Hs) as ([_ Hnone] & _).
  unfold getMaxTopicSkips, session_topic_skips. rewrite Hs.
  by destruct Hnone as [-> | ->].
Qed.

(** X7. The counters mirror the transcript.  In any run from an empty
    registry, every session of the registry has a [questionCount] equal to
    the number of interviewer messages of its transcript that are not
    probing follow-ups, and a [skippedCount] equal to the number of user
    messages of its transcript flagged as skipped. *)
Theorem counters_mirror_the_transcript (file : option (list Session))
    (reqs : list Request) :
  ∀ sid s,
    fst (fst (serve (∅, file) reqs)) !! sid = Some s →
    questionCount (metrics s) = count_messages asks_a_question (messages s)
    ∧ skippedCount (metrics s) = count_messages is_a_skip (messages s).
Proof.
  destruct (serve_mirrors_transcript file reqs) as [Hall _].
  intros sid s Hs. by destruct (Hall sid s Hs) as (_ & Hq & Hk).
Qed.

(** ** What a turn leaves behind *)

(** C3, amended. In any state the handlers reach from an empty registry,
    when a Respond turn on an active session gets to the generation call
    and that call fails, the caller gets the generic failure; the session
    is still in the registry, its difficulty tracker, its [questionCount],
    its [endTime] and every per-topic skip count are what they were before
    the turn, and no other session has changed.  The turn is not undone:
    the user's message is in the transcript, and a skipped turn has
    incremented [skippedCount] and has created [skipsPerTopic], empty, if
    the session had none. *)
Theorem failed_generation_effects (file : option (list Session))
    (reqs : list Request) (sid : string) (s : Session)
    (message skipped : jsval) (t0 t1 : Z) :
  let reg := fst (fst (serve (∅, file) reqs)) in
  reg !! sid = Some s → sid ≠ "" → truthy message = true →
  let out := respond reg (JStr sid) message skipped t0 t1 None in
  snd out = ServerError
  ∧ ∃ s',
      fst out !! sid = Some s'
      ∧ (∀ other, other ≠ sid → fst out !! other = reg !! other)
      ∧ difficultyTracker s' = difficultyTracker s
      ∧ questionCount (metrics s') = questionCount (metrics s)
      ∧ endTime s' = endTime s
      ∧ (∀ topic, session_topic_skips s' topic = session_topic_skips s topic)
      ∧ messages s' = messages s ++ [user_message message skipped t0]
      ∧ skippedCount (metrics s')
        = skippedCount (metrics s) + (if truthy skipped then 1 else 0)
      ∧ skipsPerTopic (metrics s')
        = (if truthy skipped then Some (default [] (skipsPerTopic (metrics s)))
           else skipsPerTopic (metrics s)).
Proof.
  intros reg Hs Hsid Hmsg out.
  destruct (serve_mirrors_transcript file reqs) as [Hall _].
  destruct (Hall sid s Hs) as (Hbuilt & _).
  destruct (built_turn s message skipped t0 t1 None Hbuilt)
    as (s1 & Hm & Ht & He & Hq & Hk & Hp & Htopics & Hturn & Hanswer).
  unfold out.
  rewrite (respond_turn reg sid s message skipped t0 t1 None Hs Hsid Hmsg).
  cbn [fst snd]. rewrite Hturn, (Hanswer eq_refl). cbn zeta.
  split; [reflexivity|].
  eexists. split; [apply lookup_insert_eq|].
  split; [intros other Hne; by apply lookup_insert_ne|].
  cbn [set_messages difficultyTracker metrics endTime messages].
  unfold session_topic_skips in *.
  cbn [set_messages difficultyTracker metrics endTime messages].
  rewrite Hm. by repeat split.
Qed.

Lemma failed_generation_effects_witness :
  let reqs :=
    [ ReqStart (GateOpen (JStr "c1") (JStr "Course") (JStr "random") (JArr [])
                  JUndefined None) "s1" 0 1 (Some opening) ] in
  let reg := fst (fst (serve (∅, None) reqs)) in
  let out := respond reg (JStr "s1") skip_request (JBool true) 10 20 None in
  snd out = ServerError
  ∧ ∃ s',
      fst out !! "s1" = Some s'
      ∧ length (messages s') = 2%nat
      ∧ skippedCount (metrics s') = 1
      ∧ skipsPerTopic (metrics s') = Some [].
Proof.
  intros reqs reg out.
  assert (∃ s, reg !! "s1" = Some s
               ∧ length (messages s) = 1%nat
               ∧ skippedCount (metrics s) = 0
               ∧ skipsPerTopic (metrics s) = None) as (s & Hs & Hlen & Hcount & Hnone).
  { eexists. split; [vm_compute; reflexivity|]. by vm_compute. }
  destruct (failed_generation_effects None reqs "s1" s skip_request (JBool true)
              10 20 Hs)
    as (Herr & s' & Hs' & _ & _ & _ & _ & _ & Hmsgs & Hskipped & Hper).
  - discriminate.
  - reflexivity.
  - split; [exact Herr|]. exists s'. split; [exact Hs'|].
    rewrite Hmsgs, length_app, Hlen. rewrite Hskipped, Hcount, Hper, Hnone.
    by repeat split.
Defined.



(** ** Levels and lifecycle along a run *)

Lemma tracker_in_range_turn (s : Session) (message skipped : jsval)
    (t0 t1 : Z) (gen : option jsobj) :
  tracker_in_range s →
  tracker_in_range (turn_session s message skipped t0 t1 gen)
  ∧ reports_a_level (turn_response s message skipped t0 t1 gen).
Proof.
  intros [Hlvl Hwin]. unfold turn_session, turn_response.
  set (s1 := if truthy skipped then skip_tracked s else s).
  assert (difficultyTracker s1 = difficultyTracker s) as Ht1.
  { unfold s1. by destruct (truthy skipped). }
  clearbody s1.
  set (s2 := set_messages s1 (messages s1 ++ [user_message message skipped t0])).
  assert (∀ response, tracker_in_range (assessed s2 skipped t1 response))
    as Hassessed.
  { intros response. unfold assessed, tracker_in_range.
    destruct (_ && _); [destruct (valid_assessment _)|]; cbn; rewrite Ht1;
      try done.
    by apply record_assessment_preserves. }
  split.
  - destruct (truthy skipped && (skip_throws s || limit_reached s1)).
    { unfold tracker_in_range. by rewrite Ht1. }
    destruct gen as [response|];
      [destruct (label_throws skipped response)|];
      try (unfold tracker_in_range; cbn; by rewrite Ht1).
    destruct (counted_keeps (assessed s2 skipped t1 response) response)
      as (_ & Hc & _).
    unfold tracker_in_range. cbn. rewrite Hc. apply Hassessed.
  - destruct (truthy skipped && skip_throws s); [exact I|].
    destruct (truthy skipped && limit_reached s1); [exact I|].
    destruct gen as [response|]; [|exact I].
    destruct (label_throws skipped response); [exact I|].
    destruct (Hassessed response) as [Hlvl3 Hwin3].
    cbn. unfold level_in_range in Hlvl3.
    destruct (currentLevel (difficultyTracker (assessed s2 skipped t1 response)))
      as [level|member]; [|done].
    simpl in Hlvl3.
    assert (level = 1 ∨ level = 2 ∨ level = 3 ∨ level = 4)
      as [-> | [-> | [-> | ->]]] by lia; auto 6.
Qed.

(** X8. Levels stay in range along a run.  In any run from an empty
    registry in which every session is started for a role whose initial
    level is in 1..4 (or for no role), every session of the registry has a
    level in 1..4 and at most 3 labels in its window, and every Start or
    Respond answer reports a level in 1..4, Respond with the name of that
    level. *)
Theorem levels_stay_in_range (file : option (list Session)) (reqs : list Request) :
  Forall starts_in_range reqs →
  map_Forall (fun _ => tracker_in_range) (fst (fst (serve (∅, file) reqs)))
  ∧ Forall reports_a_level (snd (serve (∅, file) reqs)).
Proof.
  intros Hreqs.
  apply (serve_keeps tracker_in_range reports_a_level starts_in_range);
    [| | | |exact Hreqs|apply map_Forall_empty].
  - intros reg sid t0 t1 course name selected topicList personaFound role gen Hrole.
    unfold tracker_in_range, level_in_range, window_bounded.
    destruct gen; cbn in *; (split; [exact Hrole | lia]).
  - intros s message skipped t0 t1 gen Hs.
    by destruct (tracker_in_range_turn s message skipped t0 t1 gen Hs).
  - intros s _ fields t0 t1 _ Hs. exact Hs.
  - intros [reg file'] req Hreq Hall.
    destruct req as [gate sid t0 t1 gen
                    | sessionId message skipped t0 t1 gen
                    | sessionId t0 t1 gen write_ok]; cbn [handle fst snd].
    + destruct gate; [exact I|]. rewrite start_open. destruct gen; [|exact I].
      exact Hreq.
    + destruct (respond_cases reg sessionId message skipped t0 t1 gen)
        as [[_ [-> | ->]] | (sid & s & -> & Hs & ->)]; try exact I.
      cbn [snd].
      by destruct (tracker_in_range_turn s message skipped t0 t1 gen
                     (Hall sid s Hs)).
    + destruct (end_cases reg file' sessionId t0 t1 gen write_ok)
        as [[-> _] | [[-> _] | (sid & s & -> & Hs & ->)]]; try exact I.
      destruct gen; [destruct write_ok|]; exact I.
Qed.

Lemma levels_stay_in_range_witness :
  let reqs :=
    [ ReqStart (GateOpen (JStr "c1") (JStr "Course") (JStr "random") (JArr [])
                  JUndefined (Some (role_of_level 4)))
        "s1" 0 1 (Some opening);
      ReqRespond (JStr "s1") (JStr "An answer.") (JBool false) 2 3
        (Some [("message", JStr "And promises?");
               ("assessmentOfLastAnswer", JStr "excellent")]) ] in
  Forall reports_a_level (snd (serve (∅, None) reqs)).
Proof.
  intros reqs.
  apply (levels_stay_in_range None reqs).
  repeat constructor; simpl; lia.
Defined.

(** Sessions of the registry are running, stored sessions are terminated. *)
Lemma running_turn (s : Session) (message skipped : jsval) (t0 t1 : Z)
    (gen : option jsobj) :
  running s → running (turn_session s message skipped t0 t1 gen).
Proof.
  intros [He Hs]. unfold turn_session.
  set (s1 := if truthy skipped then skip_tracked s else s).
  assert (running s1) as [He1 Hs1].
  { unfold s1. by destruct (truthy skipped). }
  clearbody s1.
  destruct (truthy skipped && (skip_throws s || limit_reached s1)); [done|].
  destruct gen as [response|]; [|done].
  destruct (label_throws skipped response); [done|].
  set (s2 := set_messages s1 (messages s1 ++ [user_message message skipped t0])).
  destruct (assessed_keeps s2 skipped t1 response) as (_ & _ & Ha1 & Ha2).
  destruct (counted_keeps (assessed s2 skipped t1 response) response)
    as (_ & _ & _ & _ & _ & Hc1 & Hc2).
  unfold running. cbn. by rewrite Hc1, Hc2, Ha1, Ha2.
Qed.

Lemma handle_stores_terminated (st : ServerState) (req : Request) :
  Forall terminated (getInterviews (snd st)) →
  Forall terminated (getInterviews (snd (fst (handle st req)))).
Proof.
  intros Hfile. destruct st as [reg file].
  destruct req as [gate sid t0 t1 gen
                  | sessionId message skipped t0 t1 gen
                  | sessionId t0 t1 gen write_ok]; cbn [handle fst snd];
    try exact Hfile.
  destruct (end_cases reg file sessionId t0 t1 gen write_ok)
    as [[-> _] | [[-> _] | (sid & s & -> & Hs & ->)]]; try exact Hfile.
  destruct gen as [fields|]; [|exact Hfile].
  destruct write_ok; [|exact Hfile]. cbn [fst snd getInterviews default].
  apply Forall_take. constructor; [|exact Hfile].
  unfold terminated. cbn. split; eauto.
Qed.

Lemma serve_stores_terminated (reqs : list Request) :
  ∀ st : ServerState,
    Forall terminated (getInterviews (snd st)) →
    Forall terminated (getInterviews (snd (fst (serve st reqs)))).
Proof.
  induction reqs as [|req reqs IH]; intros st Hfile; [exact Hfile|].
  pose proof (handle_stores_terminated st req Hfile) as Hnext.
  cbn [serve]. destruct (handle st req) as [st1 r].
  specialize (IH st1 Hnext). by destruct (serve st1 reqs).
Qed.

(** X9. Running or terminated, never both.  In any run from an empty
    registry in which no write of [interviews.json] fails, every session of
    the registry has neither [endTime] nor [summary], and every session of
    the store has both (given that the sessions the store started with
    had). *)
Theorem running_or_terminated (file : option (list Session)) (reqs : list Request) :
  Forall write_succeeds reqs →
  Forall terminated (getInterviews file) →
  map_Forall (fun _ => running) (fst (fst (serve (∅, file) reqs)))
  ∧ Forall terminated (getInterviews (snd (fst (serve (∅, file) reqs)))).
Proof.
  intros Hreqs Hfile. split; [|by apply serve_stores_terminated].
  apply (serve_keeps running (fun _ => True) write_succeeds);
    [| | | |exact Hreqs|apply map_Forall_empty]; try done.
  - intros. unfold running. by destruct gen.
  - intros. by apply running_turn.
Qed.

Lemma running_or_terminated_witness :
  let reqs :=
    [ ReqStart (GateOpen (JStr "c1") (JStr "Course") (JStr "random") (JArr [])
                  JUndefined None) "s1" 0 1 (Some opening);
      ReqStart (GateOpen (JStr "c1") (JStr "Course") (JStr "random") (JArr [])
                  JUndefined None) "s2" 2 3 (Some opening);
      ReqEnd (JStr "s1") 4 5 (Some [("score", JNum 80)]) true ] in
  map_Forall (fun _ => running) (fst (fst (serve (∅, None) reqs)))
  ∧ Forall terminated (getInterviews (snd (fst (serve (∅, None) reqs)))).
Proof.
  intros reqs.
  apply (running_or_terminated None reqs).
  - repeat constructor.
  - constructor.
Defined.

(** A failed write is what breaks it: the session stays in the registry
    with its [endTime] and [summary] set, and still takes a Respond turn. *)
Example failed_write_leaves_an_ended_session_active :
  let reqs :=
    [ ReqStart (GateOpen (JStr "c1") (JStr "Course") (JStr "random") (JArr [])
                  JUndefined None) "s1" 0 1 (Some opening);
      ReqEnd (JStr "s1") 4 5 (Some [("score", JNum 80)]) false;
      ReqRespond (JStr "s1") (JStr "Am I done?") (JBool false) 6 7
        (Some next_question) ] in
  endTime <$> fst (fst (serve (∅, None) reqs)) !! "s1" = Some (Some 5)
  ∧ length <$> (messages <$> fst (fst (serve (∅, None) reqs)) !! "s1")
    = Some 3%nat
  ∧ snd (fst (serve (∅, None) reqs)) = None
  ∧ is_autoEnd <$> last (snd (serve (∅, None) reqs)) = Some false.
Proof. repeat split; vm_compute; reflexivity. Qed.

(** ** One request at a time *)

Lemma valid_assessment_truthy (v : jsval) (a : string) :
  valid_assessment v = Some a → v = JStr a ∧ truthy v = true.
Proof.
  unfold valid_assessment. destruct v; try discriminate.
  case_bool_decide as Hin; [|discriminate]. intros [= <-].
  split; [reflexivity|]. simpl.
  destruct (String.eqb_spec s "") as [->|]; [|reflexivity].
  apply (bool_decide_pack _) in Hin. vm_compute in Hin. destruct Hin.
Qed.

Lemma difficultyTracker_set_messages (s : Session) (m : list jsobj) :
  difficultyTracker (set_messages s m) = difficultyTracker s.
Proof. reflexivity. Qed.

(** X10. What a Respond turn does to the difficulty tracker.  On an active
    session, a skipped turn and a turn whose generation call fails leave the
    tracker as it was, whatever label the model returned; any other turn
    leaves the tracker [updateDifficultyAssessment] would leave for the
    returned label (so a missing or unknown label changes nothing); and a
    completed turn reports the level of that tracker, with its name. *)
Theorem turn_and_tracker (reg : gmap string Session) (sid : string) (s : Session)
    (message skipped : jsval) (t0 t1 : Z) (gen : option jsobj) :
  reg !! sid = Some s → sid ≠ "" → truthy message = true →
  let out := respond reg (JStr sid) message skipped t0 t1 gen in
  ∃ s',
    fst out !! sid = Some s'
    ∧ (truthy skipped = true ∨ gen = None →
       difficultyTracker s' = difficultyTracker s)
    ∧ (∀ response, gen = Some response → truthy skipped = false →
       ∃ updated,
         fst (updateDifficultyAssessment reg sid
                (obj_get response "assessmentOfLastAnswer") t1) !! sid
           = Some updated
         ∧ difficultyTracker s' = difficultyTracker updated)
    ∧ (∀ m topic a level name mt,
         snd out = RespondOk m topic a level name mt →
         level = currentLevel (difficultyTracker s')
         ∧ name = levelNames level).
Proof.
  intros Hs Hsid Hmsg out. unfold out.
  rewrite (respond_turn reg sid s message skipped t0 t1 gen Hs Hsid Hmsg).
  cbn [fst snd]. eexists. split; [apply lookup_insert_eq|].
  unfold turn_session, turn_response.
  set (s1 := if truthy skipped then skip_tracked s else s).
  assert (difficultyTracker s1 = difficultyTracker s) as Ht1.
  { unfold s1. by destruct (truthy skipped). }
  set (s2 := set_messages s1 (messages s1 ++ [user_message message skipped t0])).
  assert (difficultyTracker s2 = difficultyTracker s) as Ht2 by exact Ht1.
  assert (∀ response,
            difficultyTracker
              (set_messages (counted (assessed s2 skipped t1 response) response)
                 (messages (counted (assessed s2 skipped t1 response) response)
                  ++ [interviewer_message response t1]))
            = difficultyTracker (assessed s2 skipped t1 response)) as Hfinal.
  { intros response. rewrite difficultyTracker_set_messages.
    by destruct (counted_keeps (assessed s2 skipped t1 response) response)
      as (_ & -> & _). }
  split; [|split].
  - (* skipped, or no generated answer *)
    intros Hcase.
    destruct (truthy skipped && (skip_throws s || limit_reached s1)); [exact Ht1|].
    destruct gen as [response|]; [|exact Ht1].
    destruct Hcase as [Hskip | [=]].
    destruct (label_throws skipped response); [exact Ht1|].
    rewrite Hfinal. unfold assessed. rewrite Hskip, andb_false_r. exact Ht1.
  - (* answered *)
    intros response [= ->] Hskip.
    rewrite (updateDifficultyAssessment_registry reg sid s _ t1 Hs).
    unfold label_throws. rewrite Hskip. cbn [andb negb]. rewrite andb_true_r.
    destruct (valid_assessment (obj_get response "assessmentOfLastAnswer"))
      as [a|] eqn:Hvalid.
    + destruct (valid_assessment_truthy _ _ Hvalid) as [_ Htruthy].
      rewrite bool_decide_eq_true_2 by eauto. rewrite andb_false_r. cbn [andb].
      eexists. split; [apply lookup_insert_eq|].
      rewrite Hfinal. unfold assessed. rewrite Hskip, Htruthy, Hvalid.
      cbn [andb negb set_difficultyTracker difficultyTracker].
      by rewrite Ht2.
    + exists s. split; [exact Hs|].
      destruct (_ && _); [exact Ht1|].
      rewrite Hfinal. unfold assessed. rewrite Hvalid.
      by destruct (_ && _).
  - (* the level of a completed turn *)
    intros m topic a level name mt.
    destruct (truthy skipped && skip_throws s) eqn:Hthrows; [by intros [=]|].
    assert (truthy skipped && (skip_throws s || limit_reached s1)
            = truthy skipped && limit_reached s1) as ->.
    { destruct (truthy skipped); [|reflexivity]. cbn [andb] in *.
      by rewrite Hthrows. }
    destruct (truthy skipped && limit_reached s1); [by intros [=]|].
    destruct gen as [response|]; [|by intros [=]].
    destruct (label_throws skipped response); [by intros [=]|].
    intros [= _ _ _ <- <- _]. by rewrite Hfinal.
Qed.

Lemma turn_and_tracker_witness :
  let reg : gmap string Session := {[ "s1" := fresh_session "s1" 2 ]} in
  let out := respond reg (JStr "s1") skip_request (JBool true) 10 20
               (Some [("message", JStr "Next."); 
                      ("assessmentOfLastAnswer", JStr "excellent")]) in
  ∃ s',
    fst out !! "s1" = Some s'
    ∧ difficultyTracker s' = difficultyTracker (fresh_session "s1" 2).
Proof.
  intros reg out.
  destruct (turn_and_tracker reg "s1" (fresh_session "s1" 2) skip_request
              (JBool true) 10 20
              (Some [("message", JStr "Next.");
                     ("assessmentOfLastAnswer", JStr "excellent")]))
    as (s' & Hs' & Hsame & _).
  - reflexivity.
  - discriminate.
  - reflexivity.
  - exists s'. split; [exact Hs'|]. apply Hsame. by left.
Defined.

(** X11. A refused request changes nothing.  Whenever a handler answers
    with a gate rejection, a bad-request or a not-found, the registry and
    the store are exactly what they were; and a Respond or an End that
    names no session of the registry is answered that way. *)
Theorem refused_requests_change_nothing (st : ServerState) (req : Request) :
  (is_refusal (snd (handle st req)) = true → fst (handle st req) = st)
  ∧ (match req with
     | ReqStart _ _ _ _ _ => True
     | ReqRespond sessionId _ _ _ _ _ | ReqEnd sessionId _ _ _ _ =>
         (∀ sid, sessionId = JStr sid → fst st !! sid = None) →
         is_refusal (snd (handle st req)) = true
     end).
Proof.
  destruct st as [reg file].
  destruct req as [gate sid t0 t1 gen
                  | sessionId message skipped t0 t1 gen
                  | sessionId t0 t1 gen write_ok]; cbn [handle fst snd].
  - split; [|exact I].
    destruct gate; [reflexivity|]. rewrite start_open. by destruct gen.
  - destruct (respond_cases reg sessionId message skipped t0 t1 gen)
      as [[Hreg Hans] | (sid & s & -> & Hs & Heq)].
    + split; [intros _; by rewrite Hreg|].
      intros _. by destruct Hans as [-> | ->].
    + rewrite Heq. cbn [fst snd]. split.
      * unfold turn_response.
        destruct (_ && _); [discriminate|].
        destruct (_ && _); [discriminate|].
        destruct gen; [|discriminate]. by destruct (label_throws _ _).
      * intros Hnone. rewrite (Hnone sid eq_refl) in Hs. discriminate.
  - destruct (end_cases reg file sessionId t0 t1 gen write_ok)
      as [[-> _] | [[-> _] | (sid & s & -> & Hs & ->)]]; try by split.
    split.
    + destruct gen; [destruct write_ok|]; discriminate.
    + intros Hnone. rewrite (Hnone sid eq_refl) in Hs. discriminate.
Qed.

Lemma refused_requests_change_nothing_witness :
  let st : ServerState := (started_registry, None) in
  fst (handle st (ReqRespond (JStr "s2") (JStr "Hello?") (JBool false) 5 6 None))
  = st.
Proof.
  intros st.
  apply (proj1 (refused_requests_change_nothing st
                  (ReqRespond (JStr "s2") (JStr "Hello?") (JBool false) 5 6 None))).
  reflexivity.
Defined.

Lemma handle_other_sessions (st : ServerState) (req : Request)
    (other : string) :
  request_id req ≠ Some other →
  fst (fst (handle st req)) !! other = fst st !! other.
Proof.
  intros Hother. destruct st as [reg file].
  destruct req as [gate sid t0 t1 gen
                  | sessionId message skipped t0 t1 gen
                  | sessionId t0 t1 gen write_ok]; cbn [handle fst snd].
  - destruct gate; [reflexivity|]. rewrite start_open. cbn [fst].
    apply lookup_insert_ne. intros ->. by apply Hother.
  - destruct (respond_cases reg sessionId message skipped t0 t1 gen)
      as [[-> _] | (sid & s & -> & Hs & ->)]; [reflexivity|].
    cbn [fst]. apply lookup_insert_ne. intros ->. by apply Hother.
  - destruct (end_cases reg file sessionId t0 t1 gen write_ok)
      as [[-> _] | [[-> _] | (sid & s & -> & Hs & ->)]]; try reflexivity.
    assert (sid ≠ other) as Hne by (intros ->; by apply Hother).
    destruct gen; [destruct write_ok|]; cbn [fst]; try reflexivity.
    + by apply lookup_delete_ne.
    + by apply lookup_insert_ne.
Qed.

(** X12. Sessions do not interfere.  A request changes no session of the
    registry other than the one it names: every other id maps to the same
    session, or to none, as before; and so does a whole run of requests
    none of which names that id. *)
Theorem other_sessions_untouched (st : ServerState) (reqs : list Request)
    (other : string) :
  Forall (fun req => request_id req ≠ Some other) reqs →
  fst (fst (serve st reqs)) !! other = fst st !! other.
Proof.
  revert st. induction reqs as [|req reqs IH]; intros st Hreqs; [reflexivity|].
  apply Forall_cons in Hreqs as [Hreq Hreqs].
  pose proof (handle_other_sessions st req other Hreq) as Hstep.
  cbn [serve]. destruct (handle st req) as [st1 r].
  specialize (IH st1 Hreqs). destruct (serve st1 reqs) as [st2 rs].
  cbn [fst] in *. by rewrite IH.
Qed.

Lemma other_sessions_untouched_witness :
  let st : ServerState := (started_registry, None) in
  let reqs :=
    [ ReqStart (GateOpen (JStr "c1") (JStr "Course") (JStr "random") (JArr [])
                  JUndefined None) "s2" 2 3 (Some opening);
      ReqRespond (JStr "s2") (JStr "An answer.") (JBool false) 4 5
        (Some next_question);
      ReqEnd (JStr "s2") 6 7 (Some []) true ] in
  fst (fst (serve st reqs)) !! "s1" = started_registry !! "s1".
Proof.
  intros st reqs.
  apply (other_sessions_untouched st reqs "s1").
  repeat constructor; discriminate.
Defined.

(** X13. A failed End can be retried.  When End on an active session fails,
    because the summary is not generated or because the write fails, the
    caller gets the generic failure and the store is untouched; after a
    failed generation the registry is untouched too, while after a failed
    write the session is still in the registry but already carries its
    [endTime] and [summary]; in both cases a later End that succeeds evicts
    the session and stores it at the head of the store, with its
    transcript. *)
Theorem failed_end_can_be_retried (reg : gmap string Session)
    (file : option (list Session)) (sid : string) (s : Session) (t0 t1 : Z)
    (gen : option jsobj) (write_ok : bool) :
  reg !! sid = Some s → sid ≠ "" →
  gen = None ∨ write_ok = false →
  let out := end_interview reg file (JStr sid) t0 t1 gen write_ok in
  snd out = ServerError
  ∧ snd (fst out) = file
  ∧ (gen = None → fst (fst out) = reg)
  ∧ (∀ fields, gen = Some fields →
       ∃ ended,
         fst (fst out) !! sid = Some ended
         ∧ terminated ended
         ∧ messages ended = messages s
         ∧ difficultyTracker ended = difficultyTracker s)
  ∧ ∀ t0' t1' fields',
      ∃ sm stored,
        end_interview (fst (fst out)) (snd (fst out)) (JStr sid) t0' t1'
          (Some fields') true
        = (delete sid reg, Some (stored :: take 49 (getInterviews file)), EndOk sm)
        ∧ id stored = id s ∧ messages stored = messages s
        ∧ endTime stored = Some t1' ∧ summary stored = Some sm.
Proof.
  intros Hs Hsid Hfail out.
  assert (truthy (JStr sid) = true) as Hid.
  { simpl. by destruct (String.eqb_spec sid ""). }
  assert (∃ s1, out = (<[sid := s1]> reg, file, ServerError)
                ∧ messages s1 = messages s ∧ id s1 = id s
                ∧ difficultyTracker s1 = difficultyTracker s
                ∧ (gen = None → s1 = s)
                ∧ (∀ fields, gen = Some fields → terminated s1))
    as (s1 & Hout & Hm & Hi & Ht & Hnone & Hsome).
  { unfold out.
    destruct (end_cases reg file (JStr sid) t0 t1 gen write_ok)
      as [[_ Hbad] | [[_ Hnot] | (sid' & s' & [= <-] & Hs' & ->)]].
    - congruence.
    - rewrite (Hnot sid eq_refl) in Hs. discriminate.
    - assert (s' = s) as -> by congruence.
      destruct gen as [fields|].
      + destruct Hfail as [[=] | ->].
        eexists. split; [reflexivity|]. cbn.
        repeat split; try done. all: intros; unfold terminated; cbn; eauto.
      + exists s. rewrite (insert_id _ _ _ Hs). repeat split; try done. }
  rewrite Hout. cbn [fst snd].
  split; [reflexivity|]. split; [reflexivity|].
  split; [intros Hgen; rewrite (Hnone Hgen); by apply insert_id|].
  split.
  { intros fields Hgen. exists s1. split; [apply lookup_insert_eq|].
    split; [by eapply Hsome|]. by split. }
  intros t0' t1' fields'.
  destruct (end_cases (<[sid := s1]> reg) file (JStr sid) t0' t1' (Some fields') true)
    as [[_ Hbad] | [[_ Hnot] | (sid' & s' & [= <-] & Hs' & ->)]].
  - congruence.
  - specialize (Hnot sid eq_refl). by rewrite lookup_insert_eq in Hnot.
  - rewrite lookup_insert_eq in Hs'. injection Hs' as <-.
    eexists _, _. rewrite delete_insert_eq. split; [reflexivity|].
    cbn. by repeat split.
Qed.

Lemma failed_end_can_be_retried_witness :
  let out := end_interview started_registry None (JStr "s1") 5 6
               (Some [("score", JNum 70)]) false in
  snd out = ServerError
  ∧ ∃ sm stored,
      end_interview (fst (fst out)) (snd (fst out)) (JStr "s1") 7 8
        (Some [("score", JNum 75)]) true
      = (delete "s1" started_registry, Some [stored], EndOk sm)
      ∧ endTime stored = Some 8.
Proof.
  intros out.
  assert (∃ s, started_registry !! "s1" = Some s) as [s Hs].
  { eexists. vm_compute. reflexivity. }
  destruct (failed_end_can_be_retried started_registry None "s1" s 5 6
              (Some [("score", JNum 70)]) false Hs)
    as (Herr & _ & _ & _ & Hretry).
  - discriminate.
  - by right.
  - split; [exact Herr|].
    destruct (Hretry 7 8 [("score", JNum 75)])
      as (sm & stored & Hend & _ & _ & Htime & _).
    exists sm, stored. split; [exact Hend | exact Htime].
Defined.

(** X14. A failed Start leaves a session behind.  When the gate is open and
    the generation of the opening question fails, the caller is answered
    with the generic failure, which carries no session id, yet the session
    has been registered: it is in the registry under the fresh id, running,
    with an empty transcript and no question counted, and it stays there,
    unchanged, through any run of requests that do not name that id. *)
Theorem failed_start_leaves_a_session (reg : gmap string Session)
    (file : option (list Session)) (sid : string)
    (t0 t1 : Z) (course name selected topicList personaFound : jsval)
    (role : option Role) (reqs : list Request) :
  Forall (fun req => request_id req ≠ Some sid) reqs →
  let out :=
    handle (reg, file)
      (ReqStart (GateOpen course name selected topicList personaFound role)
         sid t0 t1 None) in
  snd out = ServerError
  ∧ ∃ s,
      fst (fst (serve (fst out) reqs)) !! sid = Some s
      ∧ running s
      ∧ messages s = []
      ∧ questionCount (metrics s) = 0
      ∧ currentLevel (difficultyTracker s) = initialLevel role.
Proof.
  intros Hreqs out. unfold out. cbn [handle fst snd].
  rewrite start_open. cbn [fst snd]. split; [reflexivity|].
  eexists. split.
  - assert (∀ reqs st, Forall (fun req => request_id req ≠ Some sid) reqs →
              fst (fst (serve st reqs)) !! sid = fst st !! sid) as Hkeep.
    { clear. induction reqs as [|req reqs IH]; intros st Hreqs; [reflexivity|].
      apply Forall_cons in Hreqs as [Hreq Hreqs].
      pose proof (handle_other_sessions st req sid Hreq) as Hstep.
      cbn [serve]. destruct (handle st req) as [st1 r].
      specialize (IH st1 Hreqs). destruct (serve st1 reqs) as [st2 rs].
      cbn [fst] in *. by rewrite IH. }
    rewrite (Hkeep reqs _ Hreqs). cbn [fst]. apply lookup_insert_eq.
  - by cbn.
Qed.

Lemma failed_start_leaves_a_session_witness :
  let out :=
    handle (∅, None)
      (ReqStart (GateOpen (JStr "c1") (JStr "Course") (JStr "random") (JArr [])
                   JUndefined None) "s9" 0 1 None) in
  snd out = ServerError
  ∧ ∃ s,
      fst (fst (serve (fst out)
                  [ReqRespond (JStr "s1") (JStr "Hi") (JBool false) 2 3 None]))
        !! "s9" = Some s
      ∧ messages s = [].
Proof.
  intros out.
  destruct (failed_start_leaves_a_session ∅ None "s9" 0 1 (JStr "c1")
              (JStr "Course") (JStr "random") (JArr []) JUndefined None
              [ReqRespond (JStr "s1") (JStr "Hi") (JBool false) 2 3 None])
    as (Herr & s & Hs & _ & Hm & _).
  - repeat constructor. discriminate.
  - split; [exact Herr|]. exists s. split; [exact Hs | exact Hm].
Defined.

Lemma label_throws_valid (skipped : jsval) (response : jsobj) (a : string) :
  valid_assessment (obj_get response "assessmentOfLastAnswer") = Some a →
  label_throws skipped response = false.
Proof.
  intros Hvalid. unfold label_throws. rewrite Hvalid.
  rewrite bool_decide_eq_true_2 by eauto. cbn [negb].
  by rewrite andb_false_r.
Qed.

(** X15. Two excellent answers raise the level.  On an active session below
    level 4 whose window is empty, two answered (not skipped) Respond turns
    in a row for which the model returns the label excellent end with the
    level one higher: the first answer still reports the old level, the
    second reports the new one, the history has gained exactly one record
    from the old level to the new one, and the window is empty again. *)
Theorem two_excellent_answers_raise_the_level (reg : gmap string Session)
    (sid : string) (s : Session) (message1 message2 skipped1 skipped2 : jsval)
    (ta tb tc td : Z) (reply1 reply2 : jsobj) (level : Z) :
  reg !! sid = Some s → sid ≠ "" →
  truthy message1 = true → truthy message2 = true →
  truthy skipped1 = false → truthy skipped2 = false →
  obj_get reply1 "assessmentOfLastAnswer" = JStr "excellent" →
  obj_get reply2 "assessmentOfLastAnswer" = JStr "excellent" →
  recentAssessments (difficultyTracker s) = [] →
  currentLevel (difficultyTracker s) = Numeric level →
  1 ≤ level < 4 →
  let out1 := respond reg (JStr sid) message1 skipped1 ta tb (Some reply1) in
  let out2 := respond (fst out1) (JStr sid) message2 skipped2 tc td (Some reply2) in
  (∃ m topic a mt,
     snd out1 = RespondOk m topic a level (levelNames level) mt)
  ∧ (∃ m topic a mt,
       snd out2 = RespondOk m topic a (level + 1) (levelNames (level + 1)) mt)
  ∧ ∃ s2,
      fst out2 !! sid = Some s2
      ∧ difficultyTracker s2
        = {| currentLevel := level + 1;
             recentAssessments := [];
             adjustmentHistory :=
               adjustmentHistory (difficultyTracker s) ++
                 [ {| timestamp := td; fromLevel := level; toLevel := level + 1;
                      reason := reason_increase |} ] |}.
Proof.
  intros Hs Hsid Hm1 Hm2 Hk1 Hk2 Ha1 Ha2 Hempty Hlevel Hlvl out1 out2.
  assert (label_throws skipped1 reply1 = false) as Hl1.
  { apply (label_throws_valid _ _ "excellent"). by rewrite Ha1. }
  assert (label_throws skipped2 reply2 = false) as Hl2.
  { apply (label_throws_valid _ _ "excellent"). by rewrite Ha2. }
  unfold out2, out1.
  rewrite (respond_turn reg sid s message1 skipped1 ta tb (Some reply1) Hs Hsid Hm1).
  cbn [fst snd].
  rewrite (respond_turn _ sid _ message2 skipped2 tc td (Some reply2)
             (lookup_insert_eq _ _ _) Hsid Hm2).
  cbn [fst snd].
  (* the tracker after the first answer *)
  set (s1 := turn_session s message1 skipped1 ta tb (Some reply1)).
  assert (difficultyTracker s1
          = {| currentLevel := level; recentAssessments := ["excellent"];
               adjustmentHistory := adjustmentHistory (difficultyTracker s) |})
    as Ht1.
  { unfold s1, turn_session. rewrite Hk1, Hl1. cbn [andb].
    rewrite difficultyTracker_set_messages.
    destruct (counted_keeps
                (assessed (set_messages s
                             (messages s ++ [user_message message1 skipped1 ta]))
                   skipped1 tb reply1) reply1) as (_ & -> & _).
    unfold assessed. rewrite Ha1, Hk1. cbn.
    rewrite bool_decide_eq_true_2 by (apply (bool_decide_unpack _); exact I).
    cbn [difficultyTracker set_difficultyTracker].
    rewrite (record_assessment_numeric _ _ _ level Hlevel).
    unfold checkDifficultyAdjustment. rewrite Hempty. by cbn. }
  assert (difficultyTracker (turn_session s1 message2 skipped2 tc td (Some reply2))
          = {| currentLevel := level + 1; recentAssessments := [];
               adjustmentHistory :=
                 adjustmentHistory (difficultyTracker s) ++
                   [ {| timestamp := td; fromLevel := level; toLevel := level + 1;
                        reason := reason_increase |} ] |}) as Ht2.
  { unfold turn_session. rewrite Hk2, Hl2. cbn [andb].
    rewrite difficultyTracker_set_messages.
    destruct (counted_keeps
                (assessed (set_messages s1
                             (messages s1 ++ [user_message message2 skipped2 tc]))
                   skipped2 td reply2) reply2) as (_ & -> & _).
    unfold assessed. rewrite Ha2, Hk2. cbn [truthy String.eqb Ascii.eqb Bool.eqb
      negb andb valid_assessment].
    rewrite bool_decide_eq_true_2 by (apply (bool_decide_unpack _); exact I).
    cbn [set_difficultyTracker difficultyTracker set_messages].
    rewrite Ht1. erewrite record_assessment_numeric by reflexivity.
    cbv zeta. erewrite checkDifficultyAdjustment_rule by reflexivity.
    cbn [recentAssessments currentLevel
      push_assessment app length Nat.ltb Nat.leb adjustmentHistory].
    rewrite bool_decide_eq_true_2.
    2: { split; [unfold increase_condition; vm_compute; lia | lia]. }
    replace (Z.max 1 (Z.min 4 (level + 1))) with (level + 1) by lia.
    reflexivity. }
  split; [|split].
  - unfold turn_response. rewrite Hk1, Hl1. cbn [andb].
    eexists _, _, _, _. f_equal.
    + unfold assessed. rewrite Ha1, Hk1. cbn.
      rewrite bool_decide_eq_true_2 by (apply (bool_decide_unpack _); exact I).
      cbn [difficultyTracker set_difficultyTracker].
      rewrite (record_assessment_numeric _ _ _ level Hlevel).
      unfold checkDifficultyAdjustment. rewrite Hempty. by cbn.
    + unfold assessed. rewrite Ha1, Hk1. cbn.
      rewrite bool_decide_eq_true_2 by (apply (bool_decide_unpack _); exact I).
      cbn [difficultyTracker set_difficultyTracker].
      rewrite (record_assessment_numeric _ _ _ level Hlevel).
      unfold checkDifficultyAdjustment. rewrite Hempty. by cbn.
  - assert (difficultyTracker
              (assessed (set_messages s1
                           (messages s1 ++ [user_message message2 skipped2 tc]))
                 skipped2 td reply2)
            = difficultyTracker
                (turn_session s1 message2 skipped2 tc td (Some reply2))) as Heq.
    { unfold turn_session. rewrite Hk2, Hl2. cbn [andb].
      rewrite difficultyTracker_set_messages.
      by destruct (counted_keeps
                     (assessed (set_messages s1
                                  (messages s1 ++ [user_message message2 skipped2 tc]))
                        skipped2 td reply2) reply2) as (_ & -> & _). }
    unfold turn_response. rewrite Hk2, Hl2. cbn [andb].
    eexists _, _, _, _. rewrite Heq, Ht2. reflexivity.
  - eexists. split; [apply lookup_insert_eq | exact Ht2].
Qed.

Lemma two_excellent_answers_raise_the_level_witness :
  let reg : gmap string Session := {[ "s1" := fresh_session "s1" 1 ]} in
  let reply := [("message", JStr "Good. Next?");
                ("assessmentOfLastAnswer", JStr "excellent")] in
  let out1 := respond reg (JStr "s1") (JStr "First answer") JUndefined 1 2
                (Some reply) in
  let out2 := respond (fst out1) (JStr "s1") (JStr "Second answer") JUndefined 3 4
                (Some reply) in
  ∃ m topic a mt, snd out2 = RespondOk m topic a 2 "Mid-Level" mt.
Proof.
  intros reg reply out1 out2.
  destruct (two_excellent_answers_raise_the_level reg "s1" (fresh_session "s1" 1)
              (JStr "First answer") (JStr "Second answer") JUndefined JUndefined
              1 2 3 4 reply reply 1)
    as (_ & Hsecond & _); try reflexivity; try discriminate.
  - lia.
  - exact Hsecond.
Defined.

(** ** The metrics *)

Lemma max_topic_skips_fold (all skips : list (string * SkipCount)) :
  ∀ acc : TopicSkipInfo,
    (∀ entry, entry ∈ skips → entry ∈ all) →
    0 ≤ maxSkips acc →
    match topicId acc with
    | Some k => (k, Counted (maxSkips acc)) ∈ all ∧ 0 < maxSkips acc
    | None => maxSkips acc = 0
    end →
    let result :=
      fold_left
        (fun acc entry =>
           if exceeds (snd entry) (maxSkips acc)
           then {| maxSkips := count_value (snd entry);
                   topicId := Some (fst entry) |}
           else acc)
        skips acc in
    maxSkips acc ≤ maxSkips result
    ∧ (∀ k c, (k, Counted c) ∈ skips → c ≤ maxSkips result)
    ∧ match topicId result with
      | Some k => (k, Counted (maxSkips result)) ∈ all ∧ 0 < maxSkips result
      | None => maxSkips result = 0
      end.
Proof.
  induction skips as [|[k c] skips IH]; intros acc Hsub Hpos Hacc; simpl.
  - split; [lia|]. split; [|exact Hacc]. intros k c Hin. by apply elem_of_nil in Hin.
  - set (acc' := if exceeds c (maxSkips acc)
                 then {| maxSkips := count_value c; topicId := Some k |} else acc).
    assert (maxSkips acc ≤ maxSkips acc'
            ∧ (∀ n, c = Counted n → n ≤ maxSkips acc')
            ∧ 0 ≤ maxSkips acc'
            ∧ match topicId acc' with
              | Some k' => (k', Counted (maxSkips acc')) ∈ all ∧ 0 < maxSkips acc'
              | None => maxSkips acc' = 0
              end) as (H1 & H2 & H3 & H4).
    { unfold acc'. destruct c as [n|]; cbn [exceeds count_value].
      - destruct (Z.ltb_spec (maxSkips acc) n); simpl.
        + repeat split; try lia.
          * by intros ? [= <-].
          * apply Hsub. by left.
        + repeat split; try lia; try exact Hacc. intros ? [= <-]. lia.
      - repeat split; try lia; try exact Hacc. by intros ? [=]. }
    destruct (IH acc') as (Hle & Hall & Hres); try done.
    { intros entry Hin. apply Hsub. by right. }
    split; [lia|]. split; [|exact Hres].
    intros k' c' Hin. apply elem_of_cons in Hin as [Heq | Hin].
    + injection Heq as _ <-. specialize (H2 c' eq_refl). lia.
    + by eapply Hall.
Qed.

(** X16. [getMaxTopicSkips] returns the largest per-topic count of the
    session and a topic that has it: no topic has a larger count; when a
    topic is named it really has that count, which is positive; and no topic
    is named exactly when the maximum is 0, that is for an unknown session,
    a session without counts, or counts that are all at most 0.  (A value
    that is not a number is passed over.) *)
Theorem max_topic_skips_is_the_maximum (reg : gmap string Session) (sid : string) :
  let skips :=
    match reg !! sid with
    | Some s => default [] (skipsPerTopic (metrics s))
    | None => []
    end in
  let info := getMaxTopicSkips reg sid in
  (∀ topic count, (topic, Counted count) ∈ skips → count ≤ maxSkips info)
  ∧ 0 ≤ maxSkips info
  ∧ (∀ topic, topicId info = Some topic →
       (topic, Counted (maxSkips info)) ∈ skips ∧ 0 < maxSkips info)
  ∧ (topicId info = None ↔ maxSkips info = 0).
Proof.
  intros skips info.
  assert (info = max_topic_skips skips) as ->.
  { unfold info, skips, getMaxTopicSkips.
    destruct (reg !! sid) as [s|]; [|reflexivity].
    by destruct (skipsPerTopic (metrics s)). }
  destruct (max_topic_skips_fold skips skips {| maxSkips := 0; topicId := None |})
    as (Hpos & Hall & Hres); simpl; try done.
  fold (max_topic_skips skips) in Hpos, Hall, Hres. simpl in Hpos.
  split; [intros topic count Hin; exact (Hall _ _ Hin)|].
  split; [exact Hpos|].
  destruct (topicId (max_topic_skips skips)) as [k|].
  - destruct Hres as [Hin Hgt]. split.
    + by intros topic [= <-].
    + split; [discriminate | lia].
  - split; [by intros ? [=] | by split].
Qed.

(** X17. The duration [getSessionMetrics] reports is the elapsed time in
    whole minutes and whole seconds: for a session of the registry read at
    or after its start, the seconds are in 0..59, the minutes are not
    negative, and minutes and seconds together are the elapsed milliseconds
    rounded down to the second; the two counts are those of the session. *)
Theorem duration_is_elapsed_time (reg : gmap string Session) (sid : string)
    (s : Session) (now : Z) :
  reg !! sid = Some s →
  startTime s ≤ now →
  ∃ m,
    getSessionMetrics reg sid now = Some m
    ∧ sm_questionCount m = questionCount (metrics s)
    ∧ sm_skippedCount m = skippedCount (metrics s)
    ∧ 0 ≤ minutes (sm_duration m)
    ∧ 0 ≤ seconds (sm_duration m) < 60
    ∧ 60000 * minutes (sm_duration m) + 1000 * seconds (sm_duration m)
      ≤ now - startTime s
      < 60000 * minutes (sm_duration m) + 1000 * seconds (sm_duration m) + 1000.
Proof.
  intros Hs Hnow. unfold getSessionMetrics. rewrite Hs.
  eexists. split; [reflexivity|]. cbn.
  split; [reflexivity|]. split; [reflexivity|].
  set (d := now - startTime s). assert (0 ≤ d) as Hd by (unfold d; lia).
  rewrite Z.rem_mod_nonneg by lia.
  pose proof (Z.div_mod d 60000 ltac:(lia)) as Hdm.
  pose proof (Z.mod_pos_bound d 60000 ltac:(lia)) as Hm.
  pose proof (Z.div_mod (d mod 60000) 1000 ltac:(lia)) as Hdm2.
  pose proof (Z.mod_pos_bound (d mod 60000) 1000 ltac:(lia)) as Hm2.
  assert (0 ≤ d / 60000) by (apply Z.div_pos; lia).
  assert (0 ≤ d mod 60000 / 1000) by (apply Z.div_pos; lia).
  repeat split; lia.
Qed.

Lemma duration_is_elapsed_time_witness :
  ∃ m,
    getSessionMetrics started_registry "s1" 125500 = Some m
    ∧ minutes (sm_duration m) = 2 ∧ seconds (sm_duration m) = 5.
Proof.
  assert (∃ s, started_registry !! "s1" = Some s ∧ startTime s = 0) as (s & Hs & Ht).
  { eexists. split; vm_compute; reflexivity. }
  destruct (duration_is_elapsed_time started_registry "s1" s 125500 Hs)
    as (m & Hm & _ & _ & Hmin & Hsec & Hsum).
  - rewrite Ht. lia.
  - exists m. split; [exact Hm|]. rewrite Ht in Hsum. lia.
Defined.

(** ** The stored sessions *)



Lemma filter_filter_neg {A : Type} (p : A → bool) (l : list A) :
  List.filter p (List.filter (fun x => negb (p x)) l) = [].
Proof.
  induction l as [|x l IH]; [reflexivity|]. simpl.
  destruct (p x) eqn:Hp; simpl; [exact IH|]. by rewrite Hp.
Qed.

Lemma filter_filter_other {A : Type} (p q : A → bool) (l : list A) :
  (∀ x, p x = true → q x = false) →
  List.filter p (List.filter (fun x => negb (q x)) l) = List.filter p l.
Proof.
  intros Hpq. induction l as [|x l IH]; [reflexivity|]. simpl.
  destruct (q x) eqn:Hq; simpl.
  - destruct (p x) eqn:Hp; [|exact IH]. rewrite (Hpq x Hp) in Hq. discriminate.
  - by rewrite IH.
Qed.

(** X19. Clearing the interviews of a course removes them and nothing else.
    After [clearInterviewsByCourse] has written, [getInterviewsByCourse]
    finds no session of that course, finds for every other course exactly
    the sessions it found before, in the same order, and the store holds no
    more sessions than before; when the write fails the store is
    unchanged. *)
Theorem clearing_a_course (file : option (list Session)) (course : string) :
  let cleared := fst (clearInterviewsByCourse file course true) in
  getInterviewsByCourse cleared course = []
  ∧ (∀ other, other ≠ course →
       getInterviewsByCourse cleared other = getInterviewsByCourse file other)
  ∧ (length (getInterviews cleared) ≤ length (getInterviews file))%nat
  ∧ clearInterviewsByCourse file course false = (file, Thrown).
Proof.
  intros cleared. unfold cleared, clearInterviewsByCourse, getInterviewsByCourse.
  cbn [fst getInterviews default].
  split; [apply filter_filter_neg|].
  split.
  - intros other Hother. apply filter_filter_other.
    intros s Hs. unfold is_string in *.
    destruct (courseId s); try discriminate.
    apply String.eqb_eq in Hs as ->.
    destruct (String.eqb_spec other course); [done | reflexivity].
  - split; [|reflexivity]. apply List.filter_length_le.
Qed.

(** ** Eligibility and the gate of Start *)

Lemma progress_set_keys (entries : list (string * jsval)) (tid : string)
    (name : jsval) (k : string) :
  k ∈ map fst (progress_set entries tid name) ↔ k = tid ∨ k ∈ map fst entries.
Proof.
  induction entries as [|[k0 v0] entries IH]; simpl.
  - rewrite list_elem_of_singleton, elem_of_nil. tauto.
  - destruct (String.eqb_spec k0 tid) as [->|Hne]; simpl.
    + rewrite !elem_of_cons. tauto.
    + rewrite !elem_of_cons, IH. tauto.
Qed.

Lemma progress_keys_from (topics : list Topic) :
  ∀ (acc : list (string * jsval)) (k : string),
    k ∈ map fst
          (fold_left (fun acc t => progress_set acc (topic_id t) (topic_name t))
             topics acc)
    ↔ k ∈ map fst acc ∨ k ∈ map topic_id topics.
Proof.
  induction topics as [|t topics IH]; intros acc k; simpl.
  - rewrite elem_of_nil. tauto.
  - rewrite IH, progress_set_keys, elem_of_cons. tauto.
Qed.

Lemma progress_keys_ids (topics : list Topic) (k : string) :
  k ∈ map fst (progress_keys topics) ↔ k ∈ map topic_id topics.
Proof.
  unfold progress_keys. rewrite progress_keys_from. simpl.
  rewrite elem_of_nil. tauto.
Qed.

(** Some topic of the course is admitted exactly when the listing of
    [/eligibility] has an eligible entry. *)
Lemma admitted_topic_listed (minQ : Z) (performance : list PerformanceRow)
    (topics : list Topic) :
  minQ ≠ 0 →
  (0 <? length (List.filter meetsRequirement
                  (map (topic_progress minQ performance) (progress_keys topics))))%nat
  = negb (length (List.filter (topic_admitted minQ performance) topics) =? 0)%nat.
Proof.
  intros Hmin.
  assert (∀ tid, ((minQ =? 0) || (minQ <=? topic_count performance tid))
                 = (minQ <=? topic_count performance tid)) as Hmeets.
  { intros tid. by destruct (Z.eqb_spec minQ 0). }
  apply eq_true_iff_eq.
  rewrite Nat.ltb_lt, negb_true_iff, Nat.eqb_neq.
  split.
  - intros Hsome.
    destruct (List.filter meetsRequirement _) as [|p l] eqn:Hfilter;
      [simpl in Hsome; lia|].
    assert (In p (p :: l)) as Hin by (by left).
    rewrite <- Hfilter in Hin. apply List.filter_In in Hin as [Hin Hp].
    apply List.in_map_iff in Hin as ([k name] & <- & Hin).
    assert (k ∈ map fst (progress_keys topics)) as Hk.
    { apply list_elem_of_In, List.in_map_iff. by exists (k, name). }
    apply progress_keys_ids, list_elem_of_In, List.in_map_iff in Hk
      as (t & <- & Ht).
    assert (In t (List.filter (topic_admitted minQ performance) topics)) as Hadm.
    { apply List.filter_In. split; [exact Ht|]. exact Hp. }
    destruct (List.filter (topic_admitted minQ performance) topics);
      [destruct Hadm | simpl; lia].
  - intros Hsome.
    destruct (List.filter (topic_admitted minQ performance) topics) as [|t l]
      eqn:Hfilter; [done|].
    assert (In t (t :: l)) as Hin by (by left).
    rewrite <- Hfilter in Hin. apply List.filter_In in Hin as [Hin Ht].
    assert (topic_id t ∈ map fst (progress_keys topics)) as Hk.
    { apply progress_keys_ids, list_elem_of_In, List.in_map. exact Hin. }
    apply list_elem_of_In, List.in_map_iff in Hk as ([k name] & Hkey & Hk).
    simpl in Hkey. subst k.
    assert (In (topic_progress minQ performance (topic_id t, name))
              (List.filter meetsRequirement
                 (map (topic_progress minQ performance) (progress_keys topics))))
      as Hlisted.
    { apply List.filter_In. split; [by apply List.in_map | exact Ht]. }
    destruct (List.filter meetsRequirement _); [destruct Hlisted | simpl; lia].
Qed.

Lemma admitted_all (performance : list PerformanceRow) (topics : list Topic) :
  List.filter (topic_admitted 0 performance) topics = topics.
Proof. induction topics as [|t topics IH]; simpl; by rewrite ?IH. Qed.

Lemma filter_own_ids (admitted : list Topic) (topics : list Topic)
    (p : Topic → bool) :
  admitted = List.filter p topics →
  (∀ t t', topic_id t = topic_id t' → p t = p t') →
  List.filter (fun t => existsb (String.eqb (topic_id t)) (map topic_id admitted))
    topics = admitted.
Proof.
  intros -> Hid. apply List.filter_ext_in. intros t Ht.
  destruct (p t) eqn:Hp.
  - apply existsb_exists. exists (topic_id t).
    split; [|apply String.eqb_refl].
    apply List.in_map, List.filter_In. by split.
  - apply not_true_is_false. intros Hex.
    apply existsb_exists in Hex as (k & Hk & Heq).
    apply String.eqb_eq in Heq. subst k.
    apply List.in_map_iff in Hk as (t' & Hsame & Ht').
    apply List.filter_In in Ht' as [_ Hp']. rewrite (Hid t' t Hsame) in Hp'.
    congruence.
Qed.

(** X20. Eligibility and Start agree.  For a course that has at least one
    topic and a minimum score setting that is not negative, [/eligibility]
    reports the learner eligible exactly when [/start] with a random topic
    selection, on the same data, opens its gate; the session then gets all
    the topics the learner has practised enough, and never an empty list. *)
Theorem eligibility_agrees_with_start (courseId selectedTopics personaId roleId : jsval)
    (c : Course) (settings : Settings) (today : Z)
    (performance : list PerformanceRow) (personaLookup : jsval)
    (roleLookup : option Role) :
  truthy courseId = true →
  selectedTopics = JStr "random" ∨ truthy selectedTopics = false →
  course_topics c ≠ [] →
  0 ≤ setting_or (interview_min_score settings) 0 →
  let admitted :=
    List.filter
      (topic_admitted (setting_or (interview_min_questions settings) 0) performance)
      (course_topics c) in
  ∃ report,
    eligibility (Some c) settings today performance = Some report
    ∧ (eligible report = true →
       admitted ≠ []
       ∧ start_gate courseId selectedTopics personaId roleId (Some c) settings
           today performance personaLookup roleLookup
         = GateOpen courseId (course_name c) selectedTopics
             (JArr (map topic_value admitted))
             (if truthy personaId then personaLookup else JNull)
             (if truthy roleId then roleLookup else None))
    ∧ (eligible report = false →
       start_gate courseId selectedTopics personaId roleId (Some c) settings
         today performance personaLookup roleLookup
       = GateClosed 403).
Proof.
  intros Hcourse Hrandom Htopics Hscore admitted.
  eexists. split; [reflexivity|]. cbn [eligible].
  unfold start_gate. rewrite Hcourse. cbn [negb].
  set (minQ := setting_or (interview_min_questions settings) 0) in *.
  set (minScore := setting_or (interview_min_score settings) 0) in *.
  set (dailyLimit := setting_or (interview_daily_question_limit settings) 50).
  fold admitted. rewrite length_map.
  assert (is_string selectedTopics "random" || negb (truthy selectedTopics) = true)
    as ->.
  { destruct Hrandom as [-> | ->]; [reflexivity | apply orb_true_r]. }
  (* the three requirements, as [/eligibility] and as [/start] test them *)
  assert (((minQ =? 0)
           || (0 <? length (List.filter meetsRequirement
                              (map (topic_progress minQ performance)
                                 (progress_keys (course_topics c)))))%nat)
          = negb (length admitted =? 0)%nat) as ->.
  { destruct (Z.eqb_spec minQ 0) as [Hzero|Hmin].
    - unfold admitted. rewrite Hzero, admitted_all. cbn [orb].
      destruct (course_topics c); [done | reflexivity].
    - cbn [orb]. by apply admitted_topic_listed. }
  assert (((minScore =? 0) || (minScore <=? average_score performance))
          = negb ((0 <? minScore) && (average_score performance <? minScore)))
    as ->.
  { destruct (Z.eqb_spec minScore 0), (Z.leb_spec minScore (average_score performance)),
      (Z.ltb_spec 0 minScore), (Z.ltb_spec (average_score performance) minScore);
      simpl; try reflexivity; lia. }
  assert ((today <? dailyLimit) = negb (dailyLimit <=? today)) as ->.
  { destruct (Z.ltb_spec today dailyLimit), (Z.leb_spec dailyLimit today);
      simpl; try reflexivity; lia. }
  destruct (dailyLimit <=? today); cbn [negb andb].
  { rewrite !andb_false_r. split; [discriminate | reflexivity]. }
  destruct (length admitted =? 0)%nat eqn:Hnone; cbn [negb andb].
  { split; [discriminate | reflexivity]. }
  destruct ((0 <? minScore) && (average_score performance <? minScore));
    cbn [negb andb].
  { split; [discriminate | reflexivity]. }
  split; [|discriminate]. intros _.
  split.
  - intros Hempty. rewrite Hempty in Hnone. discriminate.
  - do 3 f_equal.
    apply (filter_own_ids admitted (course_topics c)
             (topic_admitted minQ performance)); [reflexivity|].
    intros t t' Hid. unfold topic_admitted. by rewrite Hid.
Qed.

Lemma eligibility_agrees_with_start_witness :
  let c := {| course_name := JStr "JavaScript";
              course_topics :=
                [ {| topic_id := "closures"; topic_name := JStr "Closures";
                     topic_more := [] |};
                  {| topic_id := "promises"; topic_name := JStr "Promises";
                     topic_more := [] |} ] |} in
  let settings := {| interview_min_questions := Some 2;
                     interview_min_score := Some 60;
                     interview_daily_question_limit := None |} in
  let performance := [ {| row_topic := "closures"; row_score := 80 |};
                       {| row_topic := "closures"; row_score := 55 |} ] in
  ∃ report,
    eligibility (Some c) settings 10 performance = Some report
    ∧ eligible report = true
    ∧ start_gate (JStr "js") (JStr "random") JUndefined JUndefined (Some c)
        settings 10 performance JUndefined None
      = GateOpen (JStr "js") (JStr "JavaScript") (JStr "random")
          (JArr [JObj [("id", JStr "closures"); ("name", JStr "Closures")]])
          JNull None.
Proof.
  intros c settings performance.
  destruct (eligibility_agrees_with_start (JStr "js") (JStr "random") JUndefined
              JUndefined c settings 10 performance JUndefined None)
    as (report & Hreport & Hyes & _).
  - reflexivity.
  - by left.
  - discriminate.
  - simpl. lia.
  - exists report. split; [exact Hreport|].
    assert (eligible report = true) as Heligible.
    { vm_compute in Hreport. by injection Hreport as <-. }
    split; [exact Heligible|]. by destruct (Hyes Heligible) as [_ ->].
Defined.

(** X21. A course without topics is where they part: when no practice is
    required, the score requirement is met and the daily limit is not
    reached, [/eligibility] reports the learner eligible for a course that
    has no topic, while [/start] on the same data refuses with 403,
    whatever topics are asked for. *)
Theorem topicless_course_is_eligible_but_refused
    (courseId selectedTopics personaId roleId : jsval) (c : Course)
    (settings : Settings) (today : Z) (performance : list PerformanceRow)
    (personaLookup : jsval) (roleLookup : option Role) :
  truthy courseId = true →
  course_topics c = [] →
  setting_or (interview_min_questions settings) 0 = 0 →
  setting_or (interview_min_score settings) 0 = 0 →
  today < setting_or (interview_daily_question_limit settings) 50 →
  (∃ report,
     eligibility (Some c) settings today performance = Some report
     ∧ eligible report = true)
  ∧ start_gate courseId selectedTopics personaId roleId (Some c) settings today
      performance personaLookup roleLookup
    = GateClosed 403.
Proof.
  intros Hcourse Htopics HminQ HminScore Hlimit. split.
  - eexists. split; [reflexivity|]. cbn [eligible].
    rewrite HminQ, HminScore. cbn [Z.eqb orb andb].
    by apply Z.ltb_lt.
  - unfold start_gate. rewrite Hcourse, Htopics. cbn [negb].
    destruct (Z.leb_spec (setting_or (interview_daily_question_limit settings) 50)
                today); [lia | reflexivity].
Qed.

Lemma topicless_course_is_eligible_but_refused_witness :
  let c := {| course_name := JStr "Empty"; course_topics := [] |} in
  let settings := {| interview_min_questions := None;
                     interview_min_score := None;
                     interview_daily_question_limit := None |} in
  start_gate (JStr "empty") (JStr "random") JUndefined JUndefined (Some c)
    settings 0 [] JUndefined None
  = GateClosed 403.
Proof.
  intros c settings.
  apply (topicless_course_is_eligible_but_refused (JStr "empty") (JStr "random")
           JUndefined JUndefined c settings 0 [] JUndefined None);
    try reflexivity.
Defined.

Lemma admitted_by_id (minQ : Z) (performance : list PerformanceRow)
    (topics : list Topic) (t : Topic) :
  existsb (String.eqb (topic_id t))
    (map topic_id (List.filter (topic_admitted minQ performance) topics)) = true →
  topic_admitted minQ performance t = true.
Proof.
  intros Hex. apply existsb_exists in Hex as (k & Hk & Heq).
  apply String.eqb_eq in Heq. subst k.
  apply List.in_map_iff in Hk as (t' & Hsame & Ht').
  apply List.filter_In in Ht' as [_ Hadm].
  unfold topic_admitted in *. by rewrite <- Hsame.
Qed.

(** X22. What an open gate guarantees.  Whenever [/start] gets past its
    checks, the course was found, the daily limit is not reached, and the
    topics handed to the session are a non-empty list of topics of that
    course, each of which the learner has practised enough (or no practice
    is required), and each of which is among the selected ones when the
    request selects topics. *)
Theorem open_gate_guarantees (courseId selectedTopics personaId roleId : jsval)
    (course : option Course) (settings : Settings) (today : Z)
    (performance : list PerformanceRow) (personaLookup : jsval)
    (roleLookup : option Role)
    (cid name selection topicList personaGiven : jsval) (roleGiven : option Role) :
  start_gate courseId selectedTopics personaId roleId course settings today
    performance personaLookup roleLookup
  = GateOpen cid name selection topicList personaGiven roleGiven →
  ∃ c topics,
    course = Some c
    ∧ cid = courseId ∧ name = course_name c ∧ selection = selectedTopics
    ∧ today < setting_or (interview_daily_question_limit settings) 50
    ∧ topicList = JArr (map topic_value topics)
    ∧ topics ≠ []
    ∧ ∀ t, In t topics →
        In t (course_topics c)
        ∧ topic_admitted (setting_or (interview_min_questions settings) 0)
            performance t = true
        ∧ ∀ selected, selectedTopics = JArr selected →
            includes_id selected (topic_id t) = true.
Proof.
  unfold start_gate.
  destruct (truthy courseId); cbn [negb]; [|discriminate].
  destruct course as [c|]; [|discriminate].
  set (minQ := setting_or (interview_min_questions settings) 0).
  set (dailyLimit := setting_or (interview_daily_question_limit settings) 50).
  destruct (Z.leb_spec dailyLimit today) as [|Hlimit]; [discriminate|].
  rewrite length_map.
  set (admitted := List.filter (topic_admitted minQ performance) (course_topics c)).
  destruct (length admitted =? 0)%nat eqn:Hsome; [discriminate|].
  destruct (_ && _); [discriminate|].
  destruct (is_string selectedTopics "random" || negb (truthy selectedTopics))
    eqn:Hrandom.
  - intros [= <- <- <- <- <- <-].
    exists c, admitted. repeat split; try done.
    + do 2 f_equal.
      apply (filter_own_ids admitted (course_topics c)
               (topic_admitted minQ performance)); [reflexivity|].
      intros t t' Hid. unfold topic_admitted. by rewrite Hid.
    + intros Hempty. rewrite Hempty in Hsome. discriminate.
    + by apply List.filter_In in H as [? ?].
    + by apply List.filter_In in H as [? ?].
    + intros selected ->. simpl in Hrandom. discriminate.
  - destruct selectedTopics as [| | | | |selected|]; try discriminate.
    set (topics := List.filter
                     (fun t => includes_id selected (topic_id t)
                               && existsb (String.eqb (topic_id t))
                                    (map topic_id admitted))
                     (course_topics c)).
    destruct (_ && _); [discriminate|].
    destruct (length topics =? 0)%nat eqn:Hpicked; [discriminate|].
    intros [= <- <- <- <- <- <-].
    exists c, topics. repeat split; try done.
    + intros Hempty. rewrite Hempty in Hpicked. discriminate.
    + by apply List.filter_In in H as [? ?].
    + apply List.filter_In in H as [_ Hboth].
      apply andb_true_iff in Hboth as [_ Hadm].
      by apply admitted_by_id in Hadm.
    + intros ? [= <-]. apply List.filter_In in H as [_ Hboth].
      by apply andb_true_iff in Hboth as [? _].
Qed.

Lemma open_gate_guarantees_witness :
  let c := {| course_name := JStr "JavaScript";
              course_topics :=
                [ {| topic_id := "closures"; topic_name := JStr "Closures";
                     topic_more := [] |};
                  {| topic_id := "promises"; topic_name := JStr "Promises";
                     topic_more := [] |} ] |} in
  let settings := {| interview_min_questions := None;
                     interview_min_score := None;
                     interview_daily_question_limit := Some 5 |} in
  ∃ topics,
    JArr [JObj [("id", JStr "promises"); ("name", JStr "Promises")]]
    = JArr (map topic_value topics)
    ∧ topics ≠ [].
Proof.
  intros c settings.
  destruct (open_gate_guarantees (JStr "js") (JArr [JStr "promises"; JStr "gone"])
              JUndefined JUndefined (Some c) settings 4 [] JUndefined None
              (JStr "js") (JStr "JavaScript") (JArr [JStr "promises"; JStr "gone"])
              (JArr [JObj [("id", JStr "promises"); ("name", JStr "Promises")]])
              JNull None)
    as (c' & topics & _ & _ & _ & _ & _ & Hlist & Hsome & _).
  - reflexivity.
  - exists topics. split; [exact Hlist | exact Hsome].
Defined.

(** ** The average score *)

Lemma total_score_from (performance : list PerformanceRow) :
  ∀ start, fold_left (fun sum p => sum + row_score p) performance start
           = start + total_score performance.
Proof.
  unfold total_score.
  induction performance as [|p performance IH]; intros start; simpl; [lia|].
  rewrite (IH (start + row_score p)), (IH (0 + row_score p)). lia.
Qed.

Lemma total_score_bounds (lo hi : Z) (performance : list PerformanceRow) :
  Forall (fun p => lo ≤ row_score p ≤ hi) performance →
  Z.of_nat (length performance) * lo ≤ total_score performance
  ≤ Z.of_nat (length performance) * hi.
Proof.
  induction 1 as [|p performance Hp _ IH].
  - by cbn.
  - unfold total_score in *. cbn [fold_left length].
    rewrite total_score_from. unfold total_score. lia.
Qed.

(** X23. The average score.  The average that [/eligibility] reports and
    that both handlers compare with the minimum score is 0 when the learner
    has no result; otherwise it is the mean of the scores rounded to the
    nearest integer, a half going up, and so it lies between the lowest and
    the highest score. *)
Theorem average_score_is_the_rounded_mean (lo hi : Z)
    (performance : list PerformanceRow) :
  Forall (fun p => lo ≤ row_score p ≤ hi) performance →
  let n := Z.of_nat (length performance) in
  (performance = [] → average_score performance = 0)
  ∧ (performance ≠ [] →
     lo ≤ average_score performance ≤ hi
     ∧ n * (2 * average_score performance - 1) ≤ 2 * total_score performance
       < n * (2 * average_score performance + 1)).
Proof.
  intros Hrange n. split; [by intros ->|].
  intros Hsome.
  assert (0 < n) as Hn.
  { unfold n. destruct performance; [done | simpl; lia]. }
  pose proof (total_score_bounds lo hi performance Hrange) as Htotal.
  fold n in Htotal.
  unfold average_score.
  destruct (Nat.ltb_spec 0 (length performance)) as [_|Hzero]; [|lia].
  fold n. unfold round_div.
  set (total := total_score performance) in *.
  pose proof (Z.div_mod (2 * total + n) (2 * n) ltac:(lia)) as Hdm.
  pose proof (Z.mod_pos_bound (2 * total + n) (2 * n) ltac:(lia)) as Hm.
  set (q := (2 * total + n) / (2 * n)) in *.
  split; [split|]; nia.
Qed.

Lemma average_score_is_the_rounded_mean_witness :
  let performance := [ {| row_topic := "closures"; row_score := 80 |};
                       {| row_topic := "closures"; row_score := 55 |} ] in
  0 ≤ average_score performance ≤ 100.
Proof.
  intros performance.
  destruct (average_score_is_the_rounded_mean 0 100 performance) as [_ Hmean].
  - repeat constructor; simpl; lia.
  - by destruct Hmean as [Hrange _].
Defined.

(** ** Course ids *)

Lemma slug_char_is_lower (c : Ascii.ascii) :
  is_slug_char c = true → lower_ascii c = c.
Proof.
  unfold is_slug_char, lower_ascii. intros Hc.
  destruct (Nat.leb_spec 65 (Ascii.nat_of_ascii c)),
    (Nat.leb_spec (Ascii.nat_of_ascii c) 90); cbn [andb]; try reflexivity.
  exfalso.
  destruct (Nat.leb_spec 97 (Ascii.nat_of_ascii c)),
    (Nat.leb_spec (Ascii.nat_of_ascii c) 122),
    (Nat.leb_spec 48 (Ascii.nat_of_ascii c)),
    (Nat.leb_spec (Ascii.nat_of_ascii c) 57); cbn in Hc; try discriminate; lia.
Qed.

Lemma slug_from_chars (s : string) :
  ∀ b, all_chars (fun c => is_slug_char c || Ascii.eqb c dash) (slug_from b s) = true.
Proof.
  induction s as [|c s IH]; intros b; [reflexivity|]. cbn [slug_from].
  destruct (is_slug_char (lower_ascii c)) eqn:Hc.
  - cbn [all_chars]. by rewrite Hc, IH.
  - destruct b; [apply IH|]. cbn [all_chars]. by rewrite IH.
Qed.

Lemma slug_from_run_start (s : string) :
  match slug_from true s with
  | String c _ => Ascii.eqb c dash = false
  | EmptyString => True
  end.
Proof.
  induction s as [|c s IH]; [exact I|]. cbn [slug_from].
  destruct (is_slug_char (lower_ascii c)) eqn:Hc; [|exact IH].
  destruct (Ascii.eqb_spec (lower_ascii c) dash) as [Heq|]; [|reflexivity].
  rewrite Heq in Hc. discriminate.
Qed.

Lemma slug_from_dashes (s : string) :
  ∀ b, no_double_dash (slug_from b s) = true.
Proof.
  induction s as [|c s IH]; intros b; [reflexivity|]. cbn [slug_from].
  destruct (is_slug_char (lower_ascii c)) eqn:Hc.
  - cbn [no_double_dash]. rewrite IH, andb_true_r.
    destruct (slug_from false s); [reflexivity|].
    destruct (Ascii.eqb_spec (lower_ascii c) dash) as [Heq|]; [|reflexivity].
    rewrite Heq in Hc. discriminate.
  - destruct b; [apply IH|].
    cbn [no_double_dash]. rewrite IH, andb_true_r.
    pose proof (slug_from_run_start s) as Hstart.
    destruct (slug_from true s); [reflexivity|].
    by rewrite Hstart, andb_false_r.
Qed.

Lemma slug_from_again (s : string) :
  ∀ b, slug_from b (slug_from b s) = slug_from b s.
Proof.
  induction s as [|c s IH]; intros b; [reflexivity|]. cbn [slug_from].
  destruct (is_slug_char (lower_ascii c)) eqn:Hc.
  - cbn [slug_from]. rewrite (slug_char_is_lower _ Hc), Hc. by rewrite IH.
  - destruct b; [apply IH|].
    cbn [slug_from]. change (is_slug_char (lower_ascii dash)) with false.
    cbn iota. by rewrite IH.
Qed.

(** X24. The id generated for a course.  The id [createCourse] derives from
    a name holds only lower-case letters, digits and dashes, never two
    dashes in a row, and deriving an id from an id gives the id back. *)
Theorem generated_id_is_a_slug (name : string) :
  all_chars (fun c => is_slug_char c || Ascii.eqb c dash) (slugify name) = true
  ∧ no_double_dash (slugify name) = true
  ∧ slugify (slugify name) = slugify name.
Proof.
  unfold slugify. split; [apply slug_from_chars|].
  split; [apply slug_from_dashes | apply slug_from_again].
Qed.

Example slugify_a_name : slugify "Data Structures & Algorithms 101" = "data-structures-algorithms-101".
Proof. reflexivity. Qed.

(** ** The course file *)

Lemma strict_equal_eq (a b : jsval) : strict_equal a b = true → a = b.
Proof.
  destruct a, b; cbn; try discriminate; try reflexivity.
  - intros H. by apply Bool.eqb_prop in H as ->.
  - intros H. by apply Z.eqb_eq in H as ->.
  - intros H. by apply String.eqb_eq in H as ->.
Qed.

Lemma strict_equal_sym (a b : jsval) : strict_equal a b = strict_equal b a.
Proof.
  destruct a, b; cbn; try reflexivity.
  - by destruct b, b0.
  - apply Z.eqb_sym.
  - apply String.eqb_sym.
Qed.

Lemma obj_delete_no_key (o : jsobj) (k : string) :
  Forall (fun kv => fst kv ≠ k) (obj_delete o k).
Proof.
  induction o as [|[k0 v0] o IH]; cbn; [constructor|].
  destruct (String.eqb_spec k0 k); [exact IH|]. by constructor.
Qed.

Lemma obj_delete_elem (o : jsobj) (k k' : string) (v : jsval) :
  k' ≠ k → (k', v) ∈ o → (k', v) ∈ obj_delete o k.
Proof.
  intros Hne. induction o as [|[k0 v0] o IH]; cbn; [done|].
  rewrite elem_of_cons. intros [Heq|Hin].
  - injection Heq as <- <-. destruct (String.eqb_spec k' k); [done|]. left.
  - destruct (String.eqb_spec k0 k); [by apply IH|]. right. by apply IH.
Qed.

Lemma obj_delete_keys (o : jsobj) (k k' : string) :
  k' ∈ (obj_delete o k).*1 → k' ∈ o.*1.
Proof.
  induction o as [|[k0 v0] o IH]; cbn; [done|].
  destruct (String.eqb_spec k0 k); cbn.
  - intros Hin. right. by apply IH.
  - intros [->|Hin]%elem_of_cons; [left | right; by apply IH].
Qed.

Lemma obj_delete_NoDup (o : jsobj) (k : string) :
  NoDup o.*1 → NoDup (obj_delete o k).*1.
Proof.
  induction o as [|[k0 v0] o IH]; cbn; [done|].
  intros [Hk0 Ho]%NoDup_cons.
  destruct (String.eqb_spec k0 k); [by apply IH|]. cbn.
  apply NoDup_cons. split; [|by apply IH].
  intros Hin. by apply Hk0, (obj_delete_keys _ k).
Qed.

Lemma obj_get_spread_elem (src o : jsobj) (k : string) (v : jsval) :
  NoDup src.*1 → (k, v) ∈ src → obj_get (obj_spread o src) k = v.
Proof.
  revert o. induction src as [|[k0 v0] src IH]; intros o Hnd Hin; [by inversion Hin|].
  cbn in Hnd. apply NoDup_cons in Hnd as [Hk0 Hnd].
  change (obj_spread o ((k0, v0) :: src)) with (obj_spread (obj_set o k0 v0) src).
  apply elem_of_cons in Hin as [Heq|Hin].
  - injection Heq as <- <-.
    rewrite obj_get_spread, obj_get_set, String.eqb_refl; [reflexivity|].
    apply Forall_forall. intros [k' v'] Hin' Heq. apply Hk0.
    apply list_elem_of_fmap. exists (k', v').
    split; [symmetry; exact Heq | exact Hin'].
  - by apply IH.
Qed.

Lemma find_index_Some (k : jsval) (courses : list jsobj) (i : nat) :
  find_index k courses = Some i →
  ∃ c, courses !! i = Some c ∧ has_id k c = true
       ∧ ∀ j c', (j < i)%nat → courses !! j = Some c' → has_id k c' = false.
Proof.
  revert i. induction courses as [|c courses IH]; intros i; cbn; [discriminate|].
  destruct (has_id k c) eqn:Hc.
  - intros [= <-]. exists c. repeat split; [done|]. intros j c' Hj. lia.
  - destruct (find_index k courses) as [i'|] eqn:Hi; cbn; [|discriminate].
    intros [= <-]. destruct (IH i' eq_refl) as (c0 & Hlook & Hid & Hfirst).
    exists c0. repeat split; [done..|].
    intros [|j] c' Hj; cbn; [congruence|]. apply Hfirst. lia.
Qed.

Lemma find_index_find (k : jsval) (courses : list jsobj) :
  List.find (has_id k) courses = find_index k courses ≫= (courses !!.).
Proof.
  induction courses as [|c courses IH]; cbn; [reflexivity|].
  destruct (has_id k c); [reflexivity|]. rewrite IH.
  by destruct (find_index k courses).
Qed.

Lemma find_delete_other {A} (f : A → bool) (l : list A) (i : nat) (d : A) :
  l !! i = Some d → f d = false → List.find f (delete i l) = List.find f l.
Proof.
  revert i. induction l as [|x l IH]; intros [|i]; cbn; try discriminate.
  - intros [= ->] ->. reflexivity.
  - intros Hl Hd. destruct (f x); [reflexivity|]. by apply IH.
Qed.

Lemma find_insert_other {A} (f : A → bool) (l : list A) (i : nat) (d u : A) :
  l !! i = Some d → f d = false → f u = false →
  List.find f (<[i:=u]> l) = List.find f l.
Proof.
  revert i. induction l as [|x l IH]; intros [|i]; cbn; try discriminate.
  - intros [= ->] -> ->. reflexivity.
  - intros Hl Hd Hu. destruct (f x); [reflexivity|]. by apply IH.
Qed.

Lemma find_insert_first (k : jsval) (courses : list jsobj) (i : nat) (u : jsobj) :
  find_index k courses = Some i → has_id k u = true →
  List.find (has_id k) (<[i:=u]> courses) = Some u.
Proof.
  revert i. induction courses as [|c courses IH]; intros i; cbn; [discriminate|].
  destruct (has_id k c) eqn:Hc.
  - intros [= <-] Hu. cbn. by rewrite Hu.
  - destruct (find_index k courses) as [i'|]; cbn; [|discriminate].
    intros [= <-] Hu. cbn. rewrite Hc. by apply IH.
Qed.

Lemma find_append {A} (f : A → bool) (l1 l2 : list A) :
  List.find f (l1 ++ l2)
  = match List.find f l1 with Some x => Some x | None => List.find f l2 end.
Proof.
  induction l1 as [|x l1 IH]; cbn; [reflexivity|]. by destruct (f x).
Qed.

Lemma existsb_false_lookup {A} (f : A → bool) (l : list A) (i : nat) (x : A) :
  existsb f l = false → l !! i = Some x → f x = false.
Proof.
  revert i. induction l as [|y l IH]; intros [|i]; cbn; try discriminate.
  - intros [Hy _]%orb_false_elim [= <-]. exact Hy.
  - intros [_ Hl]%orb_false_elim. by apply IH.
Qed.

Lemma existsb_find {A} (f : A → bool) (l : list A) :
  existsb f l = bool_decide (List.find f l ≠ None).
Proof.
  induction l as [|y l IH]; cbn; [reflexivity|].
  destruct (f y); [reflexivity|]. exact IH.
Qed.

Lemma updated_keeps_id (old updates : jsobj) :
  obj_get (obj_spread old (obj_delete updates "id")) "id" = obj_get old "id".
Proof. apply obj_get_spread, obj_delete_no_key. Qed.

(** What [createCourse] returns, when it returns. *)
Lemma createCourse_returns (file file' : option (list jsobj)) (course c : jsobj)
    (write_ok : bool) :
  createCourse file course write_ok = (file', Returned c) →
  ∃ courses course1,
    file = Some courses ∧ file' = Some (courses ++ [c])
    ∧ existsb (has_id (obj_get course1 "id")) courses = false
    ∧ obj_get c "id" = obj_get course1 "id"
    ∧ (course1 = course ∧ truthy (obj_get course "id") = true
       ∨ ∃ name, obj_get course "name" = JStr name
                 ∧ truthy (obj_get course "id") = false
                 ∧ course1 = obj_set course "id" (JStr (slugify name)))
    ∧ (c = course1 ∧ truthy (obj_get course1 "topics") = true
       ∨ c = obj_set course1 "topics" (JArr [])
         ∧ truthy (obj_get course1 "topics") = false).
Proof.
  unfold createCourse. destruct file as [courses|]; [|discriminate].
  set (identified := if truthy (obj_get course "id") then _ else _).
  assert (Hid : ∀ course1, identified = Some course1 →
            course1 = course ∧ truthy (obj_get course "id") = true
            ∨ ∃ name, obj_get course "name" = JStr name
                      ∧ truthy (obj_get course "id") = false
                      ∧ course1 = obj_set course "id" (JStr (slugify name))).
  { subst identified. intros course1.
    destruct (truthy (obj_get course "id")); [intros [= <-]; by left|].
    destruct (obj_get course "name") as [| | | |name| |]; try discriminate.
    intros [= <-]. right. by exists name. }
  destruct identified as [course1|]; [|discriminate].
  destruct (existsb (has_id (obj_get course1 "id")) courses) eqn:Hex; [discriminate|].
  destruct write_ok; [|discriminate].
  intros [= <- <-]. exists courses, course1.
  split; [done|]. split; [done|]. split; [done|].
  destruct (truthy (obj_get course1 "topics")) eqn:Ht.
  - split; [done|]. split; [by apply Hid | by left].
  - split; [by rewrite obj_get_set|]. split; [by apply Hid | by right].
Qed.

(** X25. Ids stay unique.  When no two courses of the file have the same
    id, none of [createCourse], [updateCourse] and [deleteCourse] makes two
    of them share one, whatever the arguments and whether or not the write
    succeeds. *)
Theorem course_ids_stay_unique (file : option (list jsobj))
    (course updates : jsobj) (courseId : jsval) (write_ok : bool) :
  unique_ids (courses_of file) →
  unique_ids (courses_of (createCourse file course write_ok).1)
  ∧ unique_ids (courses_of (updateCourse file courseId updates write_ok).1)
  ∧ unique_ids (courses_of (deleteCourse file courseId write_ok).1).
Proof.
  intros Huniq. split; [|split].
  - destruct (createCourse file course write_ok) as [file' [c|]] eqn:Hc.
    + apply createCourse_returns in Hc
        as (courses & course1 & -> & -> & Hex & Hcid & _ & _).
      cbn in *. intros i j ci cj Hij Hi Hj.
      apply lookup_snoc_Some in Hi as [[_ Hi]|[-> <-]];
        apply lookup_snoc_Some in Hj as [[Hlen Hj]|[-> <-]].
      * by apply (Huniq i j).
      * rewrite Hcid. exact (existsb_false_lookup _ _ _ _ Hex Hi).
      * rewrite Hcid, strict_equal_sym.
        exact (existsb_false_lookup _ _ _ _ Hex Hj).
      * done.
    + assert (file' = file) as ->; [|exact Huniq].
      revert Hc. unfold createCourse. destruct file; [|congruence].
      repeat case_match; congruence.
  - unfold updateCourse. destruct file as [courses|]; [|exact Huniq].
    destruct (find_index courseId courses) as [index|] eqn:Hidx; [|exact Huniq].
    destruct write_ok; [|exact Huniq].
    destruct (find_index_Some _ _ _ Hidx) as (old & Hold & _ & _).
    rewrite Hold. cbv zeta. cbn [fst snd courses_of default] in *.
    assert (Hsame : ∀ i c, <[index:=obj_spread old (obj_delete updates "id")]>
                             courses !! i = Some c →
              ∃ c0, courses !! i = Some c0 ∧ obj_get c "id" = obj_get c0 "id").
    { intros i c [(-> & <- & _)|[_ Hi]]%list_lookup_insert_Some.
      - exists old. split; [done | apply updated_keeps_id].
      - by exists c. }
    intros i j ci cj Hij Hi Hj.
    apply Hsame in Hi as (ci0 & Hi & ->). apply Hsame in Hj as (cj0 & Hj & ->).
    by apply (Huniq i j).
  - unfold deleteCourse. destruct file as [courses|]; [|exact Huniq].
    destruct (find_index courseId courses) as [index|]; [|exact Huniq].
    destruct write_ok; [|exact Huniq]. cbn in *.
    intros i j ci cj Hij Hi Hj.
    rewrite list_lookup_delete in Hi, Hj.
    destruct (decide (i < index)%nat), (decide (j < index)%nat).
    + by apply (Huniq i j).
    + apply (Huniq i (S j)); [lia | done..].
    + apply (Huniq (S i) j); [lia | done..].
    + apply (Huniq (S i) (S j)); [lia | done..].
Qed.

(** X26. A created course can be read back.  When [createCourse] returns
    a course whose id is a primitive value, [getCourse] with that id returns
    it, every course that was found before is still found, and creating the
    returned course a second time throws and leaves the file as it is. *)
Theorem created_course_is_found (file file' : option (list jsobj))
    (course c : jsobj) (write_ok : bool) :
  createCourse file course write_ok = (file', Returned c) →
  strict_equal (obj_get c "id") (obj_get c "id") = true →
  getCourse file' (obj_get c "id") = Returned (Some c)
  ∧ (∀ k c0, getCourse file k = Returned (Some c0) →
             getCourse file' k = Returned (Some c0))
  ∧ ∀ w, createCourse file' c w = (file', Thrown).
Proof.
  intros Hc Hprim.
  apply createCourse_returns in Hc
    as (courses & course1 & -> & -> & Hex & Hcid & Hident & Htopics).
  assert (Hnone : List.find (has_id (obj_get c "id")) courses = None).
  { rewrite Hcid. rewrite existsb_find in Hex.
    apply bool_decide_eq_false in Hex.
    by destruct (List.find (has_id (obj_get course1 "id")) courses);
      [exfalso; apply Hex|]. }
  split; [|split].
  - cbn. rewrite find_append, Hnone. cbn. unfold has_id at 1. by rewrite Hprim.
  - cbn. intros k c0 [= Hk]. by rewrite find_append, Hk.
  - intros w. unfold createCourse.
    assert (Hidc : (if truthy (obj_get c "id") then Some c
                    else match obj_get c "name" with
                         | JStr name => Some (obj_set c "id" (JStr (slugify name)))
                         | _ => None
                         end) = None
                   ∨ ∃ c1, (if truthy (obj_get c "id") then Some c
                    else match obj_get c "name" with
                         | JStr name => Some (obj_set c "id" (JStr (slugify name)))
                         | _ => None
                         end) = Some c1 ∧ obj_get c1 "id" = obj_get c "id").
    { destruct (truthy (obj_get c "id")) eqn:Hty; [right; by exists c|].
      destruct Hident as [[-> Hcourse]|(name & Hname & Hfalsy & ->)].
      - rewrite Hcid, Hcourse in Hty. discriminate.
      - assert (obj_get c "name" = JStr name) as ->.
        { destruct Htopics as [[-> _]|[-> _]]; by rewrite ?obj_get_set. }
        right. eexists. split; [reflexivity|].
        rewrite Hcid, !obj_get_set. by rewrite String.eqb_refl. }
    destruct Hidc as [->|(c1 & -> & Hc1)]; [reflexivity|].
    rewrite Hc1, existsb_app. cbn.
    unfold has_id at 2. by rewrite Hprim, orb_true_r.
Qed.

Lemma created_course_is_found_witness :
  let course := [("name", JStr "Operating Systems")] in
  let c := [("name", JStr "Operating Systems"); ("id", JStr "operating-systems");
            ("topics", JArr [])] in
  getCourse (Some [c]) (JStr "operating-systems") = Returned (Some c)
  ∧ createCourse (Some [c]) c true = (Some [c], Thrown).
Proof.
  intros course c.
  destruct (created_course_is_found (Some []) (Some [c]) course c true)
    as (Hget & _ & Hagain); [reflexivity | reflexivity |].
  split; [exact Hget | exact (Hagain true)].
Defined.

(** X27. A deleted course is gone, the others stay.  When [deleteCourse]
    returns, the deleted course carried the requested id; every other id
    is answered by [getCourse] as before; and when the ids of the file were
    unique, [getCourse] no longer finds the requested id. *)
Theorem deleted_course_is_gone (courses : list jsobj) (file' : option (list jsobj))
    (courseId : jsval) (d : jsobj) (write_ok : bool) :
  deleteCourse (Some courses) courseId write_ok = (file', Returned d) →
  obj_get d "id" = courseId
  ∧ getCourse (Some courses) courseId = Returned (Some d)
  ∧ (∀ k, strict_equal k courseId = false →
          getCourse file' k = getCourse (Some courses) k)
  ∧ (unique_ids courses → getCourse file' courseId = Returned None).
Proof.
  unfold deleteCourse.
  destruct (find_index courseId courses) as [index|] eqn:Hidx; [|discriminate].
  destruct write_ok; [|discriminate].
  destruct (find_index_Some _ _ _ Hidx) as (old & Hold & Hid & Hfirst).
  rewrite Hold. cbn [default]. intros [= <- <-].
  pose proof (strict_equal_eq _ _ Hid) as Hidk.
  split; [exact Hidk|]. split; [|split].
  - unfold getCourse. rewrite find_index_find, Hidx. cbn. by rewrite Hold.
  - intros k Hk. unfold getCourse. f_equal. apply (find_delete_other _ _ _ old Hold).
    unfold has_id. by rewrite Hidk, strict_equal_sym.
  - intros Huniq. unfold getCourse. f_equal.
    destruct (List.find (has_id courseId) (delete index courses)) as [c|] eqn:Hfind;
      [exfalso|reflexivity].
    apply find_some in Hfind as [Hin Hc].
    apply list_elem_of_In, list_elem_of_lookup in Hin as [j Hj].
    rewrite list_lookup_delete in Hj.
    apply strict_equal_eq in Hc.
    assert (Hsame : strict_equal (obj_get c "id") (obj_get old "id") = true).
    { rewrite Hc, Hidk. unfold has_id in Hid. by rewrite Hidk in Hid. }
    destruct (decide (j < index)%nat).
    + rewrite (Huniq j index c old) in Hsame; [discriminate | lia | done..].
    + rewrite (Huniq (S j) index c old) in Hsame; [discriminate | lia | done..].
Qed.

Lemma deleted_course_is_gone_witness :
  let a := [("id", JStr "os"); ("name", JStr "Operating Systems")] in
  let b := [("id", JStr "db"); ("name", JStr "Databases")] in
  getCourse (Some [b]) (JStr "os") = Returned None
  ∧ getCourse (Some [b]) (JStr "db") = Returned (Some b).
Proof.
  intros a b.
  destruct (deleted_course_is_gone [a; b] (Some [b]) (JStr "os") a true eq_refl)
    as (_ & _ & Hothers & Hgone).
  split.
  - apply Hgone. intros [|[|[|i]]] [|[|[|j]]] ci cj Hij Hi Hj;
      cbn in Hi, Hj; try discriminate; try congruence;
      injection Hi as <-; injection Hj as <-; reflexivity.
  - rewrite (Hothers (JStr "db") eq_refl). reflexivity.
Defined.

(** X28. What an update changes.  When [updateCourse] returns, the course
    it returns has the id of the course it replaces, whatever [id] the
    updates carry; it has the value of the updates at each of their other
    keys and the old value at every key they lack; [getCourse] with the
    requested id returns it, and every other id is answered as before. *)
Theorem update_merges_and_keeps_the_id (courses : list jsobj)
    (file' : option (list jsobj)) (courseId : jsval) (updates u : jsobj)
    (write_ok : bool) :
  NoDup updates.*1 →
  updateCourse (Some courses) courseId updates write_ok = (file', Returned u) →
  ∃ old,
    getCourse (Some courses) courseId = Returned (Some old)
    ∧ obj_get u "id" = obj_get old "id"
    ∧ (∀ k v, k ≠ "id" → (k, v) ∈ updates → obj_get u k = v)
    ∧ (∀ k, k ∉ updates.*1 → obj_get u k = obj_get old k)
    ∧ getCourse file' courseId = Returned (Some u)
    ∧ ∀ k, strict_equal k courseId = false →
           getCourse file' k = getCourse (Some courses) k.
Proof.
  intros Hnd. unfold updateCourse.
  destruct (find_index courseId courses) as [index|] eqn:Hidx; [|discriminate].
  destruct write_ok; [|discriminate].
  destruct (find_index_Some _ _ _ Hidx) as (old & Hold & Hid & Hfirst).
  rewrite Hold. cbn [default]. intros [= <- <-]. exists old.
  pose proof (strict_equal_eq _ _ Hid) as Hidk.
  split; [unfold getCourse; rewrite find_index_find, Hidx; cbn; by rewrite Hold|].
  split; [apply updated_keeps_id|]. split; [|split; [|split]].
  - intros k v Hk Hin. apply obj_get_spread_elem.
    + by apply obj_delete_NoDup.
    + by apply obj_delete_elem.
  - intros k Hk. apply obj_get_spread, Forall_forall.
    intros [k' v'] Hin Heq. apply Hk, (obj_delete_keys _ "id").
    apply list_elem_of_fmap. exists (k', v').
    split; [symmetry; exact Heq | exact Hin].
  - unfold getCourse. f_equal. apply find_insert_first; [done|].
    unfold has_id. by rewrite updated_keeps_id.
  - intros k Hk. unfold getCourse. f_equal.
    apply (find_insert_other _ _ _ old); [done|..]; unfold has_id.
    + by rewrite Hidk, strict_equal_sym.
    + by rewrite updated_keeps_id, Hidk, strict_equal_sym.
Qed.

Lemma update_merges_and_keeps_the_id_witness :
  let a := [("id", JStr "os"); ("name", JStr "Operating Systems")] in
  let updates := [("id", JStr "db"); ("name", JStr "OS")] in
  let u := [("id", JStr "os"); ("name", JStr "OS")] in
  obj_get u "id" = JStr "os" ∧ getCourse (Some [u]) (JStr "os") = Returned (Some u).
Proof.
  intros a updates u.
  destruct (update_merges_and_keeps_the_id [a] (Some [u]) (JStr "os") updates u true)
    as (old & Hold & Hid & _ & _ & Hget & _).
  - apply (bool_decide_unpack _). by vm_compute.
  - reflexivity.
  - split; [|exact Hget]. cbn in Hold. injection Hold as <-. exact Hid.
Defined.

(** X29. Unknown ids.  A course id that [getCourse] does not find can be
    neither updated nor deleted: both calls throw and the file is left as
    it is. *)
Theorem unknown_course_is_refused (file : option (list jsobj)) (courseId : jsval)
    (updates : jsobj) (write_ok : bool) :
  getCourse file courseId = Returned None →
  updateCourse file courseId updates write_ok = (file, Thrown)
  ∧ deleteCourse file courseId write_ok = (file, Thrown).
Proof.
  destruct file as [courses|]; [|discriminate]. cbn.
  rewrite find_index_find. intros [= Hfind].
  destruct (find_index courseId courses) as [index|] eqn:Hidx; [|done].
  destruct (find_index_Some _ _ _ Hidx) as (old & Hold & _).
  cbn in Hfind. congruence.
Qed.

Lemma unknown_course_is_refused_witness :
  let a := [("id", JStr "os")] in
  deleteCourse (Some [a]) (JStr "db") true = (Some [a], Thrown).
Proof.
  intros a.
  exact (proj2 (unknown_course_is_refused (Some [a]) (JStr "db") [] true eq_refl)).
Defined.

(** ** Instances *)

Lemma skip_limit_never_fires_witness :
  let reqs :=
    [ ReqStart (GateOpen (JStr "c1") (JStr "Course") (JStr "random") (JArr [])
                  JUndefined None) "s1" 0 1 (Some opening);
      ReqRespond (JStr "s1") skip_request (JBool true) 2 3 (Some next_question);
      ReqRespond (JStr "s1") skip_request (JBool true) 4 5 (Some next_question);
      ReqRespond (JStr "s1") skip_request (JBool true) 6 7 (Some next_question) ] in
  Forall (fun r => is_autoEnd r = false) (snd (serve (∅, None) reqs)).
Proof.
  intros reqs. exact (proj1 (skip_limit_never_fires None reqs)).
Defined.

Lemma counters_mirror_the_transcript_witness :
  let reqs :=
    [ ReqStart (GateOpen (JStr "c1") (JStr "Course") (JStr "random") (JArr [])
                  JUndefined None) "s1" 0 1 (Some opening);
      ReqRespond (JStr "s1") skip_request (JBool true) 2 3 (Some next_question) ] in
  ∃ s, fst (fst (serve (∅, None) reqs)) !! "s1" = Some s
       ∧ questionCount (metrics s) = count_messages asks_a_question (messages s)
       ∧ skippedCount (metrics s) = count_messages is_a_skip (messages s).
Proof.
  intros reqs.
  destruct (fst (fst (serve (∅, None) reqs)) !! "s1") as [s|] eqn:Hs;
    [|vm_compute in Hs; discriminate].
  exists s. split; [reflexivity|].
  exact (counters_mirror_the_transcript None reqs "s1" s Hs).
Defined.

Lemma max_topic_skips_is_the_maximum_witness :
  0 ≤ maxSkips (getMaxTopicSkips two_skips_registry "s1").
Proof.
  exact (proj1 (proj2 (max_topic_skips_is_the_maximum two_skips_registry "s1"))).
Defined.

Lemma clearing_a_course_witness :
  let file := Some [fresh_session "s1" 2] in
  getInterviewsByCourse (fst (clearInterviewsByCourse file "c1" true)) "c1" = [].
Proof.
  intros file. exact (proj1 (clearing_a_course file "c1")).
Defined.

Lemma generated_id_is_a_slug_witness :
  slugify (slugify "Data Structures & Algorithms")
  = slugify "Data Structures & Algorithms".
Proof.
  exact (proj2 (proj2 (generated_id_is_a_slug "Data Structures & Algorithms"))).
Defined.

Lemma course_ids_stay_unique_witness :
  let a := [("id", JStr "os"); ("name", JStr "Operating Systems")] in
  let b := [("name", JStr "Data Bases")] in
  unique_ids (courses_of (createCourse (Some [a]) b true).1).
Proof.
  intros a b.
  apply (course_ids_stay_unique (Some [a]) b [] JNull true).
  intros [|i] [|j] ci cj Hij Hi Hj; cbn in Hi, Hj; try discriminate; congruence.
Defined.
